(** * LolzLiveBumper: the scheduling and persistence core, embedded in Rocq

    The development follows the two source files:

    - [database.py]: class [Database], a SQLite file with the tables
      [threads] and [bump_history];
    - [bump_service.py]: class [AsyncBumpService], the reconciliation at
      start-up, the classification of one bump reply, the per-thread
      transition and the cycle loop.

    Python integers are [Z]; a nullable SQL column is an [option]; the
    table [threads], keyed by its INTEGER PRIMARY KEY, is a [gmap Z Row];
    the append-only table [bump_history] is a list.  Everything the code
    obtains from outside (wall clock, random numbers, HTTP replies, the
    Telegram transport, storage errors) is read from an oracle record
    [Env], indexed by the number of calls made so far, so that every
    function below is a total, executable state transformer. *)

From Stdlib Require Import ZArith List String Lia Bool Sorted.
From stdpp Require Import base option gmap strings list fin_maps pretty sorting.

Open Scope Z_scope.

(** ** config.py (not part of the sources at hand)

    The constants imported from [config] are parameters of the model. *)

Record Config := {
  BUMP_INTERVAL : Z;
  RETRY_DELAYS : list Z;
  MAX_CONSECUTIVE_FAILURES : Z;
  THREAD_IDS : list Z;
  (* [bot] is built when TELEGRAM_BOT_TOKEN is set: only its truth value
     is consulted by the service *)
  bot : bool
}.

(** ** The data model of database.py *)

(** One row of [threads], without its key [thread_id].  The defaults are
    those of the CREATE TABLE statement in [_init_db]. *)
Record Row := {
  title : option string;
  last_bump_time : Z;
  next_bump_time : option Z;
  bump_count : Z;
  last_error : option string;
  consecutive_failures : Z;
  is_active : Z;
  created_at : option Z;
  updated_at : option Z
}.

Definition schema_defaults : Row := {|
  title := None;
  last_bump_time := 0;
  next_bump_time := Some 0;
  bump_count := 0;
  last_error := None;
  consecutive_failures := 0;
  is_active := 1;
  created_at := None;
  updated_at := None
|}.

(** [dict(row)]: the key together with the other columns. *)
Definition thread_id (t : Z * Row) : Z := fst t.
Definition columns (t : Z * Row) : Row := snd t.

Record HistoryRecord := {
  id : Z;
  h_thread_id : Z;
  bump_time : Z;
  success : Z;
  message : string
}.

Record Store := {
  threads : gmap Z Row;
  bump_history : list HistoryRecord;
  (* AUTOINCREMENT: the largest id handed out so far *)
  history_seq : Z
}.

Definition empty_store : Store :=
  {| threads := ∅; bump_history := []; history_seq := 0 |}.

(** Columns that a keyword argument of [upsert_thread] can name.
    [thread_id] is the positional parameter, so Python rejects it as a
    keyword. *)
Inductive Column :=
| col_title | col_last_bump_time | col_next_bump_time | col_bump_count
| col_last_error | col_consecutive_failures | col_is_active
| col_created_at | col_updated_at.

Global Instance Column_eq_dec : EqDecision Column.
Proof. solve_decision. Defined.

Inductive Value := VNull | VInt (z : Z) | VText (s : string).

Definition of_int (o : option Z) : Value :=
  match o with Some z => VInt z | None => VNull end.
Definition of_text (o : option string) : Value :=
  match o with Some s => VText s | None => VNull end.

Definition field (c : Column) (r : Row) : Value :=
  match c with
  | col_title => of_text (title r)
  | col_last_bump_time => VInt (last_bump_time r)
  | col_next_bump_time => of_int (next_bump_time r)
  | col_bump_count => VInt (bump_count r)
  | col_last_error => of_text (last_error r)
  | col_consecutive_failures => VInt (consecutive_failures r)
  | col_is_active => VInt (is_active r)
  | col_created_at => of_int (created_at r)
  | col_updated_at => of_int (updated_at r)
  end.

(** One entry [column=value] of [**kwargs]. *)
Inductive Assign :=
| title_is (v : option string)
| last_bump_time_is (v : Z)
| next_bump_time_is (v : option Z)
| bump_count_is (v : Z)
| last_error_is (v : option string)
| consecutive_failures_is (v : Z)
| is_active_is (v : Z)
| created_at_is (v : option Z)
| updated_at_is (v : option Z).

Definition column_of (a : Assign) : Column :=
  match a with
  | title_is _ => col_title
  | last_bump_time_is _ => col_last_bump_time
  | next_bump_time_is _ => col_next_bump_time
  | bump_count_is _ => col_bump_count
  | last_error_is _ => col_last_error
  | consecutive_failures_is _ => col_consecutive_failures
  | is_active_is _ => col_is_active
  | created_at_is _ => col_created_at
  | updated_at_is _ => col_updated_at
  end.

Definition value_of (a : Assign) : Value :=
  match a with
  | title_is v => of_text v
  | last_bump_time_is v => VInt v
  | next_bump_time_is v => of_int v
  | bump_count_is v => VInt v
  | last_error_is v => of_text v
  | consecutive_failures_is v => VInt v
  | is_active_is v => VInt v
  | created_at_is v => of_int v
  | updated_at_is v => of_int v
  end.

Definition assign (r : Row) (a : Assign) : Row :=
  match a with
  | title_is v =>
      {| title := v; last_bump_time := last_bump_time r;
         next_bump_time := next_bump_time r; bump_count := bump_count r;
         last_error := last_error r;
         consecutive_failures := consecutive_failures r;
         is_active := is_active r; created_at := created_at r;
         updated_at := updated_at r |}
  | last_bump_time_is v =>
      {| title := title r; last_bump_time := v;
         next_bump_time := next_bump_time r; bump_count := bump_count r;
         last_error := last_error r;
         consecutive_failures := consecutive_failures r;
         is_active := is_active r; created_at := created_at r;
         updated_at := updated_at r |}
  | next_bump_time_is v =>
      {| title := title r; last_bump_time := last_bump_time r;
         next_bump_time := v; bump_count := bump_count r;
         last_error := last_error r;
         consecutive_failures := consecutive_failures r;
         is_active := is_active r; created_at := created_at r;
         updated_at := updated_at r |}
  | bump_count_is v =>
      {| title := title r; last_bump_time := last_bump_time r;
         next_bump_time := next_bump_time r; bump_count := v;
         last_error := last_error r;
         consecutive_failures := consecutive_failures r;
         is_active := is_active r; created_at := created_at r;
         updated_at := updated_at r |}
  | last_error_is v =>
      {| title := title r; last_bump_time := last_bump_time r;
         next_bump_time := next_bump_time r; bump_count := bump_count r;
         last_error := v;
         consecutive_failures := consecutive_failures r;
         is_active := is_active r; created_at := created_at r;
         updated_at := updated_at r |}
  | consecutive_failures_is v =>
      {| title := title r; last_bump_time := last_bump_time r;
         next_bump_time := next_bump_time r; bump_count := bump_count r;
         last_error := last_error r;
         consecutive_failures := v;
         is_active := is_active r; created_at := created_at r;
         updated_at := updated_at r |}
  | is_active_is v =>
      {| title := title r; last_bump_time := last_bump_time r;
         next_bump_time := next_bump_time r; bump_count := bump_count r;
         last_error := last_error r;
         consecutive_failures := consecutive_failures r;
         is_active := v; created_at := created_at r;
         updated_at := updated_at r |}
  | created_at_is v =>
      {| title := title r; last_bump_time := last_bump_time r;
         next_bump_time := next_bump_time r; bump_count := bump_count r;
         last_error := last_error r;
         consecutive_failures := consecutive_failures r;
         is_active := is_active r; created_at := v;
         updated_at := updated_at r |}
  | updated_at_is v =>
      {| title := title r; last_bump_time := last_bump_time r;
         next_bump_time := next_bump_time r; bump_count := bump_count r;
         last_error := last_error r;
         consecutive_failures := consecutive_failures r;
         is_active := is_active r; created_at := created_at r;
         updated_at := v |}
  end.

(** [SET a1, ..., an]: every right-hand side here is a constant, so the
    assignments can be applied from left to right; SQLite keeps the
    rightmost one when a column is named twice. *)
Definition assign_all (kwargs : list Assign) (r : Row) : Row :=
  fold_left assign kwargs r.

(** ** What the process observes and changes *)

Inductive Exn :=
| OperationalError (msg : string)   (* sqlite3: a statement failed *)
| IntegrityError (msg : string)     (* sqlite3: PRIMARY KEY violated *)
| IndexError (msg : string)
| TypeError (msg : string)
| StopIteration (msg : string)
| ClientError (msg : string)        (* aiohttp: request, time-out, JSON *)
| TelegramError (msg : string).     (* bot.send_message failed *)

Definition str (e : Exn) : string :=
  match e with
  | OperationalError m | IntegrityError m | IndexError m | TypeError m
  | StopIteration m | ClientError m | TelegramError m => m
  end.

Inductive Level := DEBUG | INFO | SUCCESS | WARNING | ERROR | CRITICAL.

Inductive Request := GET_thread (tid : Z) | POST_bump (tid : Z).

(** Messages handed to [bot.send_message]; the HTML text is kept as
    structure. *)
Inductive TgMessage :=
| TgInvalidToken                         (* "CRITICAL: Invalid Token!" *)
| TgSkipped (tid : Z)                    (* "Skipped {tid} (too many errors)" *)
| TgStarted                              (* "Started" *)
| TgSummary (bumped : list string) (pending : list (string * Z)).

Record World := {
  db : Store;                   (* committed contents of the database file *)
  running : bool;               (* self.running *)
  ticks : nat;                  (* calls of time.time() so far *)
  draws : nat;                  (* calls of random.randint so far *)
  requests : list Request;      (* HTTP requests issued, oldest first *)
  stmts : nat;                  (* calls of cursor.execute so far *)
  sent : list TgMessage;        (* calls of bot.send_message, oldest first *)
  log : list (Level * string)   (* loguru records, oldest first *)
}.

Definition set_db (s : Store) (w : World) : World :=
  {| db := s; running := running w; ticks := ticks w; draws := draws w;
     requests := requests w; stmts := stmts w; sent := sent w; log := log w |}.
Definition set_running (b : bool) (w : World) : World :=
  {| db := db w; running := b; ticks := ticks w; draws := draws w;
     requests := requests w; stmts := stmts w; sent := sent w; log := log w |}.
Definition set_ticks (n : nat) (w : World) : World :=
  {| db := db w; running := running w; ticks := n; draws := draws w;
     requests := requests w; stmts := stmts w; sent := sent w; log := log w |}.
Definition set_draws (n : nat) (w : World) : World :=
  {| db := db w; running := running w; ticks := ticks w; draws := n;
     requests := requests w; stmts := stmts w; sent := sent w; log := log w |}.
Definition set_requests (l : list Request) (w : World) : World :=
  {| db := db w; running := running w; ticks := ticks w; draws := draws w;
     requests := l; stmts := stmts w; sent := sent w; log := log w |}.
Definition set_stmts (n : nat) (w : World) : World :=
  {| db := db w; running := running w; ticks := ticks w; draws := draws w;
     requests := requests w; stmts := n; sent := sent w; log := log w |}.
Definition set_sent (l : list TgMessage) (w : World) : World :=
  {| db := db w; running := running w; ticks := ticks w; draws := draws w;
     requests := requests w; stmts := stmts w; sent := l; log := log w |}.
Definition set_log (l : list (Level * string)) (w : World) : World :=
  {| db := db w; running := running w; ticks := ticks w; draws := draws w;
     requests := requests w; stmts := stmts w; sent := sent w; log := l |}.

Definition initial_world (s : Store) : World :=
  {| db := s; running := true; ticks := 0; draws := 0; requests := [];
     stmts := 0; sent := []; log := [] |}.

(** Replies of the remote API, reduced to the keys the service reads. *)
Record BumpData := {
  d_status : option string;          (* data.get('status') *)
  d_message : option string;         (* data.get('message') *)
  d_errors : option (list string)    (* data['errors'] when present *)
}.

(** [PostRaises]: the request, the time-out or [response.json()] raised. *)
Inductive PostResult :=
| PostRaises (e : Exn)
| PostResponse (status : Z) (data : BumpData).

Record InfoData := {
  thread_title : option string;       (* info['thread']['thread_title'] *)
  next_available_time : option Z      (* ...['permissions']['bump'][...] *)
}.

Inductive GetResult :=
| GetRaises (e : Exn)
| GetResponse (status : Z) (body : InfoData).

(** The outside world.  Each oracle is asked with the number of earlier
    calls of its kind, so successive calls may answer differently. *)
Record Env := {
  clock : nat -> Z;                    (* int(time.time()) *)
  entropy : nat -> Z;                  (* source of random.randint *)
  http_post : nat -> Z -> PostResult;  (* POST /threads/{id}/bump *)
  http_get : nat -> Z -> GetResult;    (* GET /threads/{id} *)
  tg_fault : nat -> option string;     (* does the k-th send_message raise? *)
  sql_fault : nat -> option string     (* does the k-th execute raise? *)
}.

(** No statement fails in the storage engine; no message is refused by
    the Telegram transport. *)
Definition storage_ok (env : Env) : Prop := forall k, sql_fault env k = None.
Definition telegram_ok (env : Env) : Prop := forall k, tg_fault env k = None.
Definition healthy (env : Env) : Prop := storage_ok env /\ telegram_ok env.

(** ** A state-and-exception monad for the Python methods *)

Inductive Res (A : Type) :=
| Return (a : A)
| Raise (e : Exn).
Arguments Return {A} a.
Arguments Raise {A} e.

Definition M (A : Type) : Type := World -> Res A * World.

Definition ret {A} (a : A) : M A := fun w => (Return a, w).
Definition raise {A} (e : Exn) : M A := fun w => (Raise e, w).
Definition bind {A B} (m : M A) (k : A -> M B) : M B :=
  fun w =>
    match m w with
    | (Return a, w') => k a w'
    | (Raise e, w') => (Raise e, w')
    end.

(** [try: m  except Exception as e: h e] *)
Definition try_except {A} (m : M A) (h : Exn -> M A) : M A :=
  fun w =>
    match m w with
    | (Return a, w') => (Return a, w')
    | (Raise e, w') => h e w'
    end.

Declare Scope py_scope.
Delimit Scope py_scope with py.
Notation "x <- m ;; k" := (bind m (fun x => k))
  (at level 20, m at level 99, k at level 200, only parsing) : py_scope.
Notation "m ;; k" := (bind m (fun _ => k))
  (at level 100, k at level 200, right associativity) : py_scope.
Open Scope py_scope.

Definition world_of {A} (p : Res A * World) : World := snd p.
Definition result_of {A} (p : Res A * World) : Res A := fst p.

Definition when (b : bool) (m : M unit) : M unit :=
  if b then m else ret tt.

(** [for x in xs: body x] *)
Fixpoint for_each {A} (xs : list A) (body : A -> M unit) : M unit :=
  match xs with
  | [] => ret tt
  | x :: rest => body x ;; for_each rest body
  end.

Definition logger (lvl : Level) (text : string) : M unit :=
  fun w => (Return tt, set_log (log w ++ [(lvl, text)]) w).

(** Python's [seq[i]] on a list: negative indices count from the end. *)
Definition getitem {A} (l : list A) (i : Z) : option A :=
  let n := Z.of_nat (length l) in
  if (0 <=? i) && (i <? n) then nth_error l (Z.to_nat i)
  else if (- n <=? i) && (i <? 0) then nth_error l (Z.to_nat (n + i))
  else None.

(** Truth value of a Python integer or of [None]. *)
Definition truthy (z : Z) : bool := negb (z =? 0).
Definition truthy_opt (o : option Z) : bool :=
  match o with Some z => truthy z | None => false end.

(** Formatting of an optional string by an f-string. *)
Definition fmt (o : option string) : string :=
  match o with Some s => s | None => "None" end.

(** Insertion sort, used for the ORDER BY clauses.  Rows that compare
    equal keep the order of the scan; SQLite leaves that order open. *)
Fixpoint insert_by {A} (le : A -> A -> bool) (x : A) (l : list A) : list A :=
  match l with
  | [] => [x]
  | y :: rest => if le x y then x :: l else y :: insert_by le x rest
  end.

Definition sort_by {A} (le : A -> A -> bool) (l : list A) : list A :=
  foldr (insert_by le) [] l.

(** Ascending order of a nullable INTEGER column: NULL sorts first. *)
Definition null_first_le (a b : option Z) : bool :=
  match a, b with
  | None, _ => true
  | Some _, None => false
  | Some x, Some y => x <=? y
  end.

(** ** SQL statements, as functions on the contents of the database *)

Definition with_threads (m : gmap Z Row) (s : Store) : Store :=
  {| threads := m; bump_history := bump_history s;
     history_seq := history_seq s |}.

(** [UPDATE threads SET ... WHERE thread_id = ?]: [f] is the SET clause. *)
Definition sql_update_threads (tid : Z) (f : Row -> Row) (s : Store)
  : Exn + Store :=
  inr (with_threads (alter f tid (threads s)) s).

(** [INSERT INTO threads (...) VALUES (...)]. *)
Definition sql_insert_threads (tid : Z) (r : Row) (s : Store)
  : Exn + Store :=
  match threads s !! tid with
  | Some _ =>
      inl (IntegrityError "UNIQUE constraint failed: threads.thread_id")
  | None => inr (with_threads (<[tid := r]> (threads s)) s)
  end.

(** [INSERT INTO bump_history (thread_id, bump_time, success, message)].
    The FOREIGN KEY clause is not enforced: the code never issues
    [PRAGMA foreign_keys = ON], and SQLite ignores the clause without
    it. *)
Definition sql_insert_bump_history (tid now ok : Z) (msg : string)
    (s : Store) : Exn + Store :=
  let n := history_seq s + 1 in
  inr {| threads := threads s;
         bump_history :=
           bump_history s ++
           [{| id := n; h_thread_id := tid; bump_time := now;
               success := ok; message := msg |}];
         history_seq := n |}.

Definition select_thread (tid : Z) (s : Store) : option (Z * Row) :=
  match threads s !! tid with
  | Some r => Some (tid, r)
  | None => None
  end.

Definition select_all_threads (s : Store) : list (Z * Row) :=
  sort_by (fun a b => thread_id a <=? thread_id b)
          (map_to_list (threads s)).

Definition ready_for_bump (now : Z) (t : Z * Row) : bool :=
  (is_active (columns t) =? 1) &&
  match next_bump_time (columns t) with
  | Some n => n <=? now
  | None => false
  end.

Definition select_ready_threads (now : Z) (s : Store) : list (Z * Row) :=
  sort_by (fun a b => null_first_le (next_bump_time (columns a))
                                    (next_bump_time (columns b)))
          (List.filter (ready_for_bump now) (map_to_list (threads s))).

(** SET clauses of the fixed UPDATE statements. *)
Definition set_bump_success (now : Z) (nbt : option Z) (r : Row) : Row :=
  {| title := title r;
     last_bump_time := now;
     next_bump_time := nbt;
     bump_count := bump_count r + 1;
     last_error := None;
     consecutive_failures := 0;
     is_active := is_active r;
     created_at := created_at r;
     updated_at := Some now |}.

Definition set_bump_failure (now : Z) (nrt : option Z) (error : string)
    (r : Row) : Row :=
  {| title := title r;
     last_bump_time := last_bump_time r;
     next_bump_time := nrt;
     bump_count := bump_count r;
     last_error := Some error;
     consecutive_failures := consecutive_failures r + 1;
     is_active := is_active r;
     created_at := created_at r;
     updated_at := Some now |}.

Definition set_inactive (now : Z) (r : Row) : Row :=
  assign (assign r (is_active_is 0)) (updated_at_is (Some now)).

Definition set_active (now : Z) (r : Row) : Row :=
  assign (assign (assign r (is_active_is 1)) (consecutive_failures_is 0))
         (updated_at_is (Some now)).

Section Program.

Variable cfg : Config.
Variable env : Env.

(** ** Primitive effects *)

(** [int(time.time())] *)
Definition time_time : M Z :=
  fun w => (Return (clock env (ticks w)), set_ticks (S (ticks w)) w).

(** [random.randint(a, b)] with [a <= b]: some integer of [a..b]. *)
Definition randint (a b : Z) : M Z :=
  fun w => (Return (a + entropy env (draws w) mod (b - a + 1)),
            set_draws (S (draws w)) w).

(** [await asyncio.sleep(d)]: time passes, which the clock oracle
    already allows between any two readings. *)
Definition sleep : M unit := ret tt.

(** [await bot.send_message(TELEGRAM_CHAT_ID, text)] *)
Definition send_message (msg : TgMessage) : M unit :=
  fun w =>
    let w1 := set_sent (sent w ++ [msg]) w in
    match tg_fault env (length (sent w)) with
    | Some e => (Raise (TelegramError e), w1)
    | None => (Return tt, w1)
    end.

(** ** class Database *)

(** [with self._get_connection() as conn: body].  The statements of
    [body] act on the connection's view of the database; leaving the
    block normally commits it, an exception restores the contents the
    database had when the block was entered, logs and re-raises. *)
Definition _get_connection {A} (body : M A) : M A :=
  fun w =>
    match body w with
    | (Return a, w') => (Return a, w')
    | (Raise e, w') =>
        (Raise e,
         set_log (log w' ++ [(ERROR, "Database error: " +:+ str e)])
                 (set_db (db w) w'))
    end.

(** [cursor.execute(stmt)] for INSERT and UPDATE. *)
Definition execute (stmt : Store -> Exn + Store) : M unit :=
  fun w =>
    let w1 := set_stmts (S (stmts w)) w in
    match sql_fault env (stmts w) with
    | Some e => (Raise (OperationalError e), w1)
    | None =>
        match stmt (db w) with
        | inl e => (Raise e, w1)
        | inr s => (Return tt, set_db s w1)
        end
    end.

(** [cursor.execute(select)] followed by [fetchone] or [fetchall]. *)
Definition fetch {A} (select : Store -> A) : M A :=
  fun w =>
    let w1 := set_stmts (S (stmts w)) w in
    match sql_fault env (stmts w) with
    | Some e => (Raise (OperationalError e), w1)
    | None => (Return (select (db w)), w1)
    end.

Definition get_thread (tid : Z) : M (option (Z * Row)) :=
  _get_connection (fetch (select_thread tid)).

Definition upsert_thread (tid : Z) (kwargs : list Assign) : M unit :=
  now <- time_time ;;
  existing <- get_thread tid ;;
  _get_connection
    (match existing with
     | Some _ =>
         execute (sql_update_threads tid
                    (fun r => assign (assign_all kwargs r)
                                     (updated_at_is (Some now))))
     | None =>
         execute (sql_insert_threads tid
                    (assign (assign (assign_all kwargs schema_defaults)
                                    (created_at_is (Some now)))
                            (updated_at_is (Some now))))
     end).

Definition get_threads_ready_for_bump : M (list (Z * Row)) :=
  now <- time_time ;;
  _get_connection (fetch (select_ready_threads now)).

Definition get_all_threads : M (list (Z * Row)) :=
  _get_connection (fetch select_all_threads).

Definition record_bump_success (tid : Z) (msg : string)
    (nbt : option Z) : M unit :=
  now <- time_time ;;
  _get_connection
    (execute (sql_update_threads tid (set_bump_success now nbt)) ;;
     execute (sql_insert_bump_history tid now 1 msg)).

Definition record_bump_failure (tid : Z) (error : string)
    (nrt : option Z) : M unit :=
  now <- time_time ;;
  _get_connection
    (execute (sql_update_threads tid (set_bump_failure now nrt error)) ;;
     execute (sql_insert_bump_history tid now 0 error)).

Definition deactivate_thread (tid : Z) : M unit :=
  _get_connection
    (now <- time_time ;;
     execute (sql_update_threads tid (set_inactive now))).

Definition activate_thread (tid : Z) : M unit :=
  _get_connection
    (now <- time_time ;;
     execute (sql_update_threads tid (set_active now))).

(** ** class AsyncBumpService *)

(** The dictionary built by [_bump_thread].  The key ['is_cooldown'] is
    absent unless set; [result.get('is_cooldown')] is then falsy. *)
Record BumpResult := {
  res_success : bool;
  res_message : string;
  res_next_time : option Z;
  res_is_cooldown : bool
}.

(** What [process_thread] returns: the same dictionary with the keys
    ['title'] and ['thread_id'] added. *)
Record Processed := {
  result : BumpResult;
  res_title : option string;
  res_thread_id : Z
}.

Definition new_result : BumpResult :=
  {| res_success := false; res_message := ""; res_next_time := None;
     res_is_cooldown := false |}.

Definition with_message (msg : string) (r : BumpResult) : BumpResult :=
  {| res_success := res_success r; res_message := msg;
     res_next_time := res_next_time r;
     res_is_cooldown := res_is_cooldown r |}.

(** [async with session.get(url, timeout=30) as response] *)
Definition session_get (tid : Z) : M (Z * InfoData) :=
  fun w =>
    let w1 := set_requests (requests w ++ [GET_thread tid]) w in
    match http_get env (length (requests w)) tid with
    | GetRaises e => (Raise e, w1)
    | GetResponse status body => (Return (status, body), w1)
    end.

(** [async with session.post(url, timeout=30) as response] followed by
    [data = await response.json()] *)
Definition session_post (tid : Z) : M (Z * BumpData) :=
  fun w =>
    let w1 := set_requests (requests w ++ [POST_bump tid]) w in
    match http_post env (length (requests w)) tid with
    | PostRaises e => (Raise e, w1)
    | PostResponse status data => (Return (status, data), w1)
    end.

Definition _get_thread_info (tid : Z) : M (option InfoData) :=
  try_except
    (response <- session_get tid ;;
     if fst response =? 200 then ret (Some (snd response))
     else if fst response =? 429 then
       logger WARNING "Rate limit hit" ;; ret None
     else ret None)
    (fun e => logger ERROR ("Error fetching info: " +:+ str e) ;; ret None).

(** [bump.get('next_available_time')] when it is truthy. *)
Definition reported_next_time (info : option InfoData) : option Z :=
  match info with
  | Some body =>
      if truthy_opt (next_available_time body)
      then next_available_time body else None
  | None => None
  end.

(** Body of the loop [for thread_id in config_ids]. *)
Definition add_or_reactivate (now : Z) (db_threads : list (Z * Row))
    (tid : Z) : M unit :=
  let db_ids := thread_id <$> db_threads in
  if negb (bool_decide (tid ∈ db_ids)) then
    info <- _get_thread_info tid ;;
    let title :=
      match info with
      | Some body => default "Unknown" (thread_title body)
      | None => "Unknown"
      end in
    let next_bump := default now (reported_next_time info) in
    upsert_thread tid [title_is (Some title);
                       next_bump_time_is (Some next_bump)] ;;
    logger INFO ("Added new thread: " +:+ title) ;;
    sleep
  else
    match List.find (fun t => thread_id t =? tid) db_threads with
    | Some thread =>
        if negb (truthy (is_active (columns thread))) then
          activate_thread tid ;;
          logger INFO ("Re-activated thread " +:+ pretty tid)
        else ret tt
    | None => raise (StopIteration "")
    end.

(** Body of the loop [for thread in db_threads]. *)
Definition deactivate_removed (config_ids : list Z) (thread : Z * Row)
  : M unit :=
  let tid := thread_id thread in
  if negb (bool_decide (tid ∈ config_ids))
     && truthy (is_active (columns thread)) then
    deactivate_thread tid ;;
    logger INFO ("Deactivated thread " +:+ pretty tid +:+
                 " (removed from config)")
  else ret tt.

Definition initialize_threads_from (config_ids : list Z) : M unit :=
  now <- time_time ;;
  db_threads <- get_all_threads ;;
  for_each config_ids (add_or_reactivate now db_threads) ;;
  for_each db_threads (deactivate_removed config_ids).

(** [config_ids = set(THREAD_IDS)]: the elements without repetition.
    Python does not fix the order in which a set is iterated; the
    statements about reconciliation are proved for every order. *)
Definition initialize_threads : M unit :=
  initialize_threads_from (remove_dups (THREAD_IDS cfg)).

(** The whole body of [_bump_thread] is inside [try]; the handler sets
    [result['message'] = str(e)].  Every statement that can raise comes
    before the first assignment to [result] in its branch, so the handler
    always finds the initial dictionary. *)
Definition _bump_thread (tid : Z) : M BumpResult :=
  let result := new_result in
  try_except
    (response <- session_post tid ;;
     let status := fst response in
     let data := snd response in
     if (status =? 200) && bool_decide (d_status data = Some "ok") then
       jitter <- randint 30 300 ;;
       now <- time_time ;;
       logger DEBUG ("Applied jitter: +" +:+ pretty jitter +:+ "s") ;;
       ret {| res_success := true;
              res_message := default "Bumped" (d_message data);
              res_next_time := Some (now + BUMP_INTERVAL cfg + jitter);
              res_is_cooldown := false |}
     else if (status =? 403) && bool_decide (is_Some (d_errors data)) then
       match getitem (default [] (d_errors data)) 0 with
       | None => raise (IndexError "list index out of range")
       | Some msg =>
           info <- _get_thread_info tid ;;
           match reported_next_time info with
           | Some t =>
               ret {| res_success := false; res_message := msg;
                      res_next_time := Some t; res_is_cooldown := true |}
           | None =>
               now <- time_time ;;
               ret {| res_success := false; res_message := msg;
                      res_next_time := Some (now + BUMP_INTERVAL cfg);
                      res_is_cooldown := true |}
           end
       end
     else if status =? 429 then
       now <- time_time ;;
       ret {| res_success := false; res_message := "Rate Limit";
              res_next_time := Some (now + 120);
              res_is_cooldown := false |}
     else if status =? 401 then
       logger CRITICAL "INVALID TOKEN" ;;
       (fun w => (Return tt, set_running false w)) ;;
       when (bot cfg) (send_message TgInvalidToken) ;;
       ret result
     else
       ret (with_message ("Error " +:+ pretty status) result))
    (fun e => ret (with_message (str e) result)).

Definition process_thread (thread : Z * Row) : M Processed :=
  let tid := thread_id thread in
  let title := title (columns thread) in
  let consecutive_failures := consecutive_failures (columns thread) in
  logger INFO ("Processing: " +:+ fmt title) ;;
  result <- _bump_thread tid ;;
  (if res_success result then
     logger SUCCESS ("Bumped " +:+ pretty tid) ;;
     record_bump_success tid (res_message result) (res_next_time result)
   else if res_is_cooldown result then
     logger WARNING ("Cooldown " +:+ pretty tid) ;;
     upsert_thread tid [next_bump_time_is (res_next_time result);
                        last_error_is (Some (res_message result));
                        consecutive_failures_is 0]
   else
     let consecutive_failures := consecutive_failures + 1 in
     if MAX_CONSECUTIVE_FAILURES cfg <=? consecutive_failures then
       logger ERROR ("Skipping " +:+ pretty tid +:+ " (10 fails)") ;;
       now <- time_time ;;
       let next_retry := now + BUMP_INTERVAL cfg in
       upsert_thread tid
         [next_bump_time_is (Some next_retry);
          last_error_is
            (Some ("Too many errors: " +:+ res_message result));
          consecutive_failures_is 0] ;;
       when (bot cfg) (send_message (TgSkipped tid))
     else
       match getitem (RETRY_DELAYS cfg)
                     (Z.min consecutive_failures
                            (Z.of_nat (length (RETRY_DELAYS cfg)) - 1)) with
       | None => raise (IndexError "list index out of range")
       | Some delay =>
           now <- time_time ;;
           let next_retry := now + delay in
           logger ERROR ("Error " +:+ pretty tid +:+ ": " +:+
                         res_message result) ;;
           record_bump_failure tid (res_message result) (Some next_retry)
       end) ;;
  ret {| result := result; res_title := title; res_thread_id := tid |}.

(** [self.running] *)
Definition is_running : M bool := fun w => (Return (running w), w).

(** The [for thread in ready] loop of [run_cycle], with its [break]. *)
Fixpoint dispatch (ready : list (Z * Row)) (results : list Processed)
  : M (list Processed) :=
  match ready with
  | [] => ret results
  | thread :: rest =>
      go <- is_running ;;
      if negb go then ret results
      else
        res <- process_thread thread ;;
        sleep ;;
        dispatch rest (results ++ [res])
  end.

(** [seq[:n]] on a title read from the database: slicing [None] raises. *)
Definition slice_title (o : option string) (n : nat) : M string :=
  match o with
  | Some s => ret (substring 0 n s)
  | None => raise (TypeError "'NoneType' object is not subscriptable")
  end.

Fixpoint traverse {A B} (f : A -> M B) (l : list A) : M (list B) :=
  match l with
  | [] => ret []
  | x :: rest => y <- f x ;; ys <- traverse f rest ;; ret (y :: ys)
  end.

Fixpoint filter_m {A} (p : A -> M bool) (l : list A) : M (list A) :=
  match l with
  | [] => ret []
  | x :: rest =>
      keep <- p x ;;
      ys <- filter_m p rest ;;
      ret (if keep then x :: ys else ys)
  end.

(** The lines of the summary are kept as the two lists they are built
    from; [lines] is empty exactly when both lists are. *)
Definition _notify_summary (results : list Processed) : M unit :=
  let bumped := List.filter (fun r => res_success (result r)) results in
  all_threads <- get_all_threads ;;
  now <- time_time ;;
  pending <- filter_m
    (fun t =>
       if truthy (is_active (columns t)) then
         match next_bump_time (columns t) with
         | Some n => ret (now <? n)
         | None => raise (TypeError "'>' not supported between instances")
         end
       else ret false)
    all_threads ;;
  bumped_lines <- traverse (fun r => slice_title (res_title r) 45) bumped ;;
  pending_lines <- traverse
    (fun t =>
       s <- slice_title (title (columns t)) 35 ;;
       ret (s, Z.max 0 (default 0 (next_bump_time (columns t)) - now)))
    pending ;;
  match bumped_lines, pending_lines with
  | [], [] => ret tt
  | _, _ =>
      try_except
        (send_message (TgSummary bumped_lines pending_lines))
        (fun e => logger ERROR ("Telegram error: " +:+ str e))
  end.

Definition run_cycle : M unit :=
  ready <- get_threads_ready_for_bump ;;
  match ready with
  | [] => ret tt
  | _ =>
      logger INFO ("Ready threads: " +:+ pretty (length ready)) ;;
      results <- dispatch ready [] ;;
      match results with
      | [] => ret tt
      | _ => when (bot cfg) (_notify_summary results)
      end
  end.

(** How a run of the main loop ended: the flag was found false, or the
    number of iterations granted to the model was used up. *)
Inductive LoopEnd := Stopped | OutOfFuel.

(** [while service.running: try: run_cycle; sleep  except Exception:
    log; sleep(60)]. *)
Fixpoint while_running (fuel : nat) : M LoopEnd :=
  match fuel with
  | O => go <- is_running ;; ret (if go then OutOfFuel else Stopped)
  | S n =>
      go <- is_running ;;
      if negb go then ret Stopped
      else
        try_except
          (run_cycle ;; sleep)
          (fun e => logger ERROR ("Loop error: " +:+ str e) ;; sleep) ;;
        while_running n
  end.

Definition bump_loop (fuel : nat) : M LoopEnd :=
  logger INFO "Bump loop started" ;;
  initialize_threads ;;
  when (bot cfg)
       (try_except (send_message TgStarted) (fun _ => ret tt)) ;;
  while_running fuel.

End Program.

(** ** The effect of each [Database] method on a working storage engine *)

(** The row written by [upsert_thread]. *)
Definition updated_row (now : Z) (kwargs : list Assign) (r : Row) : Row :=
  assign (assign_all kwargs r) (updated_at_is (Some now)).

Definition inserted_row (now : Z) (kwargs : list Assign) : Row :=
  assign (assign (assign_all kwargs schema_defaults)
                 (created_at_is (Some now)))
         (updated_at_is (Some now)).

Definition upserted (now tid : Z) (kwargs : list Assign) (s : Store)
  : Store :=
  match threads s !! tid with
  | Some _ => with_threads (alter (updated_row now kwargs) tid (threads s)) s
  | None => with_threads (<[tid := inserted_row now kwargs]> (threads s)) s
  end.

Definition history_appended (tid now ok : Z) (msg : string) (s : Store)
  : Store :=
  {| threads := threads s;
     bump_history :=
       bump_history s ++
       [{| id := history_seq s + 1; h_thread_id := tid; bump_time := now;
           success := ok; message := msg |}];
     history_seq := history_seq s + 1 |}.

(** ** Concrete configurations, oracles and stores

    Used to run the model at explicit inputs. *)
Module Sample.

Definition cfg : Config :=
  {| BUMP_INTERVAL := 14400;
     RETRY_DELAYS := [60; 300; 900; 1800; 3600];
     MAX_CONSECUTIVE_FAILURES := 10;
     THREAD_IDS := [7; 8];
     bot := true |}.

(** A reply with the given status and an empty JSON object. *)
Definition reply (status : Z) : PostResult :=
  PostResponse status
    {| d_status := None; d_message := None; d_errors := None |}.

Definition ok_reply : PostResult :=
  PostResponse 200
    {| d_status := Some "ok"; d_message := Some "Thread bumped";
       d_errors := None |}.

Definition cooldown_reply : PostResult :=
  PostResponse 403
    {| d_status := None; d_message := None;
       d_errors := Some ["You cannot bump this thread yet"] |}.

Definition no_info : GetResult :=
  GetResponse 404 {| thread_title := None; next_available_time := None |}.

Definition info (t : Z) : GetResult :=
  GetResponse 200
    {| thread_title := Some "Selling"; next_available_time := Some t |}.

(** The clock stands at 1000; every bump is answered by [p] and every
    information request by [g]; storage and Telegram work. *)
Definition env (p : PostResult) (g : GetResult) : Env :=
  {| clock := fun _ => 1000;
     entropy := fun _ => 12345;
     http_post := fun _ _ => p;
     http_get := fun _ _ => g;
     tg_fault := fun _ => None;
     sql_fault := fun _ => None |}.

(** Thread 7 as [upsert_thread] created it at time 5, with [f] failures
    in a row. *)
Definition row (f : Z) : Row :=
  {| title := Some "Selling";
     last_bump_time := 0;
     next_bump_time := Some 5;
     bump_count := 0;
     last_error := None;
     consecutive_failures := f;
     is_active := 1;
     created_at := Some 5;
     updated_at := Some 5 |}.

Definition store (f : Z) : Store :=
  {| threads := {[ 7 := row f ]}; bump_history := []; history_seq := 0 |}.

Definition world (f : Z) : World := initial_world (store f).

End Sample.

(** ** The outcome classes of the specification

    [classify] names the branch of [_bump_thread] that a reply selects:
    its tests are the conditions of that function, in the same order. *)
Inductive Outcome := Success | Cooldown | RateLimited | Failure | Fatal.

Definition classify (p : PostResult) : Outcome :=
  match p with
  | PostRaises _ => Failure
  | PostResponse status data =>
      if (status =? 200) && bool_decide (d_status data = Some "ok")
      then Success
      else if (status =? 403) && bool_decide (is_Some (d_errors data))
      then match d_errors data with
           | Some [] => Failure       (* data['errors'][0] raises *)
           | _ => Cooldown
           end
      else if status =? 429 then RateLimited
      else if status =? 401 then Fatal
      else Failure
  end.

(** The classes that [process_thread] handles in its last [else]. *)
Definition counted_as_failure (o : Outcome) : bool :=
  match o with
  | RateLimited | Failure | Fatal => true
  | Success | Cooldown => false
  end.

(** What [_get_thread_info] returns for a reply to its GET. *)
Definition info_of (g : GetResult) : option InfoData :=
  match g with
  | GetResponse status body => if status =? 200 then Some body else None
  | GetRaises _ => None
  end.

(** A computation is [quiet] when it neither changes the running flag nor
    issues an HTTP request; it may write to the database, send Telegram
    messages and log. *)
Definition quiet {A} (m : M A) : Prop :=
  forall w,
    running (world_of (m w)) = running w /\
    requests (world_of (m w)) = requests w /\
    (exists l, sent (world_of (m w)) = sent w ++ l) /\
    (exists l, log (world_of (m w)) = log w ++ l).

(** The world in which [_bump_thread] starts: [process_thread] has logged
    its first line. *)
Definition entered (t : Z * Row) (w : World) : World :=
  set_log (log w ++ [(INFO, "Processing: " +:+ fmt (title (columns t)))]) w.

(** ** Reconciled stores

    A row is active when [thread.get('is_active')] is truthy.  A store is
    reconciled with a configured set when every configured thread has an
    active row and every other row is inactive. *)
Definition active (r : Row) : Prop := truthy (is_active r) = true.

Definition reconciled (config_ids : list Z) (m : gmap Z Row) : Prop :=
  (forall tid, tid ∈ config_ids -> exists r, m !! tid = Some r /\ active r) /\
  (forall tid r, tid ∉ config_ids -> m !! tid = Some r -> ~ active r).

(** A thread of the snapshot is configured, or its row is still the one
    found in [m]. *)
Definition tid_in_config_or_row (m : gmap Z Row) (config_ids : list Z)
    (t : Z * Row) : Prop :=
  thread_id t ∈ config_ids \/ m !! thread_id t = Some (columns t).

(** ** The remaining methods of database.py and the /status command *)

(** SET clause of [reset_consecutive_failures]. *)
Definition set_failures_reset (now : Z) (r : Row) : Row :=
  assign (assign r (consecutive_failures_is 0)) (updated_at_is (Some now)).

(** [DELETE FROM bump_history WHERE bump_time < ?], with the number of
    deleted records ([cursor.rowcount]).  The AUTOINCREMENT counter is
    kept. *)
Definition sql_delete_old_history (cutoff : Z) (s : Store)
  : Exn + (Store * Z) :=
  let kept := List.filter (fun h => negb (bump_time h <? cutoff))
                          (bump_history s) in
  inr ({| threads := threads s; bump_history := kept;
          history_seq := history_seq s |},
       Z.of_nat (length (bump_history s)) - Z.of_nat (length kept)).

(** SQL [SUM]: NULL over no row. *)
Definition sql_sum (l : list Z) : option Z :=
  match l with
  | [] => None
  | _ => Some (foldr Z.add 0 l)
  end.

(** [SELECT COUNT( * ) as total, SUM(is_active) as active FROM threads] *)
Definition select_thread_totals (s : Store) : Z * option Z :=
  let rows := map_to_list (threads s) in
  (Z.of_nat (length rows), sql_sum ((fun t => is_active (columns t)) <$> rows)).

(** The records counted by the second query of [get_stats]. *)
Definition recent (day_ago : Z) (s : Store) : list HistoryRecord :=
  List.filter (fun h => day_ago <? bump_time h) (bump_history s).

(** [SELECT COUNT( * ) as total, SUM(success) as successful,
    COUNT( * ) - SUM(success) as failed FROM bump_history
    WHERE bump_time > ?] *)
Definition select_history_totals (day_ago : Z) (s : Store)
  : Z * option Z * option Z :=
  let total := Z.of_nat (length (recent day_ago s)) in
  let successful := sql_sum (success <$> recent day_ago s) in
  (total, successful, (fun x => total - x) <$> successful).

(** The dictionary returned by [get_stats]. *)
Record Stats := {
  total_threads : Z;
  active_threads : Z;
  bumps_24h : Z;
  successful_24h : Z;
  failed_24h : Z
}.

(** [x or 0] for an integer or [None]. *)
Definition or_0 (o : option Z) : Z :=
  match o with
  | Some z => if truthy z then z else 0
  | None => 0
  end.

(** One line of the answer to /status. *)
Inductive Status := READY | Wait (h m : Z).

Definition status_of (now nbt : Z) : Status :=
  let wait := Z.max 0 (nbt - now) in
  if wait =? 0 then READY
  else Wait (wait / 3600) ((wait mod 3600) / 60).

Section Maintenance.

Variable env : Env.

(** [cursor.execute(stmt)] followed by [cursor.rowcount]. *)
Definition execute_rowcount (stmt : Store -> Exn + (Store * Z)) : M Z :=
  fun w =>
    let w1 := set_stmts (S (stmts w)) w in
    match sql_fault env (stmts w) with
    | Some e => (Raise (OperationalError e), w1)
    | None =>
        match stmt (db w) with
        | inl e => (Raise e, w1)
        | inr (s, n) => (Return n, set_db s w1)
        end
    end.

(** The tables and indexes exist in every [Store], so each CREATE ... IF
    NOT EXISTS and the PRAGMA leave the contents alone. *)
Definition _init_db : M unit :=
  _get_connection
    (execute env inr ;;      (* CREATE TABLE IF NOT EXISTS threads *)
     execute env inr ;;      (* CREATE TABLE IF NOT EXISTS bump_history *)
     execute env inr ;;      (* CREATE INDEX IF NOT EXISTS idx_next_bump *)
     execute env inr ;;      (* CREATE INDEX IF NOT EXISTS idx_history_thread *)
     execute env inr ;;      (* PRAGMA journal_mode=WAL *)
     logger INFO "Database initialized (WAL enabled)").

Definition reset_consecutive_failures (tid : Z) : M unit :=
  _get_connection
    (now <- time_time env ;;
     execute env (sql_update_threads tid (set_failures_reset now))).

Definition get_stats : M Stats :=
  _get_connection
    (threads_row <- fetch env select_thread_totals ;;
     now <- time_time env ;;
     let day_ago := now - 86400 in
     history <- fetch env (select_history_totals day_ago) ;;
     ret {| total_threads := or_0 (Some (fst threads_row));
            active_threads := or_0 (snd threads_row);
            bumps_24h := or_0 (Some (fst (fst history)));
            successful_24h := or_0 (snd (fst history));
            failed_24h := or_0 (snd history) |}).

Definition cleanup_old_history (days : Z) : M unit :=
  now <- time_time env ;;
  let cutoff := now - days * 86400 in
  _get_connection
    (deleted <- execute_rowcount (sql_delete_old_history cutoff) ;;
     if 0 <? deleted then
       logger INFO ("Cleaned up " +:+ pretty deleted +:+
                    " old history records")
     else ret tt).

(** [status_handler]: [admins] is ADMIN_USER_IDS, [user] is
    [message.from_user.id].  The result is what is passed to
    [message.answer]: the number of active threads and one line per
    active thread; [None] when the handler returns without answering. *)
Definition status_handler (admins : list Z) (user : Z)
  : M (option (nat * list (Z * Status))) :=
  if negb (bool_decide (admins = [])) && negb (bool_decide (user ∈ admins))
  then ret None
  else
    _init_db ;;
    threads <- get_all_threads env ;;
    let active_rows :=
      List.filter (fun t => truthy (is_active (columns t))) threads in
    now <- time_time env ;;
    lines <- traverse
      (fun t =>
         match next_bump_time (columns t) with
         | Some n => ret (thread_id t, status_of now n)
         | None => raise (TypeError "unsupported operand type(s) for -")
         end)
      active_rows ;;
    ret (Some (length active_rows, lines)).

End Maintenance.

(** The identifiers of the history increase along the table and none of
    them exceeds the AUTOINCREMENT counter. *)
Definition history_ids_ok (s : Store) : Prop :=
  StronglySorted Z.lt (id <$> bump_history s) /\
  Forall (fun h => id h <= history_seq s) (bump_history s).

(** A computation [keeps_data] when no row of [threads] disappears, the
    history is only extended, and the running flag is not raised. *)
Definition keeps_data {A} (m : M A) : Prop :=
  forall w,
    (forall tid, is_Some (threads (db w) !! tid) ->
                 is_Some (threads (db (world_of (m w))) !! tid)) /\
    (exists l, bump_history (db (world_of (m w))) = bump_history (db w) ++ l) /\
    (running (world_of (m w)) = true -> running w = true).

(** The same for one SQL statement. *)
Definition stmt_keeps_data (stmt : Store -> Exn + Store) : Prop :=
  forall s s', stmt s = inr s' ->
    (forall tid, is_Some (threads s !! tid) -> is_Some (threads s' !! tid)) /\
    (exists l, bump_history s' = bump_history s ++ l).

(** The threads bumped by a trace of requests, in order. *)
Definition bumps (l : list Request) : list Z :=
  omap (fun q => match q with POST_bump t => Some t | GET_thread _ => None end)
       l.

(** An environment whose storage engine refuses every statement. *)
Definition locked_env : Env :=
  {| clock := fun _ => 1000;
     entropy := fun _ => 0;
     http_post := fun _ _ => Sample.ok_reply;
     http_get := fun _ _ => Sample.no_info;
     tg_fault := fun _ => None;
     sql_fault := fun _ => Some "database is locked" |}.

(** The columns that record a thread's bumps and its schedule: all but
    [is_active], [consecutive_failures] and [updated_at]. *)
Definition same_bump_data (r r' : Row) : Prop :=
  title r' = title r /\ last_bump_time r' = last_bump_time r /\
  next_bump_time r' = next_bump_time r /\ bump_count r' = bump_count r /\
  last_error r' = last_error r /\ created_at r' = created_at r.

(** What [initialize_threads] keeps of the table [s0] it read: no history
    record is added, every row is still there with its bump data, and
    the row of a configured thread that was active is left as it was. *)
Definition snapshot_kept (s0 : Store) (config_ids : list Z) (s : Store)
  : Prop :=
  bump_history s = bump_history s0 /\
  forall k r0, threads s0 !! k = Some r0 ->
    exists r, threads s !! k = Some r /\ same_bump_data r0 r /\
              (k ∈ config_ids -> truthy (is_active r0) = true -> r = r0).

(** The threads the summary reports as pending at time [now]. *)
Definition pending_at (now : Z) (t : Z * Row) : bool :=
  truthy (is_active (columns t))
  && (now <? default 0 (next_bump_time (columns t))).

(** * Properties *)

(** ** The model at work *)

Example getitem_from_the_end : getitem [60; 300; 900] (-1) = Some 900.
Proof. reflexivity. Qed.

Example getitem_out_of_range : getitem [60; 300; 900] 3 = None.
Proof. reflexivity. Qed.

Example classify_samples :
  classify Sample.ok_reply = Success /\
  classify Sample.cooldown_reply = Cooldown /\
  classify (Sample.reply 429) = RateLimited /\
  classify (Sample.reply 401) = Fatal /\
  classify (Sample.reply 500) = Failure /\
  classify (Sample.reply 200) = Failure /\
  classify (PostRaises (ClientError "timeout")) = Failure.
Proof. repeat split; reflexivity. Qed.

(** Oldest due first; inactive and future threads are left out. *)
Example ready_threads_in_order :
  let r (n : Z) (a : Z) :=
    assign (assign (Sample.row 0) (next_bump_time_is (Some n)))
           (is_active_is a) in
  let s := {| threads := {[ 1 := r 990 1; 2 := r 900 1; 3 := r 950 1;
                             4 := r 800 0; 5 := r 1001 1 ]};
              bump_history := []; history_seq := 0 |} in
  thread_id <$> select_ready_threads 1000 s = [2; 3; 1].
Proof. reflexivity. Qed.

(** Reconciliation with the configured set {7, 8}: thread 8 is created
    from the remote data, thread 9 is deactivated, thread 7 is kept. *)
Example reconciliation_sample :
  let env := Sample.env Sample.ok_reply (Sample.info 2000) in
  let s := {| threads := {[ 7 := Sample.row 2; 9 := Sample.row 0 ]};
              bump_history := []; history_seq := 0 |} in
  let w' := world_of (initialize_threads Sample.cfg env (initial_world s)) in
  threads (db w') !! 7 = Some (Sample.row 2) /\
  (next_bump_time <$> threads (db w') !! 8) = Some (Some 2000) /\
  (title <$> threads (db w') !! 8) = Some (Some "Selling") /\
  (is_active <$> threads (db w') !! 9) = Some 0 /\
  requests w' = [GET_thread 8].
Proof. repeat split; reflexivity. Qed.

(** A cycle over two due threads when the first bump is answered 401:
    one request, the flag down, the second thread untouched. *)
Example fatal_cycle_sample :
  let env := Sample.env (Sample.reply 401) Sample.no_info in
  let s := {| threads := {[ 7 := Sample.row 0; 8 := Sample.row 0 ]};
              bump_history := []; history_seq := 0 |} in
  let w' := world_of (run_cycle Sample.cfg env (initial_world s)) in
  requests w' = [POST_bump 7] /\ running w' = false /\
  threads (db w') !! 8 = Some (Sample.row 0).
Proof. repeat split; reflexivity. Qed.

(** ** Running a method: the monad's equations *)

Lemma bind_Return {A B} (m : M A) (k : A -> M B) w a w' :
  m w = (Return a, w') -> bind m k w = k a w'.
Proof. unfold bind. intros ->. reflexivity. Qed.

Lemma bind_Raise {A B} (m : M A) (k : A -> M B) w e w' :
  m w = (Raise e, w') -> bind m k w = (Raise e, w').
Proof. unfold bind. intros ->. reflexivity. Qed.

(** ** Running each [Database] method on a working storage engine *)

Section DatabaseRuns.

Variable env : Env.
Hypothesis Hsql : storage_ok env.

Lemma get_thread_run tid w :
  get_thread env tid w =
  (Return (select_thread tid (db w)), set_stmts (S (stmts w)) w).
Proof.
  unfold get_thread, _get_connection, fetch. rewrite Hsql. reflexivity.
Qed.

Lemma get_all_threads_run w :
  get_all_threads env w =
  (Return (select_all_threads (db w)), set_stmts (S (stmts w)) w).
Proof.
  unfold get_all_threads, _get_connection, fetch. rewrite Hsql. reflexivity.
Qed.

Lemma get_threads_ready_for_bump_run w :
  get_threads_ready_for_bump env w =
  (Return (select_ready_threads (clock env (ticks w)) (db w)),
   set_stmts (S (stmts w)) (set_ticks (S (ticks w)) w)).
Proof.
  unfold get_threads_ready_for_bump, _get_connection, fetch, time_time, bind.
  cbn. rewrite Hsql. reflexivity.
Qed.

Lemma upsert_thread_run tid kwargs w :
  upsert_thread env tid kwargs w =
  (Return tt,
   set_db (upserted (clock env (ticks w)) tid kwargs (db w))
          (set_stmts (S (S (stmts w))) (set_ticks (S (ticks w)) w))).
Proof.
  unfold upsert_thread, time_time.
  erewrite bind_Return by reflexivity.
  erewrite bind_Return by apply get_thread_run.
  unfold _get_connection, execute, upserted, select_thread,
    sql_update_threads, sql_insert_threads; cbn.
  destruct (threads (db w) !! tid) as [r|] eqn:E; cbn;
    rewrite Hsql; cbn; rewrite ?E; reflexivity.
Qed.

Lemma record_bump_success_run tid msg nbt w :
  let now := clock env (ticks w) in
  record_bump_success env tid msg nbt w =
  (Return tt,
   set_db (history_appended tid now 1 msg
             (with_threads
                (alter (set_bump_success now nbt) tid (threads (db w)))
                (db w)))
          (set_stmts (S (S (stmts w))) (set_ticks (S (ticks w)) w))).
Proof.
  unfold record_bump_success, time_time, _get_connection, execute, bind.
  cbn. rewrite !Hsql. reflexivity.
Qed.

Lemma record_bump_failure_run tid msg nrt w :
  let now := clock env (ticks w) in
  record_bump_failure env tid msg nrt w =
  (Return tt,
   set_db (history_appended tid now 0 msg
             (with_threads
                (alter (set_bump_failure now nrt msg) tid (threads (db w)))
                (db w)))
          (set_stmts (S (S (stmts w))) (set_ticks (S (ticks w)) w))).
Proof.
  unfold record_bump_failure, time_time, _get_connection, execute, bind.
  cbn. rewrite !Hsql. reflexivity.
Qed.

Lemma activate_thread_run tid w :
  activate_thread env tid w =
  (Return tt,
   set_db (with_threads
             (alter (set_active (clock env (ticks w))) tid (threads (db w)))
             (db w))
          (set_stmts (S (stmts w)) (set_ticks (S (ticks w)) w))).
Proof.
  unfold activate_thread, time_time, _get_connection, execute, bind.
  cbn. rewrite !Hsql. reflexivity.
Qed.

Lemma deactivate_thread_run tid w :
  deactivate_thread env tid w =
  (Return tt,
   set_db (with_threads
             (alter (set_inactive (clock env (ticks w))) tid
                    (threads (db w)))
             (db w))
          (set_stmts (S (stmts w)) (set_ticks (S (ticks w)) w))).
Proof.
  unfold deactivate_thread, time_time, _get_connection, execute, bind.
  cbn. rewrite !Hsql. reflexivity.
Qed.

End DatabaseRuns.

(** ** Keyword arguments touch the columns they name and no other *)

Lemma field_assign_other a r c :
  column_of a <> c -> field c (assign r a) = field c r.
Proof. destruct a, c; intros H; try reflexivity; contradiction H; reflexivity. Qed.

Lemma field_assign_same a r : field (column_of a) (assign r a) = value_of a.
Proof. destruct a; reflexivity. Qed.

Lemma field_assign_all_other kwargs r c :
  c ∉ column_of <$> kwargs -> field c (assign_all kwargs r) = field c r.
Proof.
  unfold assign_all. revert r.
  induction kwargs as [|a kwargs IH]; intros r Hc; simpl; [reflexivity|].
  rewrite fmap_cons, not_elem_of_cons in Hc. destruct Hc as [Hne Hc].
  rewrite IH by assumption. apply field_assign_other. congruence.
Qed.

Lemma field_assign_all_named kwargs r a :
  NoDup (column_of <$> kwargs) -> a ∈ kwargs ->
  field (column_of a) (assign_all kwargs r) = value_of a.
Proof.
  unfold assign_all. revert r.
  induction kwargs as [|b kwargs IH]; intros r Hnd Hin; simpl.
  - inversion Hin.
  - rewrite fmap_cons, NoDup_cons in Hnd. destruct Hnd as [Hfresh Hnd].
    apply elem_of_cons in Hin. destruct Hin as [->|Hin].
    + fold (assign_all kwargs (assign r b)).
      rewrite field_assign_all_other by assumption.
      apply field_assign_same.
    + apply IH; assumption.
Qed.

(** ** Claims about the store *)

(** C10.  When [threads] has no row for [thread_id], both
    [record_bump_success] and [record_bump_failure] return normally, leave
    the table [threads] as it was (the UPDATE matches nothing) and still
    append a record for that [thread_id] to [bump_history]: the history
    then holds a record whose thread has no schedule row. *)
Theorem record_outcome_without_row env tid msg nxt w :
  storage_ok env ->
  threads (db w) !! tid = None ->
  let now := clock env (ticks w) in
  let entry ok :=
    {| id := history_seq (db w) + 1; h_thread_id := tid; bump_time := now;
       success := ok; message := msg |} in
  (exists w',
      record_bump_success env tid msg nxt w = (Return tt, w') /\
      threads (db w') = threads (db w) /\
      threads (db w') !! tid = None /\
      bump_history (db w') = bump_history (db w) ++ [entry 1]) /\
  (exists w',
      record_bump_failure env tid msg nxt w = (Return tt, w') /\
      threads (db w') = threads (db w) /\
      threads (db w') !! tid = None /\
      bump_history (db w') = bump_history (db w) ++ [entry 0]).
Proof.
  intros Hsql Hnone now entry. split.
  - eexists. split; [apply record_bump_success_run; assumption|]. cbn.
    rewrite alter_id' by assumption. auto.
  - eexists. split; [apply record_bump_failure_run; assumption|]. cbn.
    rewrite alter_id' by assumption. auto.
Qed.

(** C5.  [record_bump_success] and [record_bump_failure] run their UPDATE
    of [threads] and their INSERT into [bump_history] inside one
    [_get_connection] block.  Whatever the storage engine does, the stored
    state afterwards is either the one with both changes (and the method
    returned) or exactly the state before the call (and the method raised);
    in particular a failure raised after the UPDATE and before the INSERT
    leaves neither applied. *)
Theorem record_outcome_all_or_nothing env tid msg nxt w :
  let now := clock env (ticks w) in
  let both ok f :=
    history_appended tid now ok msg
      (with_threads (alter f tid (threads (db w))) (db w)) in
  let s := record_bump_success env tid msg nxt w in
  let f := record_bump_failure env tid msg nxt w in
  match sql_fault env (stmts w), sql_fault env (S (stmts w)) with
  | None, None =>
      result_of s = Return tt /\
      db (world_of s) = both 1 (set_bump_success now nxt) /\
      result_of f = Return tt /\
      db (world_of f) = both 0 (set_bump_failure now nxt msg)
  | None, Some e      (* raised between the UPDATE and the INSERT *)
  | Some e, _ =>      (* raised by the UPDATE itself *)
      result_of s = Raise (OperationalError e) /\ db (world_of s) = db w /\
      result_of f = Raise (OperationalError e) /\ db (world_of f) = db w
  end.
Proof.
  intros now both s f. subst s f both now.
  unfold record_bump_success, record_bump_failure, time_time,
    _get_connection, execute, bind, result_of, world_of.
  cbn.
  destruct (sql_fault env (stmts w)) as [e|]; cbn;
    [|destruct (sql_fault env (S (stmts w))) as [e|]; cbn];
    repeat split; reflexivity.
Qed.

Lemma record_outcome_without_row_witness :
  let env := Sample.env Sample.ok_reply Sample.no_info in
  let w := Sample.world 0 in
  storage_ok env /\ threads (db w) !! 9 = None /\
  exists w',
    record_bump_failure env 9 "Error 500" (Some 1300) w = (Return tt, w') /\
    threads (db w') !! 9 = None /\
    bump_history (db w') =
      [{| id := 1; h_thread_id := 9; bump_time := 1000; success := 0;
          message := "Error 500" |}].
Proof.
  assert (Hs : storage_ok (Sample.env Sample.ok_reply Sample.no_info))
    by (intro k; reflexivity).
  assert (Hn : threads (db (Sample.world 0)) !! 9 = None) by reflexivity.
  split; [exact Hs|]. split; [exact Hn|].
  destruct (record_outcome_without_row _ 9 "Error 500" (Some 1300) _ Hs Hn)
    as [_ [w' (Hrun & _ & Hrow & Hhist)]].
  exists w'. split; [exact Hrun|]. split; [exact Hrow|exact Hhist].
Defined.

(** C6, as stated, fails: a row created by [upsert_thread] without a
    [next_bump_time] argument gets the column default 0, not the time of
    the call (1000 here). *)
Lemma upsert_default_next_bump_time_is_not_now :
  let env := Sample.env Sample.ok_reply Sample.no_info in
  let w := Sample.world 0 in
  let w' := world_of (upsert_thread env 9 [title_is (Some "New")] w) in
  threads (db w) !! 9 = None /\
  ~ (exists r, threads (db w') !! 9 = Some r /\
               next_bump_time r = Some (clock env (ticks w))).
Proof.
  split; [reflexivity|].
  intros [r [Hr Hn]]. vm_compute in Hr. inversion Hr; subst r.
  discriminate Hn.
Qed.

(** C6, amended.  On a working storage engine [upsert_thread] returns and
    touches only the row of [thread_id] in [threads].
    - No row before: the new row takes, for every column not named by a
      keyword argument, the default of the table definition, so
      [next_bump_time = 0] (not the time of the call),
      [consecutive_failures = 0] and [is_active = 1]; [created_at] and
      [updated_at] are both the time of the call.
    - A row before: every column not named by a keyword argument, other
      than [updated_at], keeps its value; [updated_at] is the time of the
      call.
    - In both cases a named column holds the value given for it. *)
Theorem upsert_thread_fields env tid kwargs w :
  storage_ok env ->
  let now := clock env (ticks w) in
  exists w' r',
    upsert_thread env tid kwargs w = (Return tt, w') /\
    threads (db w') !! tid = Some r' /\
    updated_at r' = Some now /\
    (forall other, other <> tid ->
                   threads (db w') !! other = threads (db w) !! other) /\
    bump_history (db w') = bump_history (db w) /\
    match threads (db w) !! tid with
    | None =>
        created_at r' = Some now /\
        (forall c, c ∉ column_of <$> kwargs ->
                   c <> col_created_at -> c <> col_updated_at ->
                   field c r' = field c schema_defaults) /\
        (col_next_bump_time ∉ column_of <$> kwargs ->
         next_bump_time r' = Some 0) /\
        (col_consecutive_failures ∉ column_of <$> kwargs ->
         consecutive_failures r' = 0) /\
        (col_is_active ∉ column_of <$> kwargs -> is_active r' = 1)
    | Some r =>
        forall c, c ∉ column_of <$> kwargs -> c <> col_updated_at ->
                  field c r' = field c r
    end /\
    (NoDup (column_of <$> kwargs) ->
     forall a, a ∈ kwargs ->
               column_of a <> col_updated_at ->
               (threads (db w) !! tid = None ->
                column_of a <> col_created_at) ->
               field (column_of a) r' = value_of a).
Proof.
  intros Hsql now.
  rewrite upsert_thread_run by assumption. fold now.
  unfold upserted.
  destruct (threads (db w) !! tid) as [r|] eqn:E.
  - exists (set_db
              (with_threads
                 (alter (updated_row now kwargs) tid (threads (db w))) (db w))
              (set_stmts (S (S (stmts w))) (set_ticks (S (ticks w)) w))),
           (updated_row now kwargs r).
    cbn [db set_db threads with_threads bump_history].
    split; [reflexivity|].
    split; [rewrite lookup_alter_eq, E; reflexivity|].
    split; [reflexivity|].
    split; [intros other Hne; apply lookup_alter_ne; congruence|].
    split; [reflexivity|].
    split.
    + intros c Hc Hu. unfold updated_row.
      rewrite field_assign_other by (simpl; congruence).
      apply field_assign_all_other; assumption.
    + intros Hnd a Ha Hu _. unfold updated_row.
      rewrite field_assign_other by (simpl; congruence).
      apply field_assign_all_named; assumption.
  - assert (Hdef : forall c, c ∉ column_of <$> kwargs ->
                     c <> col_created_at -> c <> col_updated_at ->
                     field c (inserted_row now kwargs)
                     = field c schema_defaults).
    { intros c Hc Hcr Hu. unfold inserted_row.
      rewrite !field_assign_other by (simpl; congruence).
      apply field_assign_all_other; assumption. }
    exists (set_db
              (with_threads
                 (<[tid := inserted_row now kwargs]> (threads (db w))) (db w))
              (set_stmts (S (S (stmts w))) (set_ticks (S (ticks w)) w))),
           (inserted_row now kwargs).
    cbn [db set_db threads with_threads bump_history].
    split; [reflexivity|].
    split; [apply lookup_insert_eq|].
    split; [reflexivity|].
    split; [intros other Hne; apply lookup_insert_ne; congruence|].
    split; [reflexivity|].
    split.
    + split; [reflexivity|]. split; [exact Hdef|].
      split; [|split]; intros Hc.
      * pose proof (Hdef col_next_bump_time Hc
                      ltac:(congruence) ltac:(congruence)) as H.
        unfold field in H.
        destruct (next_bump_time (inserted_row now kwargs)); simpl in H;
          [injection H as H; congruence | discriminate H].
      * pose proof (Hdef col_consecutive_failures Hc
                      ltac:(congruence) ltac:(congruence)) as H.
        injection H as H. exact H.
      * pose proof (Hdef col_is_active Hc
                      ltac:(congruence) ltac:(congruence)) as H.
        injection H as H. exact H.
    + intros Hnd a Ha Hu Hcr. specialize (Hcr eq_refl). unfold inserted_row.
      rewrite !field_assign_other by (simpl; congruence).
      apply field_assign_all_named; assumption.
Qed.

(** ** What [_bump_thread] returns, by class of reply *)

Ltac run_bump :=
  unfold _bump_thread, _get_thread_info, try_except, session_post,
    session_get, bind, ret, raise, when, logger, time_time, randint,
    send_message.

Ltac eval_world :=
  cbn -[pretty Z.modulo Z.add Z.sub Z.eqb Z.leb Z.min reported_next_time].

Ltac log_ext :=
  first [ exists []; symmetry; apply app_nil_r
        | eexists; rewrite <- ?app_assoc; reflexivity ].

Section BumpThread.

Variable cfg : Config.
Variable env : Env.

Lemma bump_thread_success tid w :
  classify (http_post env (length (requests w)) tid) = Success ->
  exists msg jitter w1,
    _bump_thread cfg env tid w =
    (Return {| res_success := true; res_message := msg;
               res_next_time :=
                 Some (clock env (ticks w) + BUMP_INTERVAL cfg + jitter);
               res_is_cooldown := false |}, w1) /\
    30 <= jitter <= 300 /\
    db w1 = db w /\ stmts w1 = stmts w /\ ticks w1 = S (ticks w) /\
    sent w1 = sent w /\ running w1 = running w /\
    requests w1 = requests w ++ [POST_bump tid].
Proof.
  intros Hc.
  destruct (http_post env (length (requests w)) tid) as [e|st data] eqn:Hp;
    [discriminate Hc|].
  unfold classify in Hc.
  destruct ((st =? 200) && bool_decide (d_status data = Some "ok")) eqn:Hok.
  - run_bump. rewrite Hp. eval_world. rewrite Hok. eval_world.
    eexists _, _, _. split; [reflexivity|]. eval_world.
    split; [|repeat split; reflexivity].
    pose proof (Z.mod_pos_bound (entropy env (draws w)) (300 - 30 + 1)
                  ltac:(lia)). lia.
  - destruct ((st =? 403) && bool_decide (is_Some (d_errors data)));
      [destruct (d_errors data) as [[|]|]; discriminate Hc|].
    destruct (st =? 429); [discriminate Hc|].
    destruct (st =? 401); discriminate Hc.
Qed.

Lemma get_thread_info_run tid w :
  exists w1,
    _get_thread_info env tid w =
    (Return (info_of (http_get env (length (requests w)) tid)), w1) /\
    db w1 = db w /\ stmts w1 = stmts w /\ ticks w1 = ticks w /\
    sent w1 = sent w /\ running w1 = running w /\
    requests w1 = requests w ++ [GET_thread tid].
Proof.
  unfold _get_thread_info, try_except, session_get, bind, ret, logger, info_of.
  destruct (http_get env (length (requests w)) tid) as [e|st body];
    eval_world.
  - eexists. split; [reflexivity|]. repeat split; reflexivity.
  - destruct (st =? 200); [|destruct (st =? 429)];
      (eexists; split; [reflexivity|]; repeat split; reflexivity).
Qed.

Lemma bump_thread_cooldown tid w :
  classify (http_post env (length (requests w)) tid) = Cooldown ->
  let info := info_of (http_get env (S (length (requests w))) tid) in
  exists msg w1,
    _bump_thread cfg env tid w =
    (Return {| res_success := false; res_message := msg;
               res_next_time :=
                 Some (default (clock env (ticks w) + BUMP_INTERVAL cfg)
                               (reported_next_time info));
               res_is_cooldown := true |}, w1) /\
    db w1 = db w /\ stmts w1 = stmts w /\
    ticks w1 = (match reported_next_time info with
                | Some _ => ticks w
                | None => S (ticks w)
                end) /\
    sent w1 = sent w /\ running w1 = running w /\
    requests w1 = requests w ++ [POST_bump tid; GET_thread tid].
Proof.
  intros Hc info.
  destruct (http_post env (length (requests w)) tid) as [e|st data] eqn:Hp;
    [discriminate Hc|].
  unfold classify in Hc.
  destruct ((st =? 200) && bool_decide (d_status data = Some "ok")) eqn:Hok;
    [discriminate Hc|].
  destruct ((st =? 403) && bool_decide (is_Some (d_errors data))) eqn:H403.
  - destruct (d_errors data) as [[|m errs]|] eqn:He; try discriminate Hc.
    + unfold _bump_thread, try_except, session_post, bind.
      rewrite Hp. cbn [fst snd]. rewrite Hok, He, H403.
      change (getitem (default [] (Some (m :: errs))) 0) with (Some m).
      cbv beta iota.
      destruct (get_thread_info_run tid
                  (set_requests (requests w ++ [POST_bump tid]) w))
        as (w1 & Hrun & Hdb & Hst & Hti & Hse & Hru & Hre).
      rewrite Hrun. cbn [requests set_requests] in *.
      replace (length (requests w ++ [POST_bump tid]))
        with (S (length (requests w)))
        by (rewrite length_app; simpl; lia).
      fold info. rewrite <- app_assoc in Hre. simpl app in Hre.
      cbn in Hdb, Hst, Hti, Hse, Hru.
      destruct (reported_next_time info) as [t|]; unfold time_time, ret, bind.
      * exists m, w1. repeat split; assumption.
      * exists m, (set_ticks (S (ticks w1)) w1). rewrite Hti. eval_world.
        repeat split; assumption.
    + apply andb_true_iff in H403. destruct H403 as [_ H].
      apply bool_decide_eq_true in H. destruct H as [? H]. discriminate H.
  - destruct (st =? 429); [discriminate Hc|].
    destruct (st =? 401); discriminate Hc.
Qed.

Lemma bump_thread_counted_as_failure tid w :
  let class := classify (http_post env (length (requests w)) tid) in
  counted_as_failure class = true ->
  exists msg nxt w1,
    _bump_thread cfg env tid w =
    (Return {| res_success := false; res_message := msg;
               res_next_time := nxt; res_is_cooldown := false |}, w1) /\
    db w1 = db w /\ stmts w1 = stmts w /\
    ticks w1 = (match class with RateLimited => S (ticks w) | _ => ticks w end) /\
    nxt = (match class with
           | RateLimited => Some (clock env (ticks w) + 120)
           | _ => None
           end) /\
    sent w1 = sent w ++ (match class with
                         | Fatal => if bot cfg then [TgInvalidToken] else []
                         | _ => []
                         end) /\
    running w1 = (match class with Fatal => false | _ => running w end) /\
    requests w1 = requests w ++ [POST_bump tid] /\
    (class = Fatal -> (CRITICAL, "INVALID TOKEN") ∈ log w1) /\
    (class = Fatal ->
     bot cfg = false \/ tg_fault env (length (sent w)) = None -> msg = "") /\
    (class = RateLimited -> msg = "Rate Limit") /\
    (exists l, log w1 = log w ++ l).
Proof.
  intros class Hc. subst class.
  destruct (http_post env (length (requests w)) tid) as [e|st data] eqn:Hp.
  - run_bump. rewrite Hp. eval_world.
    eexists _, _, _. split; [reflexivity|]. eval_world.
    rewrite app_nil_r. repeat split; try reflexivity; try (intros _; reflexivity);
      try discriminate; log_ext.
  - unfold classify in *.
    destruct ((st =? 200) && bool_decide (d_status data = Some "ok")) eqn:Hok;
      [discriminate Hc|].
    destruct ((st =? 403) && bool_decide (is_Some (d_errors data))) eqn:H403.
    { destruct (d_errors data) as [[|m errs]|] eqn:He; try discriminate Hc.
      run_bump. rewrite Hp. eval_world. rewrite Hok, He, H403. eval_world.
      eexists _, _, _. split; [reflexivity|]. eval_world.
      rewrite app_nil_r. repeat split; try reflexivity; try (intros _; reflexivity);
      try discriminate; log_ext. }
    destruct (st =? 429) eqn:H429.
    { run_bump. rewrite Hp. eval_world. rewrite Hok, H403, H429. eval_world.
      eexists _, _, _. split; [reflexivity|]. eval_world.
      rewrite app_nil_r. repeat split; try reflexivity; try (intros _; reflexivity);
      try discriminate; log_ext. }
    destruct (st =? 401) eqn:H401.
    { run_bump. rewrite Hp. eval_world. rewrite Hok, H403, H429, H401.
      eval_world.
      assert (Hlog : forall l : list (Level * string),
                 (CRITICAL, "INVALID TOKEN") ∈ l ++ [(CRITICAL, "INVALID TOKEN")]).
      { intros l. apply elem_of_app. right. apply list_elem_of_singleton.
        reflexivity. }
      destruct (bot cfg) eqn:Hbot; eval_world.
      - destruct (tg_fault env (length (sent w))) as [err|] eqn:Htg;
          eval_world;
          (eexists _, _, _; split; [reflexivity|]; eval_world;
           repeat split; try reflexivity; try (intros _; apply Hlog);
           try (intros _ [H|H]; (discriminate H || reflexivity));
           try discriminate; log_ext).
      - eexists _, _, _. split; [reflexivity|]. eval_world.
        rewrite app_nil_r. repeat split; try reflexivity;
          try (intros _; apply Hlog); try discriminate; log_ext. }
    run_bump. rewrite Hp. eval_world. rewrite Hok, H403, H429, H401.
    eval_world.
    eexists _, _, _. split; [reflexivity|]. eval_world.
    rewrite app_nil_r. repeat split; try reflexivity; try (intros _; reflexivity);
      try discriminate; log_ext.
Qed.

End BumpThread.

(** ** The three branches of [process_thread] *)

Section ProcessThread.

Variable cfg : Config.
Variable env : Env.
Hypothesis Hsql : storage_ok env.

Lemma process_thread_success_branch t w msg nxt w1 :
  _bump_thread cfg env (thread_id t) (entered t w) =
    (Return {| res_success := true; res_message := msg;
               res_next_time := nxt; res_is_cooldown := false |}, w1) ->
  let now := clock env (ticks w1) in
  exists res w',
    process_thread cfg env t w = (Return res, w') /\
    res_success (result res) = true /\
    db w' = history_appended (thread_id t) now 1 msg
              (with_threads
                 (alter (set_bump_success now nxt) (thread_id t)
                        (threads (db w1)))
                 (db w1)) /\
    sent w' = sent w1 /\ running w' = running w1 /\
    requests w' = requests w1.
Proof.
  intros Hb now. unfold process_thread.
  erewrite bind_Return by (unfold logger; reflexivity).
  fold (entered t w).
  erewrite bind_Return by exact Hb.
  cbn [res_success res_message res_next_time].
  unfold bind, logger, ret. rewrite record_bump_success_run by assumption.
  eval_world. eexists _, _. split; [reflexivity|]. eval_world.
  repeat split; reflexivity.
Qed.

Lemma process_thread_cooldown_branch t w msg nxt w1 :
  _bump_thread cfg env (thread_id t) (entered t w) =
    (Return {| res_success := false; res_message := msg;
               res_next_time := nxt; res_is_cooldown := true |}, w1) ->
  exists res w',
    process_thread cfg env t w = (Return res, w') /\
    db w' = upserted (clock env (ticks w1)) (thread_id t)
              [next_bump_time_is nxt; last_error_is (Some msg);
               consecutive_failures_is 0]
              (db w1) /\
    sent w' = sent w1 /\ running w' = running w1 /\
    requests w' = requests w1.
Proof.
  intros Hb. unfold process_thread.
  erewrite bind_Return by (unfold logger; reflexivity).
  fold (entered t w).
  erewrite bind_Return by exact Hb.
  cbn [res_success res_message res_next_time res_is_cooldown].
  unfold bind, logger, ret. rewrite upsert_thread_run by assumption.
  eval_world. eexists _, _. split; [reflexivity|]. eval_world.
  repeat split; reflexivity.
Qed.

(** The last [else]: the failure counter read from the snapshot [t] is
    incremented, then compared with the maximum. *)
Lemma process_thread_failure_branch t w msg nxt w1 :
  _bump_thread cfg env (thread_id t) (entered t w) =
    (Return {| res_success := false; res_message := msg;
               res_next_time := nxt; res_is_cooldown := false |}, w1) ->
  let tid := thread_id t in
  let failures := consecutive_failures (columns t) + 1 in
  let now := clock env (ticks w1) in
  let stamp := clock env (S (ticks w1)) in
  exists res w',
    process_thread cfg env t w = (res, w') /\
    running w' = running w1 /\ requests w' = requests w1 /\
    (exists l, log w' = log w1 ++ l) /\
    if MAX_CONSECUTIVE_FAILURES cfg <=? failures then
      db w' = upserted stamp tid
                [next_bump_time_is (Some (now + BUMP_INTERVAL cfg));
                 last_error_is (Some ("Too many errors: " +:+ msg));
                 consecutive_failures_is 0]
                (db w1) /\
      sent w' = sent w1 ++ (if bot cfg then [TgSkipped tid] else []) /\
      (ERROR, "Skipping " +:+ pretty tid +:+ " (10 fails)") ∈ log w' /\
      (bot cfg = false \/ tg_fault env (length (sent w1)) = None ->
       exists p, res = Return p)
    else
      sent w' = sent w1 /\
      match getitem (RETRY_DELAYS cfg)
                    (Z.min failures
                           (Z.of_nat (length (RETRY_DELAYS cfg)) - 1)) with
      | Some delay =>
          (exists p, res = Return p) /\
          db w' = history_appended tid stamp 0 msg
                    (with_threads
                       (alter (set_bump_failure stamp (Some (now + delay)) msg)
                              tid (threads (db w1)))
                       (db w1))
      | None =>
          res = Raise (IndexError "list index out of range") /\
          db w' = db w1
      end.
Proof.
  intros Hb tid failures now stamp. unfold process_thread.
  erewrite bind_Return by (unfold logger; reflexivity).
  fold (entered t w).
  erewrite bind_Return by exact Hb.
  cbn [res_success res_message res_next_time res_is_cooldown].
  fold tid. fold failures.
  destruct (MAX_CONSECUTIVE_FAILURES cfg <=? failures).
  - unfold bind, logger, ret, time_time, when, send_message.
    rewrite upsert_thread_run by assumption.
    eval_world. fold tid. fold now. fold stamp.
    assert (Hlog : forall l l' : list (Level * string),
               (ERROR, "Skipping " +:+ pretty tid +:+ " (10 fails)")
               ∈ (l ++ [(ERROR, "Skipping " +:+ pretty tid +:+ " (10 fails)")])
                 ++ l').
    { intros l l'. apply elem_of_app. left. apply elem_of_app. right.
      apply list_elem_of_singleton. reflexivity. }
    destruct (bot cfg) eqn:Hbot; eval_world.
    + destruct (tg_fault env (length (sent w1))) as [e|] eqn:Htg; eval_world;
        (eexists _, _; split; [reflexivity|]; eval_world;
         repeat split; try reflexivity;
         [ log_ext
         | rewrite <- (app_nil_r (_ ++ [_])); apply Hlog
         | intros [H|H]; try discriminate H; eexists; reflexivity ]).
    + eexists _, _. split; [reflexivity|]. eval_world.
      rewrite app_nil_r. repeat split; try reflexivity.
      * log_ext.
      * rewrite <- (app_nil_r (_ ++ [_])); apply Hlog.
      * intros _. eexists; reflexivity.
  - destruct (getitem (RETRY_DELAYS cfg)
                (Z.min failures (Z.of_nat (length (RETRY_DELAYS cfg)) - 1)))
      as [delay|].
    + unfold bind, logger, ret, time_time.
      rewrite record_bump_failure_run by assumption.
      eval_world. fold tid. fold now. fold stamp.
      eexists _, _. split; [reflexivity|]. eval_world.
      repeat split; try reflexivity; [log_ext|eexists; reflexivity].
    + unfold bind, raise. eval_world.
      eexists _, _. split; [reflexivity|].
      repeat split; try reflexivity; log_ext.
Qed.

End ProcessThread.

(** Python's [RETRY_DELAYS[min(n, len(RETRY_DELAYS)-1)]] is defined for a
    non-empty table and [n >= 0]. *)
Lemma getitem_min_Some (l : list Z) (n : Z) :
  l <> [] -> 0 <= n ->
  exists d, getitem l (Z.min n (Z.of_nat (length l) - 1)) = Some d /\ d ∈ l.
Proof.
  intros Hne Hn. unfold getitem.
  assert (Hlen : (0 < length l)%nat) by (destruct l; [contradiction|simpl; lia]).
  set (i := Z.min n (Z.of_nat (length l) - 1)).
  assert (Hi : 0 <= i < Z.of_nat (length l)) by (subst i; lia).
  replace (0 <=? i) with true by (symmetry; apply Z.leb_le; lia).
  replace (i <? Z.of_nat (length l)) with true
    by (symmetry; apply Z.ltb_lt; lia).
  simpl andb. cbv iota.
  destruct (nth_error l (Z.to_nat i)) as [d|] eqn:E.
  - exists d. split; [reflexivity|].
    apply list_elem_of_In. eapply nth_error_In. exact E.
  - apply nth_error_None in E. lia.
Qed.

Section CountedAsFailure.

Variable cfg : Config.
Variable env : Env.
Hypothesis Hsql : storage_ok env.

(** Every reply that is neither a success nor a cooldown is handled by the
    last [else] of [process_thread]: rate-limited, fatal and generic
    replies alike. *)
Lemma process_thread_counted_as_failure t w :
  let tid := thread_id t in
  let class := classify (http_post env (length (requests w)) tid) in
  let k := match class with RateLimited => S (ticks w) | _ => ticks w end in
  let now := clock env k in
  let stamp := clock env (S k) in
  let f := consecutive_failures (columns t) in
  threads (db w) !! tid = Some (columns t) ->
  counted_as_failure class = true ->
  exists res w' r' msg,
    process_thread cfg env t w = (res, w') /\
    threads (db w') !! tid = Some r' /\
    running w' = (match class with Fatal => false | _ => running w end) /\
    requests w' = requests w ++ [POST_bump tid] /\
    (class = Fatal -> (CRITICAL, "INVALID TOKEN") ∈ log w') /\
    (class = Fatal ->
     bot cfg = false \/ tg_fault env (length (sent w)) = None -> msg = "") /\
    (class = RateLimited -> msg = "Rate Limit") /\
    if MAX_CONSECUTIVE_FAILURES cfg <=? f + 1 then
      consecutive_failures r' = 0 /\
      next_bump_time r' = Some (now + BUMP_INTERVAL cfg) /\
      last_error r' = Some ("Too many errors: " +:+ msg) /\
      bump_history (db w') = bump_history (db w) /\
      sent w' = sent w
                ++ (match class with
                    | Fatal => if bot cfg then [TgInvalidToken] else []
                    | _ => []
                    end)
                ++ (if bot cfg then [TgSkipped tid] else []) /\
      (ERROR, "Skipping " +:+ pretty tid +:+ " (10 fails)") ∈ log w' /\
      (telegram_ok env -> exists p, res = Return p)
    else
      match getitem (RETRY_DELAYS cfg)
                    (Z.min (f + 1)
                           (Z.of_nat (length (RETRY_DELAYS cfg)) - 1)) with
      | Some delay =>
          (exists p, res = Return p) /\
          consecutive_failures r' = f + 1 /\
          next_bump_time r' = Some (now + delay) /\
          last_error r' = Some msg /\
          bump_history (db w') =
            bump_history (db w) ++
            [{| id := history_seq (db w) + 1; h_thread_id := tid;
                bump_time := stamp; success := 0; message := msg |}]
      | None =>
          res = Raise (IndexError "list index out of range") /\
          db w' = db w /\ r' = columns t
      end.
Proof.
  intros tid class k now stamp f Hrow Hclass.
  destruct (bump_thread_counted_as_failure cfg env tid (entered t w) Hclass)
    as (msg & nxt & w1 & Hb & Hdb & Hst & Hti & Hnxt & Hse & Hru & Hre
        & Hlog & Hmsg & Hrate & Hext).
  cbn [requests entered set_log] in Hb, Hti, Hnxt, Hse, Hru, Hre, Hlog, Hmsg,
    Hrate.
  fold tid class in Hb, Hti, Hnxt, Hse, Hru, Hre, Hlog, Hmsg, Hrate.
  cbn in Hdb, Hst, Hti, Hse, Hru, Hre, Hmsg.
  destruct (process_thread_failure_branch cfg env Hsql t w msg nxt w1 Hb)
    as (res & w' & Hrun & Hru' & Hre' & Hext' & Hbranch).
  fold tid f in Hbranch.
  assert (Hk : ticks w1 = k) by (subst k; destruct class; exact Hti).
  rewrite Hk in Hbranch. fold now stamp in Hbranch. rewrite Hdb in Hbranch.
  assert (Hcrit : class = Fatal -> (CRITICAL, "INVALID TOKEN") ∈ log w').
  { intros Hc. destruct Hext' as [l ->]. apply elem_of_app. left. auto. }
  assert (Hcommon : forall r' (P : Prop),
             threads (db w') !! tid = Some r' -> P ->
             threads (db w') !! tid = Some r' /\
             running w' = (match class with Fatal => false | _ => running w end) /\
             requests w' = requests w ++ [POST_bump tid] /\
             (class = Fatal -> (CRITICAL, "INVALID TOKEN") ∈ log w') /\
             (class = Fatal ->
              bot cfg = false \/ tg_fault env (length (sent w)) = None ->
              msg = "") /\
             (class = RateLimited -> msg = "Rate Limit") /\ P).
  { intros r' P Hr' HP. split; [exact Hr'|].
    split; [rewrite Hru'; exact Hru|].
    split; [rewrite Hre'; exact Hre|]. auto. }
  destruct (MAX_CONSECUTIVE_FAILURES cfg <=? f + 1).
  - destruct Hbranch as (Hdb' & Hse' & Hlog' & Hret).
    unfold upserted in Hdb'. rewrite Hrow in Hdb'.
    exists res, w',
      (updated_row stamp
         [next_bump_time_is (Some (now + BUMP_INTERVAL cfg));
          last_error_is (Some ("Too many errors: " +:+ msg));
          consecutive_failures_is 0] (columns t)), msg.
    split; [exact Hrun|]. apply Hcommon.
    + rewrite Hdb'; cbn [threads with_threads].
      rewrite lookup_alter_eq, Hrow; reflexivity.
    + split; [reflexivity|]. split; [reflexivity|]. split; [reflexivity|].
      split; [rewrite Hdb'; reflexivity|].
      split; [rewrite Hse', Hse, <- app_assoc; reflexivity|].
      split; [exact Hlog'|].
      intros Htg. apply Hret. right. apply Htg.
  - destruct Hbranch as (Hse' & Hbranch).
    destruct (getitem (RETRY_DELAYS cfg)
                (Z.min (f + 1) (Z.of_nat (length (RETRY_DELAYS cfg)) - 1)))
      as [delay|].
    + destruct Hbranch as (Hret & Hdb').
      exists res, w',
        (set_bump_failure stamp (Some (now + delay)) msg (columns t)), msg.
      split; [exact Hrun|]. apply Hcommon.
      * rewrite Hdb'; cbn [threads with_threads history_appended].
        rewrite lookup_alter_eq, Hrow; reflexivity.
      * split; [exact Hret|]. rewrite Hdb'. repeat split; reflexivity.
    + destruct Hbranch as (Hret & Hdb').
      exists res, w', (columns t), msg.
      split; [exact Hrun|]. apply Hcommon.
      * rewrite Hdb'. exact Hrow.
      * auto.
Qed.

End CountedAsFailure.

(** ** Success and cooldown, from the reply to the stored row *)

Lemma process_thread_on_success cfg env t w r0 :
  storage_ok env ->
  threads (db w) !! thread_id t = Some r0 ->
  classify (http_post env (length (requests w)) (thread_id t)) = Success ->
  let now := clock env (ticks w) in
  exists res w' r' nb,
    process_thread cfg env t w = (Return res, w') /\
    threads (db w') !! thread_id t = Some r' /\
    bump_count r' = bump_count r0 + 1 /\
    consecutive_failures r' = 0 /\
    last_error r' = None /\
    next_bump_time r' = Some nb /\
    now + BUMP_INTERVAL cfg + 30 <= nb <= now + BUMP_INTERVAL cfg + 300.
Proof.
  intros Hsql Hrow Hclass now.
  destruct (bump_thread_success cfg env (thread_id t) (entered t w) Hclass)
    as (msg & jitter & w1 & Hb & Hj & Hdb & _ & Hti & _).
  cbn [ticks entered set_log] in Hb, Hti.
  destruct (process_thread_success_branch cfg env Hsql t w msg _ w1 Hb)
    as (res & w' & Hrun & _ & Hdb' & _).
  exists res, w',
    (set_bump_success (clock env (ticks w1))
       (Some (clock env (ticks w) + BUMP_INTERVAL cfg + jitter)) r0),
    (clock env (ticks w) + BUMP_INTERVAL cfg + jitter).
  split; [exact Hrun|].
  split.
  { rewrite Hdb', Hdb. cbn [threads with_threads history_appended].
    cbn [db entered set_log] in *.
    rewrite lookup_alter_eq, Hrow. reflexivity. }
  cbn [bump_count consecutive_failures last_error next_bump_time
       set_bump_success].
  repeat split; try reflexivity; subst now; lia.
Qed.

Lemma process_thread_on_cooldown cfg env t w r0 :
  storage_ok env ->
  threads (db w) !! thread_id t = Some r0 ->
  classify (http_post env (length (requests w)) (thread_id t)) = Cooldown ->
  let now := clock env (ticks w) in
  let reported :=
    reported_next_time
      (info_of (http_get env (S (length (requests w))) (thread_id t))) in
  exists res w' r',
    process_thread cfg env t w = (Return res, w') /\
    threads (db w') !! thread_id t = Some r' /\
    consecutive_failures r' = 0 /\
    next_bump_time r' = Some (default (now + BUMP_INTERVAL cfg) reported).
Proof.
  intros Hsql Hrow Hclass now reported.
  destruct (bump_thread_cooldown cfg env (thread_id t) (entered t w) Hclass)
    as (msg & w1 & Hb & Hdb & _).
  cbn [ticks requests entered set_log] in Hb.
  destruct (process_thread_cooldown_branch cfg env Hsql t w msg _ w1 Hb)
    as (res & w' & Hrun & Hdb' & _).
  cbn [db entered set_log] in Hdb.
  unfold upserted in Hdb'. rewrite Hdb, Hrow in Hdb'.
  eexists res, w', _.
  split; [exact Hrun|].
  split; [rewrite Hdb'; cbn [threads with_threads];
          rewrite lookup_alter_eq, Hrow; reflexivity|].
  split; reflexivity.
Qed.

(** ** Replies counted as failures are rescheduled after [now] *)

Lemma counted_as_failure_schedules_later cfg env t w :
  storage_ok env ->
  threads (db w) !! thread_id t = Some (columns t) ->
  0 < BUMP_INTERVAL cfg ->
  RETRY_DELAYS cfg <> [] ->
  Forall (fun d => 0 < d) (RETRY_DELAYS cfg) ->
  0 <= consecutive_failures (columns t) ->
  let tid := thread_id t in
  let class := classify (http_post env (length (requests w)) tid) in
  let now :=
    clock env (match class with RateLimited => S (ticks w) | _ => ticks w end) in
  counted_as_failure class = true ->
  exists res w' r' nb,
    process_thread cfg env t w = (res, w') /\
    (telegram_ok env -> exists p, res = Return p) /\
    threads (db w') !! tid = Some r' /\
    next_bump_time r' = Some nb /\ now < nb.
Proof.
  intros Hsql Hrow Hbump Hne Hpos Hf tid class now Hclass.
  destruct (process_thread_counted_as_failure cfg env Hsql t w Hrow Hclass)
    as (res & w' & r' & msg & Hrun & Hr' & _ & _ & _ & _ & _ & Hbranch).
  fold tid class now in Hbranch.
  destruct (getitem_min_Some (RETRY_DELAYS cfg)
              (consecutive_failures (columns t) + 1) Hne ltac:(lia))
    as (delay & Hget & Hin).
  rewrite Hget in Hbranch.
  rewrite Forall_forall in Hpos. specialize (Hpos delay Hin).
  destruct (MAX_CONSECUTIVE_FAILURES cfg
            <=? consecutive_failures (columns t) + 1).
  - destruct Hbranch as (_ & Hnb & _ & _ & _ & _ & Hret).
    exists res, w', r', (now + BUMP_INTERVAL cfg).
    repeat split; try assumption. lia.
  - destruct Hbranch as (Hret & _ & Hnb & _).
    exists res, w', r', (now + delay).
    repeat split; try assumption; [intros _; exact Hret|lia].
Qed.

(** ** Claims about the scheduling policy *)

(** C4.  When the bump call of a tracked thread succeeds, [process_thread]
    returns and the stored row has [bump_count] one higher,
    [consecutive_failures = 0], [last_error] NULL, and [next_bump_time]
    within [now + BUMP_INTERVAL + 30 .. now + BUMP_INTERVAL + 300], where
    [now] is the clock reading taken when the reply arrived.  Nothing is
    required of the old [next_bump_time], so the statement covers every
    due thread. *)
Theorem success_outcome cfg env t w r0 :
  storage_ok env ->
  threads (db w) !! thread_id t = Some r0 ->
  classify (http_post env (length (requests w)) (thread_id t)) = Success ->
  let now := clock env (ticks w) in
  exists res w' r' nb,
    process_thread cfg env t w = (Return res, w') /\
    threads (db w') !! thread_id t = Some r' /\
    bump_count r' = bump_count r0 + 1 /\
    consecutive_failures r' = 0 /\
    last_error r' = None /\
    next_bump_time r' = Some nb /\
    now + BUMP_INTERVAL cfg + 30 <= nb <= now + BUMP_INTERVAL cfg + 300.
Proof. exact (process_thread_on_success cfg env t w r0). Qed.

Lemma success_outcome_witness :
  let env := Sample.env Sample.ok_reply Sample.no_info in
  let w := Sample.world 3 in
  storage_ok env /\
  threads (db w) !! 7 = Some (Sample.row 3) /\
  classify (http_post env (length (requests w)) 7) = Success /\
  exists res w' r' nb,
    process_thread Sample.cfg env (7, Sample.row 3) w = (Return res, w') /\
    threads (db w') !! 7 = Some r' /\
    bump_count r' = 1 /\ consecutive_failures r' = 0 /\
    last_error r' = None /\ next_bump_time r' = Some nb /\
    1000 + 14400 + 30 <= nb <= 1000 + 14400 + 300.
Proof.
  assert (Hs : storage_ok (Sample.env Sample.ok_reply Sample.no_info))
    by (intro k; reflexivity).
  split; [exact Hs|]. split; [reflexivity|]. split; [reflexivity|].
  exact (success_outcome Sample.cfg _ (7, Sample.row 3) (Sample.world 3)
           (Sample.row 3) Hs eq_refl eq_refl).
Defined.

(** C1 (the code does otherwise).  A reply with status 429 makes
    [_bump_thread] return [next_time = now + 120], but [process_thread]
    never reads it for a reply that is neither a success nor a cooldown:
    the thread goes through the generic failure branch.  At time 1000,
    with no failure so far, the stored [next_bump_time] is
    [1000 + RETRY_DELAYS[1] = 1300], not 1120, and
    [consecutive_failures] goes from 0 to 1. *)
Theorem rate_limited_is_counted_as_failure :
  let env := Sample.env (Sample.reply 429) Sample.no_info in
  let w := Sample.world 0 in
  classify (http_post env (length (requests w)) 7) = RateLimited /\
  exists res w' r',
    process_thread Sample.cfg env (7, Sample.row 0) w = (Return res, w') /\
    res_next_time (result res) = Some (1000 + 120) /\
    threads (db w') !! 7 = Some r' /\
    next_bump_time r' = Some 1300 /\
    consecutive_failures (Sample.row 0) = 0 /\
    consecutive_failures r' = 1.
Proof.
  split; [reflexivity|].
  eexists _, _, _. split; [vm_compute; reflexivity|].
  split; [reflexivity|]. split; [vm_compute; reflexivity|].
  repeat split; reflexivity.
Qed.

(** C2, as stated, fails: with a stored failure count [f = 0] (below the
    maximum 10) a generic failure at time 1000 is not rescheduled at
    [1000 + RETRY_DELAYS[min(0, 4)] = 1060]. *)
Lemma generic_failure_skips_first_delay :
  let env := Sample.env (Sample.reply 500) Sample.no_info in
  let w := Sample.world 0 in
  let w' := world_of (process_thread Sample.cfg env (7, Sample.row 0) w) in
  classify (http_post env (length (requests w)) 7) = Failure /\
  consecutive_failures (Sample.row 0) = 0 /\
  getitem (RETRY_DELAYS Sample.cfg)
          (Z.min 0 (Z.of_nat (length (RETRY_DELAYS Sample.cfg)) - 1))
    = Some 60 /\
  ~ (exists r', threads (db w') !! 7 = Some r' /\
                next_bump_time r' = Some (clock env (ticks w) + 60)).
Proof.
  split; [reflexivity|]. split; [reflexivity|]. split; [reflexivity|].
  intros [r' [Hr Hn]]. vm_compute in Hr. inversion Hr; subst r'.
  discriminate Hn.
Qed.

(** C2, amended.  Let [f >= 0] be the failure count of a tracked thread,
    let [RETRY_DELAYS] be non-empty, and let the bump call fail
    generically at time [now].  The count is incremented before it is
    used:
    - if [f + 1] is below the maximum, the next attempt is scheduled at
      [now + RETRY_DELAYS[min(f + 1, len(RETRY_DELAYS) - 1)]] and the stored
      count becomes [f + 1];
    - if [f + 1] reaches the maximum, the stored count is reset to 0,
      [next_bump_time = now + BUMP_INTERVAL], an error is logged and, when
      a bot is configured, the operator alert for this thread is sent. *)
Theorem generic_failure_backoff cfg env t w :
  healthy env ->
  threads (db w) !! thread_id t = Some (columns t) ->
  classify (http_post env (length (requests w)) (thread_id t)) = Failure ->
  RETRY_DELAYS cfg <> [] ->
  0 <= consecutive_failures (columns t) ->
  let tid := thread_id t in
  let f := consecutive_failures (columns t) in
  let now := clock env (ticks w) in
  exists res w' r',
    process_thread cfg env t w = (Return res, w') /\
    threads (db w') !! tid = Some r' /\
    if MAX_CONSECUTIVE_FAILURES cfg <=? f + 1 then
      consecutive_failures r' = 0 /\
      next_bump_time r' = Some (now + BUMP_INTERVAL cfg) /\
      (ERROR, "Skipping " +:+ pretty tid +:+ " (10 fails)") ∈ log w' /\
      sent w' = sent w ++ (if bot cfg then [TgSkipped tid] else [])
    else
      exists delay,
        getitem (RETRY_DELAYS cfg)
                (Z.min (f + 1) (Z.of_nat (length (RETRY_DELAYS cfg)) - 1))
          = Some delay /\
        next_bump_time r' = Some (now + delay) /\
        consecutive_failures r' = f + 1.
Proof.
  intros [Hsql Htg] Hrow Hclass Hne Hf tid f now.
  destruct (process_thread_counted_as_failure cfg env Hsql t w Hrow)
    as (res & w' & r' & msg & Hrun & Hr' & _ & _ & _ & _ & _ & Hbranch).
  { rewrite Hclass. reflexivity. }
  rewrite Hclass in Hbranch. fold tid f now in Hbranch.
  destruct (MAX_CONSECUTIVE_FAILURES cfg <=? f + 1) eqn:Hmax.
  - destruct Hbranch as (Hcf & Hnb & _ & _ & Hsent & Hlog & Hret).
    destruct (Hret Htg) as [p ->].
    exists p, w', r'. split; [exact Hrun|]. split; [exact Hr'|].
    simpl app in Hsent. auto.
  - destruct (getitem_min_Some (RETRY_DELAYS cfg) (f + 1) Hne
                ltac:(subst f; lia)) as (delay & Hget & _).
    rewrite Hget in Hbranch.
    destruct Hbranch as ([p ->] & Hcf & Hnb & _).
    exists p, w', r'. split; [exact Hrun|]. split; [exact Hr'|].
    exists delay. auto.
Qed.

Lemma generic_failure_backoff_witness :
  let env := Sample.env (Sample.reply 500) Sample.no_info in
  let w := Sample.world 0 in
  healthy env /\
  threads (db w) !! 7 = Some (Sample.row 0) /\
  classify (http_post env (length (requests w)) 7) = Failure /\
  RETRY_DELAYS Sample.cfg <> [] /\
  0 <= consecutive_failures (Sample.row 0) /\
  exists res w' r',
    process_thread Sample.cfg env (7, Sample.row 0) w = (Return res, w') /\
    threads (db w') !! 7 = Some r' /\
    exists delay,
      getitem (RETRY_DELAYS Sample.cfg) (Z.min (0 + 1) (5 - 1)) = Some delay /\
      next_bump_time r' = Some (1000 + delay) /\
      consecutive_failures r' = 0 + 1.
Proof.
  assert (Hh : healthy (Sample.env (Sample.reply 500) Sample.no_info))
    by (split; intro k; reflexivity).
  assert (Hne : RETRY_DELAYS Sample.cfg <> []) by discriminate.
  assert (Hf : 0 <= consecutive_failures (Sample.row 0)) by (simpl; lia).
  split; [exact Hh|]. split; [reflexivity|]. split; [reflexivity|].
  split; [exact Hne|]. split; [exact Hf|].
  exact (generic_failure_backoff Sample.cfg _ (7, Sample.row 0)
           (Sample.world 0) Hh eq_refl eq_refl Hne Hf).
Defined.

(** C9, as stated, fails when the incremented count reaches the maximum:
    with 9 failures stored and a maximum of 10, a fatal reply makes
    [process_thread] call [upsert_thread], which writes no history
    record. *)
Lemma fatal_at_maximum_writes_no_history :
  let env := Sample.env (Sample.reply 401) Sample.no_info in
  let w := Sample.world 9 in
  let w' := world_of (process_thread Sample.cfg env (7, Sample.row 9) w) in
  classify (http_post env (length (requests w)) 7) = Fatal /\
  bump_history (db w) = [] /\
  ~ (exists h, h ∈ bump_history (db w') /\ h_thread_id h = 7).
Proof.
  split; [reflexivity|]. split; [reflexivity|].
  intros [h [Hh _]]. vm_compute in Hh. inversion Hh.
Qed.

(** C9, amended.  A fatal (401) reply sets the running flag to false and
    is then processed against the current thread like any other failure.
    With [f] the failure count of the thread:
    - if [f + 1] is below the maximum, the stored count becomes [f + 1],
      [next_bump_time = now + RETRY_DELAYS[min(f + 1, len - 1)]], and one
      failure record with the empty message is appended to the history;
    - if [f + 1] reaches the maximum, the stored count is reset to 0,
      [next_bump_time = now + BUMP_INTERVAL], [last_error] is
      ["Too many errors: "], and the history is left as it was. *)
Theorem fatal_processed_as_failure cfg env t w :
  healthy env ->
  threads (db w) !! thread_id t = Some (columns t) ->
  classify (http_post env (length (requests w)) (thread_id t)) = Fatal ->
  RETRY_DELAYS cfg <> [] ->
  0 <= consecutive_failures (columns t) ->
  let tid := thread_id t in
  let f := consecutive_failures (columns t) in
  let now := clock env (ticks w) in
  exists res w' r',
    process_thread cfg env t w = (Return res, w') /\
    running w' = false /\
    threads (db w') !! tid = Some r' /\
    if MAX_CONSECUTIVE_FAILURES cfg <=? f + 1 then
      consecutive_failures r' = 0 /\
      next_bump_time r' = Some (now + BUMP_INTERVAL cfg) /\
      last_error r' = Some "Too many errors: " /\
      bump_history (db w') = bump_history (db w)
    else
      exists delay,
        getitem (RETRY_DELAYS cfg)
                (Z.min (f + 1) (Z.of_nat (length (RETRY_DELAYS cfg)) - 1))
          = Some delay /\
        consecutive_failures r' = f + 1 /\
        next_bump_time r' = Some (now + delay) /\
        bump_history (db w') =
          bump_history (db w) ++
          [{| id := history_seq (db w) + 1; h_thread_id := tid;
              bump_time := clock env (S (ticks w)); success := 0;
              message := "" |}].
Proof.
  intros [Hsql Htg] Hrow Hclass Hne Hf tid f now.
  destruct (process_thread_counted_as_failure cfg env Hsql t w Hrow)
    as (res & w' & r' & msg & Hrun & Hr' & Hru & _ & _ & Hmsg & _ & Hbranch).
  { rewrite Hclass. reflexivity. }
  rewrite Hclass in Hbranch, Hmsg, Hru. fold tid f now in Hbranch.
  rewrite (Hmsg eq_refl (or_intror (Htg _))) in Hbranch.
  destruct (MAX_CONSECUTIVE_FAILURES cfg <=? f + 1) eqn:Hmax.
  - destruct Hbranch as (Hcf & Hnb & Herr & Hhist & _ & _ & Hret).
    destruct (Hret Htg) as [p ->].
    exists p, w', r'. split; [exact Hrun|]. split; [exact Hru|].
    split; [exact Hr'|]. auto.
  - destruct (getitem_min_Some (RETRY_DELAYS cfg) (f + 1) Hne
                ltac:(subst f; lia)) as (delay & Hget & _).
    rewrite Hget in Hbranch.
    destruct Hbranch as ([p ->] & Hcf & Hnb & _ & Hhist).
    exists p, w', r'. split; [exact Hrun|]. split; [exact Hru|].
    split; [exact Hr'|]. exists delay. auto.
Qed.

Lemma fatal_processed_as_failure_witness :
  let env := Sample.env (Sample.reply 401) Sample.no_info in
  let w := Sample.world 9 in
  healthy env /\
  threads (db w) !! 7 = Some (Sample.row 9) /\
  classify (http_post env (length (requests w)) 7) = Fatal /\
  RETRY_DELAYS Sample.cfg <> [] /\
  0 <= consecutive_failures (Sample.row 9) /\
  exists res w' r',
    process_thread Sample.cfg env (7, Sample.row 9) w = (Return res, w') /\
    running w' = false /\
    threads (db w') !! 7 = Some r' /\
    consecutive_failures r' = 0 /\
    next_bump_time r' = Some (1000 + 14400) /\
    last_error r' = Some "Too many errors: " /\
    bump_history (db w') = bump_history (db w).
Proof.
  assert (Hh : healthy (Sample.env (Sample.reply 401) Sample.no_info))
    by (split; intro k; reflexivity).
  assert (Hne : RETRY_DELAYS Sample.cfg <> []) by discriminate.
  assert (Hf : 0 <= consecutive_failures (Sample.row 9)) by (simpl; lia).
  split; [exact Hh|]. split; [reflexivity|]. split; [reflexivity|].
  split; [exact Hne|]. split; [exact Hf|].
  exact (fatal_processed_as_failure Sample.cfg _ (7, Sample.row 9)
           (Sample.world 9) Hh eq_refl eq_refl Hne Hf).
Defined.



(** ** Which methods leave the running flag and the network alone *)

Section Quiet.

Variable cfg : Config.
Variable env : Env.

Lemma quiet_ret {A} (a : A) : quiet (ret a).
Proof.
  intros w. unfold ret, world_of; simpl.
  repeat split; try reflexivity; exists []; symmetry; apply app_nil_r.
Qed.

Lemma quiet_raise {A} (e : Exn) : quiet (@raise A e).
Proof.
  intros w. unfold raise, world_of; simpl.
  repeat split; try reflexivity; exists []; symmetry; apply app_nil_r.
Qed.

Lemma quiet_bind {A B} (m : M A) (k : A -> M B) :
  quiet m -> (forall a, quiet (k a)) -> quiet (bind m k).
Proof.
  intros Hm Hk w. specialize (Hm w). unfold bind, world_of in *.
  destruct (m w) as [[a|e] w1]; simpl in Hm.
  - specialize (Hk a w1). unfold world_of in Hk.
    destruct (k a w1) as [r w2]; simpl in *.
    destruct Hm as (H1 & H2 & [l1 H3] & [l2 H4]).
    destruct Hk as (K1 & K2 & [l3 K3] & [l4 K4]).
    split; [congruence|]. split; [congruence|].
    split; [exists (l1 ++ l3); rewrite K3, H3, app_assoc; reflexivity|].
    exists (l2 ++ l4); rewrite K4, H4, app_assoc; reflexivity.
  - exact Hm.
Qed.

Lemma quiet_try_except {A} (m : M A) (h : Exn -> M A) :
  quiet m -> (forall e, quiet (h e)) -> quiet (try_except m h).
Proof.
  intros Hm Hh w. specialize (Hm w). unfold try_except, world_of in *.
  destruct (m w) as [[a|e] w1]; simpl in Hm.
  - exact Hm.
  - specialize (Hh e w1). unfold world_of in Hh.
    destruct (h e w1) as [r w2]; simpl in *.
    destruct Hm as (H1 & H2 & [l1 H3] & [l2 H4]).
    destruct Hh as (K1 & K2 & [l3 K3] & [l4 K4]).
    split; [congruence|]. split; [congruence|].
    split; [exists (l1 ++ l3); rewrite K3, H3, app_assoc; reflexivity|].
    exists (l2 ++ l4); rewrite K4, H4, app_assoc; reflexivity.
Qed.

Lemma quiet_logger lvl text : quiet (logger lvl text).
Proof.
  intros w. unfold logger, world_of; simpl.
  repeat split; try reflexivity; [exists []; symmetry; apply app_nil_r|].
  eexists; reflexivity.
Qed.

Lemma quiet_time_time : quiet (time_time env).
Proof.
  intros w. unfold time_time, world_of; simpl.
  repeat split; try reflexivity; exists []; symmetry; apply app_nil_r.
Qed.

Lemma quiet_sleep : quiet sleep.
Proof. apply quiet_ret. Qed.

Lemma quiet_send_message msg : quiet (send_message env msg).
Proof.
  intros w. unfold send_message, world_of.
  destruct (tg_fault env (length (sent w))); simpl;
    (repeat split; try reflexivity;
     [eexists; reflexivity | exists []; symmetry; apply app_nil_r]).
Qed.

Lemma quiet_when b (m : M unit) : quiet m -> quiet (when b m).
Proof. intros H. destruct b; simpl; [exact H|apply quiet_ret]. Qed.

Lemma quiet_execute stmt : quiet (execute env stmt).
Proof.
  intros w. unfold execute, world_of.
  destruct (sql_fault env (stmts w)); [|destruct (stmt (db w))]; simpl;
    (repeat split; try reflexivity; exists []; symmetry; apply app_nil_r).
Qed.

Lemma quiet_fetch {A} (select : Store -> A) : quiet (fetch env select).
Proof.
  intros w. unfold fetch, world_of.
  destruct (sql_fault env (stmts w)); simpl;
    (repeat split; try reflexivity; exists []; symmetry; apply app_nil_r).
Qed.

Lemma quiet_get_connection {A} (body : M A) :
  quiet body -> quiet (_get_connection body).
Proof.
  intros Hb w. specialize (Hb w). unfold _get_connection, world_of in *.
  destruct (body w) as [[a|e] w1]; simpl in *; [exact Hb|].
  destruct Hb as (H1 & H2 & [l1 H3] & [l2 H4]).
  split; [exact H1|]. split; [exact H2|].
  split; [exists l1; exact H3|].
  eexists; rewrite H4, <- app_assoc; reflexivity.
Qed.

Ltac quiet_tac :=
  repeat match goal with
    | |- quiet (bind _ _) => apply quiet_bind; [|intros ?]
    | |- quiet (ret _) => apply quiet_ret
    | |- quiet (raise _) => apply quiet_raise
    | |- quiet (logger _ _) => apply quiet_logger
    | |- quiet (time_time _) => apply quiet_time_time
    | |- quiet sleep => apply quiet_sleep
    | |- quiet (send_message _ _) => apply quiet_send_message
    | |- quiet (execute _ _) => apply quiet_execute
    | |- quiet (fetch _ _) => apply quiet_fetch
    | |- quiet (when _ _) => apply quiet_when
    | |- quiet (_get_connection _) => apply quiet_get_connection
    | |- quiet (try_except _ _) => apply quiet_try_except; [|intros ?]
    | |- quiet (match ?x with _ => _ end) => destruct x
    end.

Lemma quiet_get_thread tid : quiet (get_thread env tid).
Proof. unfold get_thread. quiet_tac. Qed.

Lemma quiet_upsert_thread tid kwargs : quiet (upsert_thread env tid kwargs).
Proof.
  unfold upsert_thread.
  apply quiet_bind; [apply quiet_time_time|intros now].
  apply quiet_bind; [apply quiet_get_thread|intros existing].
  quiet_tac.
Qed.

Lemma quiet_record_bump_success tid msg nbt :
  quiet (record_bump_success env tid msg nbt).
Proof. unfold record_bump_success. quiet_tac. Qed.

Lemma quiet_record_bump_failure tid msg nrt :
  quiet (record_bump_failure env tid msg nrt).
Proof. unfold record_bump_failure. quiet_tac. Qed.

Lemma quiet_get_all_threads : quiet (get_all_threads env).
Proof. unfold get_all_threads. quiet_tac. Qed.

Lemma quiet_get_threads_ready_for_bump :
  quiet (get_threads_ready_for_bump env).
Proof. unfold get_threads_ready_for_bump. quiet_tac. Qed.

(** What [process_thread] does once [_bump_thread] has returned. *)
Lemma process_thread_after_bump t w r w1 :
  _bump_thread cfg env (thread_id t) (entered t w) = (Return r, w1) ->
  let w' := world_of (process_thread cfg env t w) in
  running w' = running w1 /\ requests w' = requests w1 /\
  (exists l, sent w' = sent w1 ++ l) /\ (exists l, log w' = log w1 ++ l).
Proof.
  intros Hb. unfold process_thread.
  erewrite bind_Return by (unfold logger; reflexivity).
  fold (entered t w).
  erewrite bind_Return by exact Hb.
  match goal with
  | |- context [world_of (?m w1)] => assert (Hq : quiet m)
  end.
  { apply quiet_bind; [|intros ?; apply quiet_ret].
    destruct (res_success r).
    - apply quiet_bind; [apply quiet_logger|intros _].
      apply quiet_record_bump_success.
    - destruct (res_is_cooldown r).
      + apply quiet_bind; [apply quiet_logger|intros _].
        apply quiet_upsert_thread.
      + destruct (MAX_CONSECUTIVE_FAILURES cfg
                  <=? consecutive_failures (columns t) + 1).
        * apply quiet_bind; [apply quiet_logger|intros _].
          apply quiet_bind; [apply quiet_time_time|intros now].
          apply quiet_bind; [apply quiet_upsert_thread|intros _].
          apply quiet_when. apply quiet_send_message.
        * destruct (getitem _ _); [|apply quiet_raise].
          apply quiet_bind; [apply quiet_time_time|intros now].
          apply quiet_bind; [apply quiet_logger|intros _].
          apply quiet_record_bump_failure. }
  exact (Hq w1).
Qed.

End Quiet.

(** ** The cycle loop *)

Section Driver.

Variable cfg : Config.
Variable env : Env.

(** With the flag down, the [for] loop breaks before its first dispatch. *)
Lemma dispatch_stopped ready acc w :
  running w = false -> dispatch cfg env ready acc w = (Return acc, w).
Proof.
  intros Hr. destruct ready as [|t rest]; simpl; [reflexivity|].
  unfold bind, is_running, ret. rewrite Hr. reflexivity.
Qed.

Lemma while_running_stopped fuel w :
  running w = false -> while_running cfg env fuel w = (Return Stopped, w).
Proof.
  intros Hr. destruct fuel; simpl; unfold bind, is_running, ret;
    rewrite Hr; reflexivity.
Qed.

Lemma run_cycle_stopped w :
  running w = false ->
  running (world_of (run_cycle cfg env w)) = false /\
  requests (world_of (run_cycle cfg env w)) = requests w /\
  sent (world_of (run_cycle cfg env w)) = sent w.
Proof.
  intros Hr. unfold run_cycle, bind.
  destruct (quiet_get_threads_ready_for_bump env w)
    as (H1 & H2 & [l3 H3] & _).
  assert (Hs : sent (world_of (get_threads_ready_for_bump env w)) = sent w).
  { unfold get_threads_ready_for_bump, _get_connection, fetch, time_time,
      bind, world_of. simpl.
    destruct (sql_fault env (stmts w)); reflexivity. }
  unfold world_of in *.
  destruct (get_threads_ready_for_bump env w) as [[ready|e] w1];
    simpl in *; [|rewrite H1; auto].
  destruct ready as [|t rest]; [unfold ret; simpl; rewrite H1; auto|].
  unfold logger.
  rewrite dispatch_stopped by (simpl; congruence).
  unfold ret. simpl. rewrite H1. auto.
Qed.

End Driver.

(** C7.  Let the flag be up and let the bump call of the next thread of
    the ready list (the head of what the loop has left) return 401.  When
    the [for] loop of [run_cycle] is left, the flag is down, a CRITICAL
    record is in the log, the alert was handed to the bot if one is
    configured, and the only request issued since is the bump of that
    thread: none of the remaining ready threads was dispatched.  From then
    on the main loop stops without starting a cycle, and a cycle entered
    with the flag down issues no request and leaves the flag down.  No
    assumption is made on the storage engine or on Telegram: the statement
    holds as well when [process_thread] raises. *)
Theorem fatal_halts_driver cfg env t rest results w :
  running w = true ->
  classify (http_post env (length (requests w)) (thread_id t)) = Fatal ->
  let w1 := world_of (dispatch cfg env (t :: rest) results w) in
  running w1 = false /\
  requests w1 = requests w ++ [POST_bump (thread_id t)] /\
  (CRITICAL, "INVALID TOKEN") ∈ log w1 /\
  (bot cfg = true -> TgInvalidToken ∈ sent w1) /\
  (forall fuel, while_running cfg env fuel w1 = (Return Stopped, w1)) /\
  (forall w2, running w2 = false ->
     (forall ready acc, dispatch cfg env ready acc w2 = (Return acc, w2)) /\
     running (world_of (run_cycle cfg env w2)) = false /\
     requests (world_of (run_cycle cfg env w2)) = requests w2).
Proof.
  intros Hup Hclass w1.
  destruct (bump_thread_counted_as_failure cfg env (thread_id t) (entered t w))
    as (msg & nxt & wb & Hb & _ & _ & _ & _ & Hse & Hru & Hre & Hlog & _).
  { cbn [requests entered set_log]. rewrite Hclass. reflexivity. }
  cbn [requests sent entered set_log] in Hse, Hru, Hre, Hlog.
  rewrite Hclass in Hse, Hru, Hlog. specialize (Hlog eq_refl).
  destruct (process_thread_after_bump cfg env t w _ wb Hb)
    as (Pru & Pre & [ls Pse] & [ll Plog]).
  assert (Hw1 : w1 = world_of (process_thread cfg env t w)).
  { subst w1. simpl. unfold bind at 1, is_running. rewrite Hup. simpl.
    unfold bind at 1. unfold world_of in *.
    destruct (process_thread cfg env t w) as [[res|e] w'];
      [|reflexivity].
    unfold sleep, bind, ret.
    rewrite dispatch_stopped by (simpl in Pru; congruence). reflexivity. }
  rewrite Hw1.
  assert (Hdown : running (world_of (process_thread cfg env t w)) = false)
    by congruence.
  split; [exact Hdown|].
  split; [congruence|].
  split; [rewrite Plog; apply elem_of_app; left; auto|].
  split.
  { intros Hbot. rewrite Pse, Hse, Hbot. apply elem_of_app. left.
    apply elem_of_app. right. apply list_elem_of_singleton. reflexivity. }
  split; [intros fuel; apply while_running_stopped; exact Hdown|].
  intros w2 Hw2. split; [intros; apply dispatch_stopped; exact Hw2|].
  destruct (run_cycle_stopped cfg env w2 Hw2) as (? & ? & _). auto.
Qed.

(** ** Reconciliation *)

Lemma insert_by_perm {A} (le : A -> A -> bool) x l :
  insert_by le x l ≡ₚ x :: l.
Proof.
  induction l as [|y l IH]; simpl; [reflexivity|].
  destruct (le x y); [reflexivity|].
  rewrite IH. apply Permutation_swap.
Qed.

Lemma sort_by_perm {A} (le : A -> A -> bool) l : sort_by le l ≡ₚ l.
Proof.
  unfold sort_by. induction l as [|x l IH]; simpl; [reflexivity|].
  rewrite insert_by_perm, IH. reflexivity.
Qed.

Lemma elem_of_select_all_threads s tid r :
  (tid, r) ∈ select_all_threads s <-> threads s !! tid = Some r.
Proof.
  unfold select_all_threads. rewrite sort_by_perm.
  apply elem_of_map_to_list.
Qed.

Lemma stored_thread_id s tid :
  tid ∈ thread_id <$> select_all_threads s <-> is_Some (threads s !! tid).
Proof.
  rewrite list_elem_of_fmap. split.
  - intros [[k r] [-> Hin]]. apply elem_of_select_all_threads in Hin.
    simpl. eauto.
  - intros [r Hr]. exists (tid, r). split; [reflexivity|].
    apply elem_of_select_all_threads. exact Hr.
Qed.

(** [next(t for t in db_threads if t['thread_id'] == thread_id)] *)
Lemma find_stored_thread s tid r :
  threads s !! tid = Some r ->
  List.find (fun t => thread_id t =? tid) (select_all_threads s)
  = Some (tid, r).
Proof.
  intros Hr.
  destruct (List.find (fun t => thread_id t =? tid) (select_all_threads s))
    as [[k r']|] eqn:E.
  - apply find_some in E. destruct E as [Hin Hk]. simpl in Hk.
    apply Z.eqb_eq in Hk. subst k.
    apply list_elem_of_In, elem_of_select_all_threads in Hin. congruence.
  - apply elem_of_select_all_threads, list_elem_of_In in Hr.
    pose proof (find_none _ _ E _ Hr) as H. simpl in H.
    rewrite Z.eqb_refl in H. discriminate H.
Qed.

Lemma for_each_skip {A} (xs : list A) (body : A -> M unit) w :
  (forall x, x ∈ xs -> body x w = (Return tt, w)) ->
  for_each xs body w = (Return tt, w).
Proof.
  induction xs as [|x xs IH]; intros H; simpl; [reflexivity|].
  erewrite bind_Return by (apply H; left).
  apply IH. intros y Hy. apply H. right. exact Hy.
Qed.

Section Reconciliation.

Variable cfg : Config.
Variable env : Env.
Hypothesis Hsql : storage_ok env.

(** On a reconciled store neither loop has anything to do: the run only
    reads the clock and the table. *)
Lemma initialize_threads_reconciled config_ids w :
  reconciled config_ids (threads (db w)) ->
  initialize_threads_from env config_ids w =
  (Return tt, set_stmts (S (stmts w)) (set_ticks (S (ticks w)) w)).
Proof.
  intros [Hin Hout]. unfold initialize_threads_from.
  erewrite bind_Return by (unfold time_time; reflexivity).
  erewrite bind_Return by (apply get_all_threads_run; assumption).
  cbn [db set_ticks].
  set (w1 := set_stmts _ _).
  assert (Hdb : db w1 = db w) by reflexivity.
  erewrite bind_Return.
  2:{ apply for_each_skip. intros tid Htid.
      destruct (Hin tid Htid) as (r & Hr & Hact).
      unfold add_or_reactivate.
      rewrite bool_decide_eq_true_2
        by (apply stored_thread_id; rewrite Hr; eauto).
      simpl negb. cbv iota.
      rewrite (find_stored_thread _ _ _ Hr). cbn [columns snd].
      unfold active in Hact. rewrite Hact. reflexivity. }
  apply for_each_skip. intros [tid r] Ht.
  apply elem_of_select_all_threads in Ht.
  unfold deactivate_removed. cbn [thread_id columns fst snd].
  destruct (bool_decide (tid ∈ config_ids)) eqn:E; [reflexivity|].
  apply bool_decide_eq_false in E.
  specialize (Hout tid r E Ht). unfold active in Hout.
  destruct (truthy (is_active r)); [contradiction Hout; reflexivity|].
  reflexivity.
Qed.

(** One turn of the first loop, against the snapshot [s0] taken by
    [get_all_threads]. *)
Lemma add_or_reactivate_run now s0 tid w :
  exists w',
    add_or_reactivate env now (select_all_threads s0) tid w = (Return tt, w') /\
    (forall other, other <> tid ->
                   threads (db w') !! other = threads (db w) !! other) /\
    match threads s0 !! tid with
    | None =>
        exists r', threads (db w') !! tid = Some r' /\
                   is_active r' = match threads (db w) !! tid with
                                  | Some r => is_active r
                                  | None => 1
                                  end
    | Some r0 =>
        if truthy (is_active r0)
        then threads (db w') !! tid = threads (db w) !! tid
        else forall r, threads (db w) !! tid = Some r ->
                       exists r', threads (db w') !! tid = Some r' /\
                                  is_active r' = 1
    end.
Proof.
  unfold add_or_reactivate.
  destruct (threads s0 !! tid) as [r0|] eqn:E0.
  - rewrite bool_decide_eq_true_2
      by (apply stored_thread_id; rewrite E0; eauto).
    cbn [negb].
    rewrite (find_stored_thread _ _ _ E0). cbn [columns snd].
    destruct (truthy (is_active r0)); cbn [negb].
    + exists w. auto.
    + eexists. split.
      { erewrite bind_Return by (apply activate_thread_run; assumption).
        unfold logger. reflexivity. }
      cbn [db set_db set_log threads with_threads].
      split; [intros other Hne; apply lookup_alter_ne; congruence|].
      intros r Hr. rewrite lookup_alter_eq, Hr. eexists. split; reflexivity.
  - rewrite bool_decide_eq_false_2
      by (rewrite stored_thread_id, E0; intros [? H]; discriminate H).
    cbn [negb].
    destruct (get_thread_info_run env tid w)
      as (wi & Hinfo & Hdb & _).
    eexists. split.
    { erewrite bind_Return by exact Hinfo.
      erewrite bind_Return by (apply upsert_thread_run; assumption).
      unfold bind, logger, sleep, ret. reflexivity. }
    cbn [db set_db set_log threads with_threads]. rewrite Hdb.
    unfold upserted.
    destruct (threads (db w) !! tid) as [r|] eqn:E;
      cbn [threads with_threads].
    + split; [intros other Hne; apply lookup_alter_ne; congruence|].
      rewrite lookup_alter_eq, E. eexists. split; reflexivity.
    + split; [intros other Hne; apply lookup_insert_ne; congruence|].
      rewrite lookup_insert_eq. eexists. split; reflexivity.
Qed.

(** One turn of the second loop. *)
Lemma deactivate_removed_run config_ids t w :
  exists w',
    deactivate_removed env config_ids t w = (Return tt, w') /\
    (forall other, other <> thread_id t ->
                   threads (db w') !! other = threads (db w) !! other) /\
    if negb (bool_decide (thread_id t ∈ config_ids))
       && truthy (is_active (columns t))
    then forall r, threads (db w') !! thread_id t = Some r -> is_active r = 0
    else threads (db w') !! thread_id t = threads (db w) !! thread_id t.
Proof.
  unfold deactivate_removed.
  destruct (negb (bool_decide (thread_id t ∈ config_ids))
            && truthy (is_active (columns t))).
  - eexists. split.
    { erewrite bind_Return by (apply deactivate_thread_run; assumption).
      unfold logger. reflexivity. }
    cbn [db set_db set_log threads with_threads].
    split; [intros other Hne; apply lookup_alter_ne; congruence|].
    intros r. rewrite lookup_alter_eq.
    destruct (threads (db w) !! thread_id t); simpl; [|discriminate].
    intros H. injection H as <-. reflexivity.
  - exists w. auto.
Qed.

Lemma active_1 r : is_active r = 1 -> active r.
Proof. unfold active. intros ->. reflexivity. Qed.

Lemma inactive_0 r : is_active r = 0 -> ~ active r.
Proof. unfold active. intros ->. discriminate. Qed.

(** The first loop: configured threads already met have an active row,
    the other keys are as in the snapshot. *)
Lemma first_loop now s0 ids :
  forall met w,
    (forall tid, tid ∈ met ->
                 exists r, threads (db w) !! tid = Some r /\ active r) ->
    (forall tid, tid ∉ met -> threads (db w) !! tid = threads s0 !! tid) ->
    exists w',
      for_each ids (add_or_reactivate env now (select_all_threads s0)) w
      = (Return tt, w') /\
      (forall tid, tid ∈ met ++ ids ->
                   exists r, threads (db w') !! tid = Some r /\ active r) /\
      (forall tid, tid ∉ met ++ ids ->
                   threads (db w') !! tid = threads s0 !! tid).
Proof.
  induction ids as [|tid ids IH]; intros met w Hmet Hrest.
  - exists w. rewrite app_nil_r. auto.
  - destruct (add_or_reactivate_run now s0 tid w)
      as (w1 & Hrun & Hother & Hthis).
    destruct (IH (met ++ [tid]) w1) as (w' & Hloop & Hmet' & Hrest').
    + intros x Hx. destruct (decide (x = tid)) as [->|Hne].
      * destruct (threads s0 !! tid) as [r0|] eqn:E0.
        -- destruct (truthy (is_active r0)) eqn:Hact.
           ++ rewrite Hthis.
              destruct (decide (tid ∈ met)) as [Hin|Hout]; [auto|].
              rewrite (Hrest tid Hout), E0. eauto.
           ++ assert (Hsome : exists r, threads (db w) !! tid = Some r).
              { destruct (decide (tid ∈ met)) as [Hin|Hout].
                - destruct (Hmet tid Hin) as (r & Hr & _). eauto.
                - rewrite (Hrest tid Hout), E0. eauto. }
              destruct Hsome as [r Hr].
              destruct (Hthis r Hr) as (r' & Hr' & H1).
              exists r'. split; [exact Hr'|apply active_1; exact H1].
        -- destruct Hthis as (r' & Hr' & Hact). exists r'.
           split; [exact Hr'|].
           destruct (threads (db w) !! tid) as [r|] eqn:E.
           ++ destruct (decide (tid ∈ met)) as [Hin|Hout].
              ** destruct (Hmet tid Hin) as (r1 & Hr1 & Hact1).
                 unfold active in *. congruence.
              ** rewrite (Hrest tid Hout), E0 in E. discriminate E.
           ++ apply active_1. exact Hact.
      * rewrite (Hother x Hne). apply Hmet.
        apply elem_of_app in Hx. destruct Hx as [Hx|Hx]; [exact Hx|].
        apply list_elem_of_singleton in Hx. contradiction.
    + intros x Hx. rewrite not_elem_of_app in Hx. destruct Hx as [Hx1 Hx2].
      rewrite list_elem_of_singleton in Hx2.
      rewrite (Hother x Hx2). apply Hrest. exact Hx1.
    + exists w'. simpl. erewrite bind_Return by exact Hrun.
      split; [exact Hloop|].
      rewrite <- app_assoc in Hmet', Hrest'. simpl in Hmet', Hrest'. auto.
Qed.

(** The second loop: configured threads are left alone; of the other
    keys, those already met have no active row, the rest is as before. *)
Lemma second_loop config_ids (m1 : gmap Z Row) ts :
  (forall t, t ∈ ts -> tid_in_config_or_row m1 config_ids t) ->
  forall met w,
    (forall tid, tid ∈ config_ids ->
                 threads (db w) !! tid = m1 !! tid) ->
    (forall tid, tid ∉ config_ids -> tid ∈ met ->
                 forall r, threads (db w) !! tid = Some r -> ~ active r) ->
    (forall tid, tid ∉ config_ids -> tid ∉ met ->
                 threads (db w) !! tid = m1 !! tid) ->
    exists w',
      for_each ts (deactivate_removed env config_ids) w = (Return tt, w') /\
      (forall tid, tid ∈ config_ids ->
                   threads (db w') !! tid = m1 !! tid) /\
      (forall tid, tid ∉ config_ids -> tid ∈ met ++ (thread_id <$> ts) ->
                   forall r, threads (db w') !! tid = Some r -> ~ active r) /\
      (forall tid, tid ∉ config_ids -> tid ∉ met ++ (thread_id <$> ts) ->
                   threads (db w') !! tid = m1 !! tid).
Proof.
  induction ts as [|t ts IH]; intros Hts met w Hcfg Hmet Hrest.
  - exists w. simpl. rewrite app_nil_r. auto.
  - destruct (deactivate_removed_run config_ids t w)
      as (w1 & Hrun & Hother & Hthis).
    assert (Ht : tid_in_config_or_row m1 config_ids t)
      by (apply Hts; left).
    destruct (IH ltac:(intros; apply Hts; right; assumption)
                 (met ++ [thread_id t]) w1)
      as (w' & Hloop & Hcfg' & Hmet' & Hrest').
    + intros x Hx. destruct (decide (x = thread_id t)) as [->|Hne].
      * rewrite bool_decide_eq_true_2 in Hthis by exact Hx.
        simpl in Hthis. rewrite Hthis. apply Hcfg. exact Hx.
      * rewrite (Hother x Hne). apply Hcfg. exact Hx.
    + intros x Hx Hin r Hr.
      destruct (decide (x = thread_id t)) as [->|Hne].
      * rewrite bool_decide_eq_false_2 in Hthis by exact Hx.
        simpl negb in Hthis. rewrite andb_true_l in Hthis.
        destruct (truthy (is_active (columns t))) eqn:Hact.
        -- apply inactive_0. apply Hthis. exact Hr.
        -- rewrite Hthis in Hr.
           destruct (decide (thread_id t ∈ met)) as [Hm|Hm];
             [exact (Hmet _ Hx Hm r Hr)|].
           rewrite (Hrest _ Hx Hm) in Hr.
           destruct Ht as [Ht|Ht]; [contradiction|].
           rewrite Ht in Hr. injection Hr as <-.
           unfold active. rewrite Hact. discriminate.
      * rewrite (Hother x Hne) in Hr.
        apply elem_of_app in Hin. destruct Hin as [Hin|Hin].
        -- exact (Hmet x Hx Hin r Hr).
        -- apply list_elem_of_singleton in Hin. contradiction.
    + intros x Hx Hout. rewrite not_elem_of_app in Hout.
      destruct Hout as [Hx1 Hx2]. rewrite list_elem_of_singleton in Hx2.
      rewrite (Hother x Hx2). apply Hrest; assumption.
    + exists w'. simpl for_each. erewrite bind_Return by exact Hrun.
      split; [exact Hloop|].
      rewrite fmap_cons.
      rewrite <- app_assoc in Hmet', Hrest'. simpl in Hmet', Hrest'. auto.
Qed.

(** A run on any store returns and leaves a reconciled store. *)
Lemma initialize_threads_reconciles config_ids w :
  exists w',
    initialize_threads_from env config_ids w = (Return tt, w') /\
    reconciled config_ids (threads (db w')).
Proof.
  unfold initialize_threads_from.
  set (w0 := set_stmts (S (stmts w)) (set_ticks (S (ticks w)) w)).
  destruct (first_loop (clock env (ticks w)) (db w) config_ids [] w0)
    as (w1 & Hloop1 & Hin1 & Hout1).
  { intros tid Htid. inversion Htid. }
  { intros tid _. reflexivity. }
  simpl app in Hin1, Hout1.
  destruct (second_loop config_ids (threads (db w1))
              (select_all_threads (db w))) with (met := @nil Z) (w := w1)
    as (w2 & Hloop2 & Hcfg2 & Hmet2 & Hrest2).
  { intros [tid r] Ht. apply elem_of_select_all_threads in Ht.
    unfold tid_in_config_or_row. cbn [thread_id columns fst snd].
    destruct (decide (tid ∈ config_ids)) as [Hc|Hc]; [left; exact Hc|].
    right. rewrite (Hout1 tid Hc). exact Ht. }
  { reflexivity. }
  { intros tid _ Htid. inversion Htid. }
  { reflexivity. }
  simpl app in Hmet2, Hrest2.
  exists w2. split.
  - erewrite bind_Return by (unfold time_time; reflexivity).
    erewrite bind_Return by (apply get_all_threads_run; assumption).
    cbn [db set_ticks]. fold w0.
    erewrite bind_Return by exact Hloop1.
    exact Hloop2.
  - split.
    + intros tid Htid. rewrite (Hcfg2 tid Htid). apply Hin1. exact Htid.
    + intros tid r Htid Hr.
      destruct (decide (tid ∈ thread_id <$> select_all_threads (db w)))
        as [Hs|Hs].
      * exact (Hmet2 tid Htid Hs r Hr).
      * rewrite (Hrest2 tid Htid Hs), (Hout1 tid Htid) in Hr.
        contradiction Hs. apply stored_thread_id. eauto.
Qed.

End Reconciliation.



(** ** The statements above at explicit inputs *)

Lemma upsert_thread_fields_witness :
  let env := Sample.env Sample.ok_reply Sample.no_info in
  let w := Sample.world 0 in
  storage_ok env /\
  exists w' r',
    upsert_thread env 9 [title_is (Some "New")] w = (Return tt, w') /\
    threads (db w') !! 9 = Some r' /\
    title r' = Some "New" /\
    created_at r' = Some 1000 /\ updated_at r' = Some 1000 /\
    next_bump_time r' = Some 0 /\ consecutive_failures r' = 0 /\
    is_active r' = 1 /\
    threads (db w') !! 7 = threads (db w) !! 7.
Proof.
  assert (Hs : storage_ok (Sample.env Sample.ok_reply Sample.no_info))
    by (intro k; reflexivity).
  split; [exact Hs|].
  destruct (upsert_thread_fields _ 9 [title_is (Some "New")]
              (Sample.world 0) Hs)
    as (w' & r' & Hrun & Hr & Hup & Hother & _ & Hcase & Hnamed).
  assert (E : threads (db (Sample.world 0)) !! 9 = None) by reflexivity.
  rewrite E in Hcase. destruct Hcase as (Hcr & _ & Hnb & Hcf & Hact).
  assert (Hfresh : forall c, c <> col_title ->
                     c ∉ column_of <$> [title_is (Some "New")]).
  { intros c Hc Hin. apply list_elem_of_singleton in Hin. contradiction. }
  assert (Ht : field col_title r' = VText "New").
  { apply (Hnamed ltac:(apply NoDup_singleton) (title_is (Some "New")));
      [apply list_elem_of_singleton; reflexivity | discriminate
      | intros _; discriminate]. }
  exists w', r'. split; [exact Hrun|]. split; [exact Hr|].
  split.
  { simpl in Ht. destruct (title r'); simpl in Ht; congruence. }
  split; [exact Hcr|]. split; [exact Hup|].
  split; [apply Hnb, Hfresh; discriminate|].
  split; [apply Hcf, Hfresh; discriminate|].
  split; [apply Hact, Hfresh; discriminate|].
  apply Hother. discriminate.
Defined.


Lemma fatal_halts_driver_witness :
  let env := Sample.env (Sample.reply 401) Sample.no_info in
  let w := Sample.world 0 in
  let ready := [(7, Sample.row 0); (8, Sample.row 0)] in
  let w1 := world_of (dispatch Sample.cfg env ready [] w) in
  running w = true /\
  classify (http_post env (length (requests w)) 7) = Fatal /\
  running w1 = false /\
  requests w1 = [POST_bump 7] /\
  TgInvalidToken ∈ sent w1 /\
  while_running Sample.cfg env 5 w1 = (Return Stopped, w1).
Proof.
  split; [reflexivity|]. split; [reflexivity|].
  destruct (fatal_halts_driver Sample.cfg
              (Sample.env (Sample.reply 401) Sample.no_info)
              (7, Sample.row 0) [(8, Sample.row 0)] [] (Sample.world 0)
              eq_refl eq_refl)
    as (Hdown & Hreq & _ & Hsent & Hloop & _).
  split; [exact Hdown|]. split; [exact Hreq|].
  split; [exact (Hsent eq_refl)|]. exact (Hloop 5%nat).
Defined.

(** * Further properties of the code *)

(** ** The two queries that return lists of threads *)

Lemma StronglySorted_weaken {A} (R S : A -> A -> Prop) l :
  (forall a b, R a b -> S a b) -> StronglySorted R l -> StronglySorted S l.
Proof.
  intros HRS. induction 1 as [|a l Hl IH Ha]; constructor; [exact IH|].
  eapply Forall_impl; [exact Ha|]. intros b. apply HRS.
Qed.

Lemma insert_by_sorted {A} (le : A -> A -> bool) x l :
  (forall a b, le a b = true \/ le b a = true) ->
  (forall a b c, le a b = true -> le b c = true -> le a c = true) ->
  StronglySorted (fun a b => le a b = true) l ->
  StronglySorted (fun a b => le a b = true) (insert_by le x l).
Proof.
  intros Htot Htrans. induction l as [|y l IH]; intros Hs; simpl.
  - constructor; constructor.
  - apply StronglySorted_inv in Hs. destruct Hs as [Hl Hy].
    destruct (le x y) eqn:E.
    + constructor; [constructor; assumption|].
      constructor; [exact E|].
      eapply Forall_impl; [exact Hy|]. intros z Hz. simpl in Hz. eauto.
    + constructor; [apply IH; exact Hl|].
      assert (Hyx : le y x = true)
        by (destruct (Htot x y) as [H|H]; [congruence|exact H]).
      rewrite (insert_by_perm le x l). constructor; assumption.
Qed.

Lemma sort_by_sorted {A} (le : A -> A -> bool) l :
  (forall a b, le a b = true \/ le b a = true) ->
  (forall a b c, le a b = true -> le b c = true -> le a c = true) ->
  StronglySorted (fun a b => le a b = true) (sort_by le l).
Proof.
  intros Htot Htrans. unfold sort_by.
  induction l as [|x l IH]; simpl; [constructor|].
  apply insert_by_sorted; assumption.
Qed.

Lemma NoDup_fmap_filter {A B} (f : A -> B) (p : A -> bool) l :
  NoDup (f <$> l) -> NoDup (f <$> List.filter p l).
Proof.
  induction l as [|x l IH]; simpl; [auto|].
  rewrite NoDup_cons. intros [Hx Hl].
  destruct (p x); [|auto].
  rewrite fmap_cons, NoDup_cons. split; [|auto].
  intros Hin. apply Hx. apply list_elem_of_fmap in Hin.
  destruct Hin as (y & -> & Hy). apply list_elem_of_fmap.
  exists y. split; [reflexivity|].
  apply list_elem_of_In. apply list_elem_of_In in Hy.
  apply filter_In in Hy. tauto.
Qed.

Lemma null_first_le_total a b :
  null_first_le a b = true \/ null_first_le b a = true.
Proof.
  destruct a as [x|], b as [y|]; simpl; auto.
  destruct (Z.leb_spec x y); [auto|]. right. apply Z.leb_le. lia.
Qed.

Lemma null_first_le_trans a b c :
  null_first_le a b = true -> null_first_le b c = true ->
  null_first_le a c = true.
Proof.
  destruct a as [x|], b as [y|], c as [z|]; simpl;
    try congruence; rewrite !Z.leb_le; lia.
Qed.

(** X1.  On a working storage engine [get_threads_ready_for_bump]
    returns, without changing the database, exactly the rows with
    [is_active = 1] and a [next_bump_time] that is not NULL and not after
    the clock reading; each thread occurs once, and the list is in
    ascending order of [next_bump_time]. *)
Theorem ready_threads_due_and_ordered env w :
  storage_ok env ->
  let now := clock env (ticks w) in
  exists ready w',
    get_threads_ready_for_bump env w = (Return ready, w') /\
    db w' = db w /\
    (forall tid r,
        (tid, r) ∈ ready <->
        threads (db w) !! tid = Some r /\ is_active r = 1 /\
        exists n, next_bump_time r = Some n /\ n <= now) /\
    NoDup (thread_id <$> ready) /\
    StronglySorted
      (fun a b => forall x y, next_bump_time (columns a) = Some x ->
                              next_bump_time (columns b) = Some y -> x <= y)
      ready.
Proof.
  intros Hsql now.
  eexists _, _. split; [apply get_threads_ready_for_bump_run; assumption|].
  fold now. split; [reflexivity|].
  unfold select_ready_threads.
  split; [|split].
  - intros tid r. rewrite sort_by_perm.
    rewrite list_elem_of_In, filter_In, <- list_elem_of_In.
    rewrite elem_of_map_to_list. unfold ready_for_bump.
    cbn [columns snd]. rewrite andb_true_iff, Z.eqb_eq.
    split.
    + intros (Hr & Ha & Hn). split; [exact Hr|]. split; [exact Ha|].
      destruct (next_bump_time r) as [n|]; [|discriminate Hn].
      exists n. split; [reflexivity|]. apply Z.leb_le. exact Hn.
    + intros (Hr & Ha & n & Hn & Hle). split; [exact Hr|].
      split; [exact Ha|]. rewrite Hn. apply Z.leb_le. exact Hle.
  - rewrite sort_by_perm. apply NoDup_fmap_filter.
    apply NoDup_fst_map_to_list.
  - eapply StronglySorted_weaken;
      [|apply sort_by_sorted;
        [intros a b; apply null_first_le_total
        |intros a b c; apply null_first_le_trans]].
    intros a b Hab x y Hx Hy. simpl in Hab. rewrite Hx, Hy in Hab.
    apply Z.leb_le. exact Hab.
Qed.

Lemma ready_threads_due_and_ordered_witness :
  let env := Sample.env Sample.ok_reply Sample.no_info in
  let w := Sample.world 0 in
  storage_ok env /\
  exists ready w',
    get_threads_ready_for_bump env w = (Return ready, w') /\
    db w' = db w /\
    ((7, Sample.row 0) ∈ ready <->
     threads (db w) !! 7 = Some (Sample.row 0) /\
     is_active (Sample.row 0) = 1 /\
     exists n, next_bump_time (Sample.row 0) = Some n /\ n <= 1000) /\
    NoDup (thread_id <$> ready).
Proof.
  assert (Hs : storage_ok (Sample.env Sample.ok_reply Sample.no_info))
    by (intro k; reflexivity).
  split; [exact Hs|].
  destruct (ready_threads_due_and_ordered _ (Sample.world 0) Hs)
    as (ready & w' & Hrun & Hdb & Hin & Hnd & _).
  exists ready, w'. split; [exact Hrun|]. split; [exact Hdb|].
  split; [apply Hin|exact Hnd].
Defined.

(** X2.  On a working storage engine [get_all_threads] returns, without
    changing the database, every row of [threads] and nothing else, in
    strictly increasing order of [thread_id]. *)
Theorem all_threads_listed_by_id env w :
  storage_ok env ->
  exists all w',
    get_all_threads env w = (Return all, w') /\
    db w' = db w /\
    (forall tid r, (tid, r) ∈ all <-> threads (db w) !! tid = Some r) /\
    length all = size (threads (db w)) /\
    StronglySorted (fun a b => thread_id a < thread_id b) all.
Proof.
  intros Hsql.
  eexists _, _. split; [apply get_all_threads_run; assumption|].
  split; [reflexivity|].
  split; [intros tid r; apply elem_of_select_all_threads|].
  split.
  { unfold select_all_threads. rewrite sort_by_perm.
    apply length_map_to_list. }
  assert (Hnd : NoDup (thread_id <$> select_all_threads (db w))).
  { unfold select_all_threads. rewrite sort_by_perm.
    apply NoDup_fst_map_to_list. }
  assert (Hs : StronglySorted (fun a b => thread_id a <= thread_id b)
                 (select_all_threads (db w))).
  { unfold select_all_threads.
    eapply StronglySorted_weaken;
      [|apply sort_by_sorted with (le := fun a b => thread_id a <=? thread_id b)].
    - intros a b Hab. apply Z.leb_le. exact Hab.
    - intros a b. rewrite !Z.leb_le. lia.
    - intros a b c. rewrite !Z.leb_le. lia. }
  revert Hnd Hs. generalize (select_all_threads (db w)).
  induction l as [|a l IH]; intros Hnd Hs; [constructor|].
  rewrite fmap_cons, NoDup_cons in Hnd. destruct Hnd as [Ha Hnd].
  apply StronglySorted_inv in Hs. destruct Hs as [Hs Hall].
  constructor; [apply IH; assumption|].
  rewrite Forall_forall in Hall. apply Forall_forall. intros b Hb.
  specialize (Hall b Hb). simpl in Hall.
  assert (thread_id a <> thread_id b).
  { intros Heq. apply Ha. rewrite Heq. apply list_elem_of_fmap.
    exists b. split; [reflexivity|]. exact Hb. }
  lia.
Qed.

Lemma all_threads_listed_by_id_witness :
  let env := Sample.env Sample.ok_reply Sample.no_info in
  let w := Sample.world 0 in
  storage_ok env /\
  exists all w',
    get_all_threads env w = (Return all, w') /\
    db w' = db w /\ length all = size (threads (db w)) /\
    StronglySorted (fun a b => thread_id a < thread_id b) all.
Proof.
  assert (Hs : storage_ok (Sample.env Sample.ok_reply Sample.no_info))
    by (intro k; reflexivity).
  split; [exact Hs|].
  destruct (all_threads_listed_by_id _ (Sample.world 0) Hs)
    as (all & w' & Hrun & Hdb & _ & Hlen & Hsorted).
  exists all, w'. auto.
Defined.

(** ** Reads, writes and the rows they touch *)

Lemma elem_of_select_ready_threads now s tid r :
  (tid, r) ∈ select_ready_threads now s <->
  threads s !! tid = Some r /\ is_active r = 1 /\
  exists n, next_bump_time r = Some n /\ n <= now.
Proof.
  unfold select_ready_threads. rewrite sort_by_perm.
  rewrite list_elem_of_In, filter_In, <- list_elem_of_In.
  rewrite elem_of_map_to_list. unfold ready_for_bump.
  cbn [columns snd]. rewrite andb_true_iff, Z.eqb_eq.
  split.
  - intros (Hr & Ha & Hn). split; [exact Hr|]. split; [exact Ha|].
    destruct (next_bump_time r) as [n|]; [|discriminate Hn].
    exists n. split; [reflexivity|]. apply Z.leb_le. exact Hn.
  - intros (Hr & Ha & n & Hn & Hle). split; [exact Hr|].
    split; [exact Ha|]. rewrite Hn. apply Z.leb_le. exact Hle.
Qed.

Ltac run_db :=
  unfold upsert_thread;
  unfold get_thread, get_all_threads, get_threads_ready_for_bump, get_stats,
    _init_db, record_bump_success, record_bump_failure,
    activate_thread, deactivate_thread, reset_consecutive_failures,
    cleanup_old_history, _get_connection, execute, execute_rowcount, fetch,
    time_time, logger, bind, ret, world_of, result_of;
  cbn -[pretty Z.add Z.sub Z.mul Z.ltb select_all_threads
        select_ready_threads select_thread_totals select_history_totals
        sql_delete_old_history].

Ltac split_faults env :=
  repeat match goal with
    | |- context [match sql_fault env ?k with _ => _ end] =>
        destruct (sql_fault env k);
        cbn -[pretty Z.add Z.sub Z.mul Z.ltb select_all_threads
              select_ready_threads select_thread_totals
              select_history_totals sql_delete_old_history]
    end.

(** X3.  The reading methods [get_thread], [get_all_threads],
    [get_threads_ready_for_bump] and [get_stats], and the table creation
    in [_init_db], never change the stored data, whether the storage
    engine works or raises. *)
Theorem queries_never_write env tid w :
  db (world_of (get_thread env tid w)) = db w /\
  db (world_of (get_all_threads env w)) = db w /\
  db (world_of (get_threads_ready_for_bump env w)) = db w /\
  db (world_of (get_stats env w)) = db w /\
  db (world_of (_init_db env w)) = db w.
Proof.
  repeat split; run_db; split_faults env; reflexivity.
Qed.

(** X4.  A method of [Database] called for one [thread_id] never changes
    the row of another thread, and [upsert_thread], [activate_thread],
    [deactivate_thread] and [reset_consecutive_failures] never change the
    history; this holds whether the storage engine works or raises. *)
Theorem writes_touch_one_thread env tid other kwargs msg nxt w :
  other <> tid ->
  let row_kept (m : M unit) :=
    threads (db (world_of (m w))) !! other = threads (db w) !! other in
  let history_kept (m : M unit) :=
    bump_history (db (world_of (m w))) = bump_history (db w) in
  row_kept (upsert_thread env tid kwargs) /\
  row_kept (record_bump_success env tid msg nxt) /\
  row_kept (record_bump_failure env tid msg nxt) /\
  row_kept (activate_thread env tid) /\
  row_kept (deactivate_thread env tid) /\
  row_kept (reset_consecutive_failures env tid) /\
  history_kept (upsert_thread env tid kwargs) /\
  history_kept (activate_thread env tid) /\
  history_kept (deactivate_thread env tid) /\
  history_kept (reset_consecutive_failures env tid).
Proof.
  intros Hne row_kept history_kept. subst row_kept history_kept. cbv beta.
  assert (Ha : forall f (m : gmap Z Row), alter f tid m !! other = m !! other)
    by (intros; apply lookup_alter_ne; congruence).
  assert (Hi : forall r (m : gmap Z Row), <[tid := r]> m !! other = m !! other)
    by (intros; apply lookup_insert_ne; congruence).
  assert (Hup : forall w0 : World,
             threads (db (world_of (upsert_thread env tid kwargs w0))) !! other
             = threads (db w0) !! other /\
             bump_history (db (world_of (upsert_thread env tid kwargs w0)))
             = bump_history (db w0)).
  { intros w0. run_db.
    destruct (sql_fault env (stmts w0)); cbn; [auto|].
    unfold select_thread, sql_update_threads, sql_insert_threads.
    destruct (threads (db w0) !! tid) eqn:E; cbn;
      destruct (sql_fault env (S (stmts w0))); cbn; rewrite ?E; cbn; auto. }
  split; [apply Hup|].
  split; [run_db; split_faults env; auto|].
  split; [run_db; split_faults env; auto|].
  split; [run_db; split_faults env; auto|].
  split; [run_db; split_faults env; auto|].
  split; [run_db; split_faults env; auto|].
  split; [apply Hup|].
  repeat split; run_db; split_faults env; reflexivity.
Qed.

Lemma writes_touch_one_thread_witness :
  let env := Sample.env Sample.ok_reply Sample.no_info in
  let w := Sample.world 0 in
  8 <> 7 /\
  threads (db (world_of (deactivate_thread env 8 w))) !! 7
  = threads (db w) !! 7 /\
  bump_history (db (world_of (upsert_thread env 8 [] w)))
  = bump_history (db w).
Proof.
  assert (Hne : 7 <> 8) by discriminate.
  split; [discriminate|].
  destruct (writes_touch_one_thread
              (Sample.env Sample.ok_reply Sample.no_info)
              8 7 [] "" None (Sample.world 0) Hne)
    as (_ & _ & _ & _ & Hd & _ & Hu & _).
  split; [exact Hd|exact Hu].
Defined.

Section MaintenanceRuns.

Variable env : Env.
Hypothesis Hsql : storage_ok env.

Lemma reset_consecutive_failures_run tid w :
  reset_consecutive_failures env tid w =
  (Return tt,
   set_db (with_threads
             (alter (set_failures_reset (clock env (ticks w))) tid
                    (threads (db w)))
             (db w))
          (set_stmts (S (stmts w)) (set_ticks (S (ticks w)) w))).
Proof.
  unfold reset_consecutive_failures, time_time, _get_connection, execute, bind.
  cbn. rewrite !Hsql. reflexivity.
Qed.

End MaintenanceRuns.

(** X5.  [activate_thread], [deactivate_thread] and
    [reset_consecutive_failures] are plain UPDATEs: called with a
    [thread_id] that has no row they return normally and leave the
    database exactly as it was; no row is created. *)
Theorem updates_create_no_row env tid w :
  storage_ok env ->
  threads (db w) !! tid = None ->
  (exists w', activate_thread env tid w = (Return tt, w') /\ db w' = db w) /\
  (exists w', deactivate_thread env tid w = (Return tt, w') /\ db w' = db w) /\
  (exists w', reset_consecutive_failures env tid w = (Return tt, w') /\
              db w' = db w).
Proof.
  intros Hsql Hnone.
  assert (Hid : forall f, with_threads (alter f tid (threads (db w))) (db w)
                          = db w).
  { intros f. rewrite alter_id' by assumption. destruct (db w). reflexivity. }
  split; [|split]; eexists;
    (split; [first [ apply activate_thread_run
                   | apply deactivate_thread_run
                   | apply reset_consecutive_failures_run ]; assumption|]);
    cbn [db set_db]; apply Hid.
Qed.

Lemma updates_create_no_row_witness :
  let env := Sample.env Sample.ok_reply Sample.no_info in
  let w := Sample.world 0 in
  storage_ok env /\ threads (db w) !! 9 = None /\
  exists w', deactivate_thread env 9 w = (Return tt, w') /\ db w' = db w.
Proof.
  assert (Hs : storage_ok (Sample.env Sample.ok_reply Sample.no_info))
    by (intro k; reflexivity).
  assert (Hn : threads (db (Sample.world 0)) !! 9 = None) by reflexivity.
  split; [exact Hs|]. split; [exact Hn|].
  exact (proj1 (proj2 (updates_create_no_row _ 9 _ Hs Hn))).
Defined.

(** X6.  After [deactivate_thread] the thread is no longer returned by
    [get_threads_ready_for_bump], whatever its [next_bump_time], while the
    other threads are returned exactly as they would have been; the row
    itself keeps every column except [is_active] and [updated_at]. *)
Theorem deactivated_thread_is_not_ready env tid r w :
  storage_ok env ->
  threads (db w) !! tid = Some r ->
  let now := clock env (S (ticks w)) in
  exists w1 ready w2 r',
    deactivate_thread env tid w = (Return tt, w1) /\
    get_threads_ready_for_bump env w1 = (Return ready, w2) /\
    (tid ∉ thread_id <$> ready) /\
    (forall other ro, other <> tid ->
       ((other, ro) ∈ ready <-> (other, ro) ∈ select_ready_threads now (db w))) /\
    threads (db w1) !! tid = Some r' /\
    is_active r' = 0 /\
    (forall c, c <> col_is_active -> c <> col_updated_at ->
               field c r' = field c r).
Proof.
  intros Hsql Hr now.
  eexists _, _, _, (set_inactive (clock env (ticks w)) r).
  split; [apply deactivate_thread_run; assumption|].
  split; [apply get_threads_ready_for_bump_run; assumption|].
  cbn [db set_db ticks set_stmts set_ticks]. fold now.
  split; [|split; [|split; [|split]]].
  - intros Hin. apply list_elem_of_fmap in Hin.
    destruct Hin as ([k ro] & Hk & Hin). simpl in Hk. subst k.
    apply elem_of_select_ready_threads in Hin.
    destruct Hin as (Hlook & Hact & _).
    cbn [threads with_threads] in Hlook.
    rewrite lookup_alter_eq, Hr in Hlook. injection Hlook as <-.
    discriminate Hact.
  - intros other ro Hne. rewrite !elem_of_select_ready_threads.
    cbn [threads with_threads].
    rewrite lookup_alter_ne by congruence. reflexivity.
  - cbn [threads with_threads]. rewrite lookup_alter_eq, Hr. reflexivity.
  - reflexivity.
  - intros c Hc Hu. unfold set_inactive.
    rewrite !field_assign_other by (simpl; congruence). reflexivity.
Qed.

Lemma deactivated_thread_is_not_ready_witness :
  let env := Sample.env Sample.ok_reply Sample.no_info in
  let w := Sample.world 0 in
  storage_ok env /\ threads (db w) !! 7 = Some (Sample.row 0) /\
  exists w1 ready w2,
    deactivate_thread env 7 w = (Return tt, w1) /\
    get_threads_ready_for_bump env w1 = (Return ready, w2) /\
    7 ∉ thread_id <$> ready.
Proof.
  assert (Hs : storage_ok (Sample.env Sample.ok_reply Sample.no_info))
    by (intro k; reflexivity).
  assert (Hr : threads (db (Sample.world 0)) !! 7 = Some (Sample.row 0))
    by reflexivity.
  split; [exact Hs|]. split; [exact Hr|].
  destruct (deactivated_thread_is_not_ready _ 7 _ _ Hs Hr)
    as (w1 & ready & w2 & r' & H1 & H2 & H3 & _).
  exists w1, ready, w2. auto.
Defined.

(** X7.  Removing a thread and bringing it back:
    [deactivate_thread] followed by [activate_thread] leaves the row with
    [is_active = 1] and [consecutive_failures = 0]; every other column
    except [updated_at] (in particular [next_bump_time], [bump_count] and
    [last_error]) and the history are as before the removal. *)
Theorem reactivation_resets_failures env tid r w :
  storage_ok env ->
  threads (db w) !! tid = Some r ->
  exists w1 w2 r',
    deactivate_thread env tid w = (Return tt, w1) /\
    activate_thread env tid w1 = (Return tt, w2) /\
    threads (db w2) !! tid = Some r' /\
    is_active r' = 1 /\
    consecutive_failures r' = 0 /\
    updated_at r' = Some (clock env (S (ticks w))) /\
    (forall c, c <> col_is_active -> c <> col_consecutive_failures ->
               c <> col_updated_at -> field c r' = field c r) /\
    bump_history (db w2) = bump_history (db w).
Proof.
  intros Hsql Hr.
  eexists _, _,
    (set_active (clock env (S (ticks w)))
                (set_inactive (clock env (ticks w)) r)).
  split; [apply deactivate_thread_run; assumption|].
  split; [apply activate_thread_run; assumption|].
  cbn [db set_db ticks set_stmts set_ticks threads with_threads bump_history].
  split; [rewrite !lookup_alter_eq, Hr; reflexivity|].
  split; [reflexivity|]. split; [reflexivity|]. split; [reflexivity|].
  split; [|reflexivity].
  intros c H1 H2 H3. unfold set_active, set_inactive.
  rewrite !field_assign_other by (simpl; congruence). reflexivity.
Qed.

Lemma reactivation_resets_failures_witness :
  let env := Sample.env Sample.ok_reply Sample.no_info in
  let w := Sample.world 4 in
  storage_ok env /\ threads (db w) !! 7 = Some (Sample.row 4) /\
  exists w1 w2 r',
    deactivate_thread env 7 w = (Return tt, w1) /\
    activate_thread env 7 w1 = (Return tt, w2) /\
    threads (db w2) !! 7 = Some r' /\
    is_active r' = 1 /\ consecutive_failures r' = 0.
Proof.
  assert (Hs : storage_ok (Sample.env Sample.ok_reply Sample.no_info))
    by (intro k; reflexivity).
  assert (Hr : threads (db (Sample.world 4)) !! 7 = Some (Sample.row 4))
    by reflexivity.
  split; [exact Hs|]. split; [exact Hr|].
  destruct (reactivation_resets_failures _ 7 _ _ Hs Hr)
    as (w1 & w2 & r' & H1 & H2 & H3 & H4 & H5 & _).
  exists w1, w2, r'. auto.
Defined.

(** X8.  [reset_consecutive_failures] sets the counter of an existing row
    to 0 and stamps [updated_at]; every other column is kept, so the
    threads that are ready at any given time are the same before and
    after. *)
Theorem reset_keeps_schedule env tid r w :
  storage_ok env ->
  threads (db w) !! tid = Some r ->
  exists w' r',
    reset_consecutive_failures env tid w = (Return tt, w') /\
    threads (db w') !! tid = Some r' /\
    consecutive_failures r' = 0 /\
    updated_at r' = Some (clock env (ticks w)) /\
    (forall c, c <> col_consecutive_failures -> c <> col_updated_at ->
               field c r' = field c r) /\
    (forall now k,
        k ∈ thread_id <$> select_ready_threads now (db w') <->
        k ∈ thread_id <$> select_ready_threads now (db w)).
Proof.
  intros Hsql Hr.
  eexists _, (set_failures_reset (clock env (ticks w)) r).
  split; [apply reset_consecutive_failures_run; assumption|].
  cbn [db set_db threads with_threads].
  split; [rewrite lookup_alter_eq, Hr; reflexivity|].
  split; [reflexivity|]. split; [reflexivity|].
  split.
  { intros c H1 H2. unfold set_failures_reset.
    rewrite !field_assign_other by (simpl; congruence). reflexivity. }
  intros now k. rewrite !list_elem_of_fmap.
  split.
  - intros ([k' ro] & -> & Hin). apply elem_of_select_ready_threads in Hin.
    cbn [thread_id fst threads with_threads] in *.
    destruct Hin as (Hlook & Hact & Hdue).
    destruct (decide (k' = tid)) as [->|Hne].
    + rewrite lookup_alter_eq, Hr in Hlook. injection Hlook as <-.
      exists (tid, r). split; [reflexivity|].
      apply elem_of_select_ready_threads. auto.
    + rewrite lookup_alter_ne in Hlook by congruence.
      exists (k', ro). split; [reflexivity|].
      apply elem_of_select_ready_threads. auto.
  - intros ([k' ro] & -> & Hin). apply elem_of_select_ready_threads in Hin.
    cbn [thread_id fst] in *.
    destruct Hin as (Hlook & Hact & Hdue).
    destruct (decide (k' = tid)) as [->|Hne].
    + rewrite Hr in Hlook. injection Hlook as <-.
      exists (tid, set_failures_reset (clock env (ticks w)) r).
      split; [reflexivity|]. apply elem_of_select_ready_threads.
      cbn [threads with_threads]. rewrite lookup_alter_eq, Hr. auto.
    + exists (k', ro). split; [reflexivity|].
      apply elem_of_select_ready_threads.
      cbn [threads with_threads]. rewrite lookup_alter_ne by congruence.
      auto.
Qed.

Lemma reset_keeps_schedule_witness :
  let env := Sample.env Sample.ok_reply Sample.no_info in
  let w := Sample.world 4 in
  storage_ok env /\ threads (db w) !! 7 = Some (Sample.row 4) /\
  exists w' r',
    reset_consecutive_failures env 7 w = (Return tt, w') /\
    threads (db w') !! 7 = Some r' /\
    consecutive_failures r' = 0 /\
    field col_next_bump_time r' = field col_next_bump_time (Sample.row 4).
Proof.
  assert (Hs : storage_ok (Sample.env Sample.ok_reply Sample.no_info))
    by (intro k; reflexivity).
  assert (Hr : threads (db (Sample.world 4)) !! 7 = Some (Sample.row 4))
    by reflexivity.
  split; [exact Hs|]. split; [exact Hr|].
  destruct (reset_keeps_schedule _ 7 _ _ Hs Hr)
    as (w' & r' & H1 & H2 & H3 & _ & H5 & _).
  exists w', r'. split; [exact H1|]. split; [exact H2|].
  split; [exact H3|]. apply H5; discriminate.
Defined.

(** ** Pruning and numbering of the history *)

Lemma sublist_filter {A} (p : A -> bool) (l : list A) :
  sublist (List.filter p l) l.
Proof.
  induction l as [|x l IH]; simpl; [constructor|].
  destruct (p x); [apply sublist_skip|apply sublist_cons]; exact IH.
Qed.

Lemma filter_all {A} (p : A -> bool) (l : list A) :
  Forall (fun x => p x = true) l -> List.filter p l = l.
Proof.
  induction 1 as [|x l Hx _ IH]; simpl; [reflexivity|].
  rewrite Hx, IH. reflexivity.
Qed.



Lemma history_ids_ok_appended tid now ok msg s :
  history_ids_ok s -> history_ids_ok (history_appended tid now ok msg s).
Proof.
  intros [Hs Hb]. unfold history_ids_ok, history_appended.
  cbn [bump_history history_seq]. split.
  - rewrite fmap_app. apply StronglySorted_app_2; [|exact Hs|].
    + intros a b Ha Hb'. simpl in Hb'. apply list_elem_of_singleton in Hb'.
      subst b. apply list_elem_of_fmap in Ha. destruct Ha as (h & -> & Hh).
      rewrite Forall_forall in Hb. specialize (Hb h Hh). simpl in Hb. lia.
    + simpl. repeat constructor.
  - apply Forall_app. split.
    + eapply Forall_impl; [exact Hb|]. intros h Hh. simpl in *. lia.
    + repeat constructor. simpl. lia.
Qed.

Lemma history_ids_ok_threads s f tid :
  history_ids_ok s -> history_ids_ok (with_threads (alter f tid (threads s)) s).
Proof. intros H. exact H. Qed.

Lemma StronglySorted_sublist {A} (R : A -> A -> Prop) l k :
  sublist k l -> StronglySorted R l -> StronglySorted R k.
Proof.
  induction 1 as [|x k l Hkl IH|x k l Hkl IH]; intros Hs.
  - constructor.
  - apply StronglySorted_inv in Hs. destruct Hs as [Hs Hx].
    constructor; [auto|].
    rewrite Forall_forall in *. intros y Hy. apply Hx.
    eapply elem_of_sublist; eassumption.
  - apply StronglySorted_inv in Hs. destruct Hs as [Hs _]. auto.
Qed.

(** X10.  The identifiers of [bump_history] are strictly increasing along
    the table and bounded by the AUTOINCREMENT counter; this holds in the
    empty database and is preserved by [record_bump_success],
    [record_bump_failure] and [cleanup_old_history], whether the storage
    engine works or raises.  Hence identifiers are unique and an
    identifier freed by a cleanup is never given out again. *)
Theorem history_ids_stay_increasing env tid msg nxt days w :
  history_ids_ok (db w) ->
  history_ids_ok empty_store /\
  history_ids_ok (db (world_of (record_bump_success env tid msg nxt w))) /\
  history_ids_ok (db (world_of (record_bump_failure env tid msg nxt w))) /\
  history_ids_ok (db (world_of (cleanup_old_history env days w))).
Proof.
  intros Hok.
  split; [split; constructor|].
  split; [|split].
  - unfold record_bump_success, time_time, _get_connection, execute, bind,
      world_of. cbn.
    destruct (sql_fault env (stmts w)); cbn; [exact Hok|].
    destruct (sql_fault env (S (stmts w))); cbn; [exact Hok|].
    apply (history_ids_ok_appended tid _ 1 msg
             (with_threads _ (db w))).
    apply history_ids_ok_threads. exact Hok.
  - unfold record_bump_failure, time_time, _get_connection, execute, bind,
      world_of. cbn.
    destruct (sql_fault env (stmts w)); cbn; [exact Hok|].
    destruct (sql_fault env (S (stmts w))); cbn; [exact Hok|].
    apply (history_ids_ok_appended tid _ 0 msg
             (with_threads _ (db w))).
    apply history_ids_ok_threads. exact Hok.
  - unfold cleanup_old_history, time_time, _get_connection,
      execute_rowcount, bind, world_of. cbn -[Z.ltb Z.sub Z.mul pretty].
    destruct (sql_fault env (stmts w)); cbn -[Z.ltb Z.sub Z.mul pretty];
      [exact Hok|].
    assert (Hk : forall cutoff,
               history_ids_ok
                 {| threads := threads (db w);
                    bump_history :=
                      List.filter (fun h => negb (bump_time h <? cutoff))
                                  (bump_history (db w));
                    history_seq := history_seq (db w) |}).
    { intros cutoff. destruct Hok as [Hs Hb]. split; cbn.
      - eapply StronglySorted_sublist; [|exact Hs].
        apply fmap_sublist. apply sublist_filter.
      - rewrite Forall_forall in *. intros h Hh. apply Hb.
        apply list_elem_of_In. apply list_elem_of_In in Hh.
        apply filter_In in Hh. tauto. }
    match goal with
    | |- context [if ?b then _ else _] => destruct b
    end; unfold logger, ret; cbn -[Z.ltb Z.sub Z.mul pretty]; apply Hk.
Qed.

Lemma history_ids_stay_increasing_witness :
  let env := Sample.env Sample.ok_reply Sample.no_info in
  let w := Sample.world 0 in
  history_ids_ok (db w) /\
  history_ids_ok (db (world_of (record_bump_failure env 7 "e" None w))).
Proof.
  assert (H0 : history_ids_ok (db (Sample.world 0)))
    by (split; constructor).
  split; [exact H0|].
  exact (proj1 (proj2 (proj2
           (history_ids_stay_increasing
              (Sample.env Sample.ok_reply Sample.no_info)
              7 "e" None 30 (Sample.world 0) H0)))).
Defined.

(** ** Statistics *)

Lemma or_0_Some z : or_0 (Some z) = z.
Proof.
  unfold or_0, truthy. destruct (Z.eqb_spec z 0) as [->|]; reflexivity.
Qed.

Lemma sql_sum_total (l : list Z) : or_0 (sql_sum l) = foldr Z.add 0 l.
Proof. destruct l; [reflexivity|]. unfold sql_sum. apply or_0_Some. Qed.

(** A sum of flags 0/1 counts the flags that are 1. *)
Lemma sum_of_flags {A} (flag : A -> Z) (l : list A) :
  Forall (fun x => flag x = 0 \/ flag x = 1) l ->
  foldr Z.add 0 (flag <$> l)
  = Z.of_nat (length (List.filter (fun x => flag x =? 1) l)).
Proof.
  induction 1 as [|x l Hx _ IH]; [reflexivity|].
  rewrite fmap_cons. cbn [foldr List.filter]. rewrite IH.
  destruct Hx as [-> | ->]; simpl (_ =? _); cbv iota;
    [|rewrite length_cons]; lia.
Qed.



(** ** The two remote calls *)


(** X13.  [_get_thread_info] never raises and issues exactly one GET; it
    returns the decoded body when and only when the reply has status 200,
    and [None] for every other status and for every exception; the
    database and the running flag are left alone. *)
Theorem thread_info_only_on_200 env tid w :
  exists o w1,
    _get_thread_info env tid w = (Return o, w1) /\
    db w1 = db w /\ running w1 = running w /\
    requests w1 = requests w ++ [GET_thread tid] /\
    (forall body,
        o = Some body <->
        http_get env (length (requests w)) tid = GetResponse 200 body).
Proof.
  destruct (get_thread_info_run env tid w)
    as (w1 & Hrun & Hdb & _ & _ & _ & Hru & Hre).
  eexists _, w1. split; [exact Hrun|].
  split; [exact Hdb|]. split; [exact Hru|]. split; [exact Hre|].
  intros body. unfold info_of.
  destruct (http_get env (length (requests w)) tid) as [e|st b].
  - split; discriminate.
  - destruct (Z.eqb_spec st 200) as [->|Hne].
    + split; intros H; injection H as ->; reflexivity.
    + split; [discriminate|]. intros H. injection H as H _. contradiction.
Qed.

(** ** More on the outcomes of [process_thread] *)

Lemma classify_200_ok data :
  d_status data = Some "ok" -> classify (PostResponse 200 data) = Success.
Proof.
  intros H. unfold classify. rewrite H.
  rewrite (bool_decide_eq_true_2 (Some "ok" = Some "ok")) by reflexivity.
  reflexivity.
Qed.

Lemma classify_403_errors data m errs :
  d_errors data = Some (m :: errs) ->
  classify (PostResponse 403 data) = Cooldown.
Proof.
  intros H. unfold classify. rewrite H.
  rewrite (bool_decide_eq_true_2 (is_Some (Some (m :: errs)))) by eauto.
  reflexivity.
Qed.

Lemma bump_thread_success_message cfg env tid w data r w1 :
  http_post env (length (requests w)) tid = PostResponse 200 data ->
  d_status data = Some "ok" ->
  _bump_thread cfg env tid w = (Return r, w1) ->
  res_message r = default "Bumped" (d_message data).
Proof.
  intros Hp Hok. run_bump. rewrite Hp. eval_world. rewrite Hok.
  rewrite (bool_decide_eq_true_2 (Some "ok" = Some "ok")) by reflexivity.
  replace (200 =? 200) with true by reflexivity. eval_world.
  intros H. injection H as <- _. reflexivity.
Qed.

Lemma bump_thread_cooldown_message cfg env tid w data m errs r w1 :
  http_post env (length (requests w)) tid = PostResponse 403 data ->
  d_errors data = Some (m :: errs) ->
  _bump_thread cfg env tid w = (Return r, w1) ->
  res_message r = m.
Proof.
  intros Hp He.
  unfold _bump_thread, try_except, session_post, bind.
  rewrite Hp. cbn [fst snd]. rewrite He.
  rewrite (bool_decide_eq_true_2 (is_Some (Some (m :: errs)))) by eauto.
  change (getitem (default [] (Some (m :: errs))) 0) with (Some m).
  replace ((403 =? 200) && bool_decide (d_status data = Some "ok"))
    with false by reflexivity.
  replace ((403 =? 403) && true) with true by reflexivity.
  cbv beta iota.
  destruct (get_thread_info_run env tid
              (set_requests (requests w ++ [POST_bump tid]) w))
    as (wi & Hrun & _).
  rewrite Hrun.
  destruct (reported_next_time _); unfold time_time, ret, bind;
    intros H; injection H as <- _; reflexivity.
Qed.





(** X16.  The failure counter stays within bounds: if the stored count of
    a tracked thread is at least 0 and the configured maximum is at least
    1, then after [process_thread], whatever the reply, the stored count
    is at least 0 and strictly below the maximum. *)
Theorem failures_stay_below_maximum cfg env t w :
  storage_ok env ->
  threads (db w) !! thread_id t = Some (columns t) ->
  0 <= consecutive_failures (columns t) ->
  0 < MAX_CONSECUTIVE_FAILURES cfg ->
  exists res w' r',
    process_thread cfg env t w = (res, w') /\
    threads (db w') !! thread_id t = Some r' /\
    0 <= consecutive_failures r' < MAX_CONSECUTIVE_FAILURES cfg.
Proof.
  intros Hsql Hrow Hf Hmax.
  destruct (classify (http_post env (length (requests w)) (thread_id t)))
    eqn:Hclass.
  - destruct (process_thread_on_success cfg env t w _ Hsql Hrow Hclass)
      as (res & w' & r' & nb & Hrun & Hr' & _ & Hcf & _).
    exists (Return res), w', r'. split; [exact Hrun|].
    split; [exact Hr'|]. lia.
  - destruct (process_thread_on_cooldown cfg env t w _ Hsql Hrow Hclass)
      as (res & w' & r' & Hrun & Hr' & Hcf & _).
    exists (Return res), w', r'. split; [exact Hrun|].
    split; [exact Hr'|]. lia.
  - destruct (process_thread_counted_as_failure cfg env Hsql t w Hrow)
      as (res & w' & r' & msg & Hrun & Hr' & _ & _ & _ & _ & _ & Hbranch);
      [rewrite Hclass; reflexivity|].
    exists res, w', r'. split; [exact Hrun|]. split; [exact Hr'|].
    destruct (Z.leb_spec (MAX_CONSECUTIVE_FAILURES cfg)
                (consecutive_failures (columns t) + 1)).
    + destruct Hbranch as (-> & _). lia.
    + destruct (getitem _ _).
      * destruct Hbranch as (_ & -> & _). lia.
      * destruct Hbranch as (_ & _ & ->). lia.
  - destruct (process_thread_counted_as_failure cfg env Hsql t w Hrow)
      as (res & w' & r' & msg & Hrun & Hr' & _ & _ & _ & _ & _ & Hbranch);
      [rewrite Hclass; reflexivity|].
    exists res, w', r'. split; [exact Hrun|]. split; [exact Hr'|].
    destruct (Z.leb_spec (MAX_CONSECUTIVE_FAILURES cfg)
                (consecutive_failures (columns t) + 1)).
    + destruct Hbranch as (-> & _). lia.
    + destruct (getitem _ _).
      * destruct Hbranch as (_ & -> & _). lia.
      * destruct Hbranch as (_ & _ & ->). lia.
  - destruct (process_thread_counted_as_failure cfg env Hsql t w Hrow)
      as (res & w' & r' & msg & Hrun & Hr' & _ & _ & _ & _ & _ & Hbranch);
      [rewrite Hclass; reflexivity|].
    exists res, w', r'. split; [exact Hrun|]. split; [exact Hr'|].
    destruct (Z.leb_spec (MAX_CONSECUTIVE_FAILURES cfg)
                (consecutive_failures (columns t) + 1)).
    + destruct Hbranch as (-> & _). lia.
    + destruct (getitem _ _).
      * destruct Hbranch as (_ & -> & _). lia.
      * destruct Hbranch as (_ & _ & ->). lia.
Qed.

Lemma failures_stay_below_maximum_witness :
  let env := Sample.env (Sample.reply 500) Sample.no_info in
  let w := Sample.world 9 in
  storage_ok env /\
  threads (db w) !! 7 = Some (Sample.row 9) /\
  0 <= consecutive_failures (Sample.row 9) /\
  0 < MAX_CONSECUTIVE_FAILURES Sample.cfg /\
  exists res w' r',
    process_thread Sample.cfg env (7, Sample.row 9) w = (res, w') /\
    threads (db w') !! 7 = Some r' /\
    0 <= consecutive_failures r' < 10.
Proof.
  assert (Hs : storage_ok (Sample.env (Sample.reply 500) Sample.no_info))
    by (intro k; reflexivity).
  assert (Hf : 0 <= consecutive_failures (Sample.row 9)) by (simpl; lia).
  assert (Hm : 0 < MAX_CONSECUTIVE_FAILURES Sample.cfg) by reflexivity.
  split; [exact Hs|]. split; [reflexivity|]. split; [exact Hf|].
  split; [exact Hm|].
  exact (failures_stay_below_maximum Sample.cfg _ (7, Sample.row 9)
           (Sample.world 9) Hs eq_refl Hf Hm).
Defined.

(** ** What the service never does *)

Section KeepsData.

Variable cfg : Config.
Variable env : Env.

Lemma keeps_same {A} (m : M A) :
  (forall w, db (world_of (m w)) = db w /\
             (running (world_of (m w)) = true -> running w = true)) ->
  keeps_data m.
Proof.
  intros H w. destruct (H w) as [Hdb Hru]. rewrite Hdb.
  split; [auto|]. split; [exists []; symmetry; apply app_nil_r|exact Hru].
Qed.

Lemma keeps_ret {A} (a : A) : keeps_data (ret a).
Proof. apply keeps_same. intros w. split; [reflexivity|auto]. Qed.

Lemma keeps_raise {A} (e : Exn) : keeps_data (@raise A e).
Proof. apply keeps_same. intros w. split; [reflexivity|auto]. Qed.

Lemma keeps_logger lvl text : keeps_data (logger lvl text).
Proof. apply keeps_same. intros w. split; [reflexivity|auto]. Qed.

Lemma keeps_time_time : keeps_data (time_time env).
Proof. apply keeps_same. intros w. split; [reflexivity|auto]. Qed.

Lemma keeps_randint a b : keeps_data (randint env a b).
Proof. apply keeps_same. intros w. split; [reflexivity|auto]. Qed.

Lemma keeps_is_running : keeps_data is_running.
Proof. apply keeps_same. intros w. split; [reflexivity|auto]. Qed.

Lemma keeps_lower_flag :
  keeps_data (fun w : World => (Return tt, set_running false w)).
Proof.
  apply keeps_same. intros w. split; [reflexivity|].
  unfold world_of; simpl. discriminate.
Qed.

Lemma keeps_send_message msg : keeps_data (send_message env msg).
Proof.
  apply keeps_same. intros w. unfold send_message, world_of.
  destruct (tg_fault env (length (sent w))); simpl; auto.
Qed.

Lemma keeps_session_get tid : keeps_data (session_get env tid).
Proof.
  apply keeps_same. intros w. unfold session_get, world_of.
  destruct (http_get env (length (requests w)) tid); simpl; auto.
Qed.

Lemma keeps_session_post tid : keeps_data (session_post env tid).
Proof.
  apply keeps_same. intros w. unfold session_post, world_of.
  destruct (http_post env (length (requests w)) tid); simpl; auto.
Qed.

Lemma keeps_fetch {A} (select : Store -> A) : keeps_data (fetch env select).
Proof.
  apply keeps_same. intros w. unfold fetch, world_of.
  destruct (sql_fault env (stmts w)); simpl; auto.
Qed.

Lemma keeps_execute stmt : stmt_keeps_data stmt -> keeps_data (execute env stmt).
Proof.
  intros Hstmt w. unfold execute, world_of.
  destruct (sql_fault env (stmts w)); simpl;
    [split; [auto|]; split; [exists []; symmetry; apply app_nil_r|auto]|].
  destruct (stmt (db w)) as [e|s'] eqn:E; simpl;
    [split; [auto|]; split; [exists []; symmetry; apply app_nil_r|auto]|].
  destruct (Hstmt _ _ E) as [Hrows Hhist]. auto.
Qed.

Lemma keeps_bind {A B} (m : M A) (k : A -> M B) :
  keeps_data m -> (forall a, keeps_data (k a)) -> keeps_data (bind m k).
Proof.
  intros Hm Hk w. specialize (Hm w). unfold bind, world_of in *.
  destruct (m w) as [[a|e] w1]; simpl in Hm; [|exact Hm].
  specialize (Hk a w1). unfold world_of in Hk.
  destruct (k a w1) as [r w2]; simpl in *.
  destruct Hm as (H1 & [l1 H2] & H3). destruct Hk as (K1 & [l2 K2] & K3).
  split; [auto|].
  split; [exists (l1 ++ l2); rewrite K2, H2, app_assoc; reflexivity|auto].
Qed.

Lemma keeps_try_except {A} (m : M A) (h : Exn -> M A) :
  keeps_data m -> (forall e, keeps_data (h e)) -> keeps_data (try_except m h).
Proof.
  intros Hm Hh w. specialize (Hm w). unfold try_except, world_of in *.
  destruct (m w) as [[a|e] w1]; simpl in Hm; [exact Hm|].
  specialize (Hh e w1). unfold world_of in Hh.
  destruct (h e w1) as [r w2]; simpl in *.
  destruct Hm as (H1 & [l1 H2] & H3). destruct Hh as (K1 & [l2 K2] & K3).
  split; [auto|].
  split; [exists (l1 ++ l2); rewrite K2, H2, app_assoc; reflexivity|auto].
Qed.

Lemma keeps_when b (m : M unit) : keeps_data m -> keeps_data (when b m).
Proof. intros H. destruct b; simpl; [exact H|apply keeps_ret]. Qed.

(** Leaving the block by an exception restores the contents found at its
    entry: nothing is lost that way either. *)
Lemma keeps_get_connection {A} (body : M A) :
  keeps_data body -> keeps_data (_get_connection body).
Proof.
  intros Hb w. specialize (Hb w). unfold _get_connection, world_of in *.
  destruct (body w) as [[a|e] w1]; simpl in *; [exact Hb|].
  destruct Hb as (_ & _ & H3).
  split; [auto|]. split; [exists []; symmetry; apply app_nil_r|exact H3].
Qed.

Lemma keeps_for_each {A} (xs : list A) (body : A -> M unit) :
  (forall x, keeps_data (body x)) -> keeps_data (for_each xs body).
Proof.
  intros H. induction xs as [|x xs IH]; simpl; [apply keeps_ret|].
  apply keeps_bind; [apply H|intros _; exact IH].
Qed.

Lemma keeps_traverse {A B} (f : A -> M B) (l : list A) :
  (forall x, keeps_data (f x)) -> keeps_data (traverse f l).
Proof.
  intros H. induction l as [|x l IH]; simpl; [apply keeps_ret|].
  apply keeps_bind; [apply H|intros y].
  apply keeps_bind; [exact IH|intros ys; apply keeps_ret].
Qed.

Lemma keeps_filter_m {A} (p : A -> M bool) (l : list A) :
  (forall x, keeps_data (p x)) -> keeps_data (filter_m p l).
Proof.
  intros H. induction l as [|x l IH]; simpl; [apply keeps_ret|].
  apply keeps_bind; [apply H|intros y].
  apply keeps_bind; [exact IH|intros ys; apply keeps_ret].
Qed.

Lemma update_keeps_data tid f : stmt_keeps_data (sql_update_threads tid f).
Proof.
  intros s s' H. injection H as <-. cbn. split.
  - intros k Hk. rewrite lookup_alter.
    destruct (decide (tid = k)) as [->|]; [|exact Hk].
    apply fmap_is_Some. exact Hk.
  - exists []. symmetry. apply app_nil_r.
Qed.

Lemma insert_keeps_data tid r : stmt_keeps_data (sql_insert_threads tid r).
Proof.
  intros s s'. unfold sql_insert_threads.
  destruct (threads s !! tid) eqn:E; [discriminate|].
  intros H. injection H as <-. cbn. split.
  - intros k Hk. rewrite lookup_insert.
    destruct (decide (tid = k)); [eauto|exact Hk].
  - exists []. symmetry. apply app_nil_r.
Qed.

Lemma history_insert_keeps_data tid now ok msg :
  stmt_keeps_data (sql_insert_bump_history tid now ok msg).
Proof.
  intros s s' H. injection H as <-. cbn. split; [auto|]. eauto.
Qed.

Ltac keeps_tac :=
  repeat match goal with
    | |- keeps_data (bind _ _) => apply keeps_bind; [|intros ?]
    | |- keeps_data (ret _) => apply keeps_ret
    | |- keeps_data (raise _) => apply keeps_raise
    | |- keeps_data (logger _ _) => apply keeps_logger
    | |- keeps_data (time_time _) => apply keeps_time_time
    | |- keeps_data (randint _ _ _) => apply keeps_randint
    | |- keeps_data sleep => apply keeps_ret
    | |- keeps_data is_running => apply keeps_is_running
    | |- keeps_data (send_message _ _) => apply keeps_send_message
    | |- keeps_data (session_get _ _) => apply keeps_session_get
    | |- keeps_data (session_post _ _) => apply keeps_session_post
    | |- keeps_data (fetch _ _) => apply keeps_fetch
    | |- keeps_data (execute _ (sql_update_threads _ _)) =>
        apply keeps_execute, update_keeps_data
    | |- keeps_data (execute _ (sql_insert_threads _ _)) =>
        apply keeps_execute, insert_keeps_data
    | |- keeps_data (execute _ (sql_insert_bump_history _ _ _ _)) =>
        apply keeps_execute, history_insert_keeps_data
    | |- keeps_data (when _ _) => apply keeps_when
    | |- keeps_data (_get_connection _) => apply keeps_get_connection
    | |- keeps_data (try_except _ _) => apply keeps_try_except; [|intros ?]
    | |- keeps_data (for_each _ _) => apply keeps_for_each; intros ?
    | |- keeps_data (traverse _ _) => apply keeps_traverse; intros ?
    | |- keeps_data (filter_m _ _) => apply keeps_filter_m; intros ?
    | |- keeps_data (fun w : World => (Return tt, set_running false w)) =>
        apply keeps_lower_flag
    | |- keeps_data (match ?x with _ => _ end) => destruct x
    end.

Lemma keeps_upsert_thread tid kwargs : keeps_data (upsert_thread env tid kwargs).
Proof. unfold upsert_thread, get_thread. keeps_tac. Qed.

Lemma keeps_record_bump_success tid msg nbt :
  keeps_data (record_bump_success env tid msg nbt).
Proof. unfold record_bump_success. keeps_tac. Qed.

Lemma keeps_record_bump_failure tid msg nrt :
  keeps_data (record_bump_failure env tid msg nrt).
Proof. unfold record_bump_failure. keeps_tac. Qed.

Lemma keeps_get_thread_info tid : keeps_data (_get_thread_info env tid).
Proof. unfold _get_thread_info. keeps_tac. Qed.

Lemma keeps_bump_thread tid : keeps_data (_bump_thread cfg env tid).
Proof.
  unfold _bump_thread. cbv zeta.
  apply keeps_try_except; [|intros ?; apply keeps_ret].
  apply keeps_bind; [apply keeps_session_post|intros response].
  repeat match goal with
    | |- keeps_data (if ?b then _ else _) => destruct b
    end;
    keeps_tac; try apply keeps_get_thread_info.
Qed.

Lemma keeps_process_thread t : keeps_data (process_thread cfg env t).
Proof.
  unfold process_thread. cbv zeta.
  apply keeps_bind; [apply keeps_logger|intros _].
  apply keeps_bind; [apply keeps_bump_thread|intros r].
  apply keeps_bind; [|intros _; apply keeps_ret].
  repeat match goal with
    | |- keeps_data (if ?b then _ else _) => destruct b
    end;
    keeps_tac;
    first [ apply keeps_record_bump_success
          | apply keeps_record_bump_failure
          | apply keeps_upsert_thread ].
Qed.

Lemma keeps_dispatch ready acc : keeps_data (dispatch cfg env ready acc).
Proof.
  revert acc. induction ready as [|t rest IH]; intros acc; simpl;
    [apply keeps_ret|].
  apply keeps_bind; [apply keeps_is_running|intros go].
  destruct (negb go); [apply keeps_ret|].
  apply keeps_bind; [apply keeps_process_thread|intros res].
  apply keeps_bind; [apply keeps_ret|intros _]. apply IH.
Qed.

Lemma keeps_get_all_threads : keeps_data (get_all_threads env).
Proof. unfold get_all_threads. keeps_tac. Qed.

Lemma keeps_notify_summary results : keeps_data (_notify_summary env results).
Proof.
  unfold _notify_summary, slice_title. cbv zeta.
  apply keeps_bind; [apply keeps_get_all_threads|intros all].
  keeps_tac.
Qed.

Lemma keeps_run_cycle : keeps_data (run_cycle cfg env).
Proof.
  unfold run_cycle, get_threads_ready_for_bump.
  apply keeps_bind; [keeps_tac|intros ready].
  destruct ready; [apply keeps_ret|].
  apply keeps_bind; [apply keeps_logger|intros _].
  apply keeps_bind; [apply keeps_dispatch|intros results].
  destruct results; [apply keeps_ret|].
  apply keeps_when. apply keeps_notify_summary.
Qed.

Lemma keeps_initialize_threads : keeps_data (initialize_threads cfg env).
Proof.
  unfold initialize_threads, initialize_threads_from.
  apply keeps_bind; [apply keeps_time_time|intros now].
  apply keeps_bind; [apply keeps_get_all_threads|intros all].
  apply keeps_bind; [|intros _].
  - apply keeps_for_each. intros tid. unfold add_or_reactivate. cbv zeta.
    destruct (negb _).
    + apply keeps_bind; [apply keeps_get_thread_info|intros info].
      apply keeps_bind; [apply keeps_upsert_thread|intros _]. keeps_tac.
    + unfold activate_thread. keeps_tac.
  - apply keeps_for_each. intros t. unfold deactivate_removed. cbv zeta.
    destruct (_ && _); [|apply keeps_ret].
    unfold deactivate_thread. keeps_tac.
Qed.

Lemma keeps_while_running fuel : keeps_data (while_running cfg env fuel).
Proof.
  induction fuel as [|n IH]; simpl.
  - keeps_tac.
  - apply keeps_bind; [apply keeps_is_running|intros go].
    destruct (negb go); [apply keeps_ret|].
    apply keeps_bind; [|intros _; exact IH].
    apply keeps_try_except; [|intros e; keeps_tac].
    apply keeps_bind; [apply keeps_run_cycle|intros _; apply keeps_ret].
Qed.

Lemma keeps_bump_loop fuel : keeps_data (bump_loop cfg env fuel).
Proof.
  unfold bump_loop.
  apply keeps_bind; [apply keeps_logger|intros _].
  apply keeps_bind; [apply keeps_initialize_threads|intros _].
  apply keeps_bind; [keeps_tac|intros _].
  apply keeps_while_running.
Qed.

End KeepsData.

(** X17.  The service never deletes: along [process_thread],
    [initialize_threads], [run_cycle] and the whole [bump_loop], for any
    number of iterations and whatever the remote, Telegram and the storage
    engine do, every thread that has a row keeps a row (deactivation is
    the only removal), the history is only extended, and the running flag
    is never raised again once it is down. *)
Theorem service_never_deletes cfg env t fuel w :
  let kept (w' : World) :=
    (forall tid, is_Some (threads (db w) !! tid) ->
                 is_Some (threads (db w') !! tid)) /\
    (exists l, bump_history (db w') = bump_history (db w) ++ l) /\
    (running w' = true -> running w = true) in
  kept (world_of (process_thread cfg env t w)) /\
  kept (world_of (initialize_threads cfg env w)) /\
  kept (world_of (run_cycle cfg env w)) /\
  kept (world_of (bump_loop cfg env fuel w)).
Proof.
  intros kept. subst kept. cbv beta.
  split; [exact (keeps_process_thread cfg env t w)|].
  split; [exact (keeps_initialize_threads cfg env w)|].
  split; [exact (keeps_run_cycle cfg env w)|].
  exact (keeps_bump_loop cfg env fuel w).
Qed.

(** ** The requests of a cycle *)

Lemma bumps_app l k : bumps (l ++ k) = bumps l ++ bumps k.
Proof. unfold bumps. apply omap_app. Qed.

(** One bump request per processed thread, and one information request
    more exactly when the reply is a cooldown. *)
Lemma process_thread_requests cfg env t w :
  requests (world_of (process_thread cfg env t w)) =
  requests w ++
  POST_bump (thread_id t) ::
  match classify (http_post env (length (requests w)) (thread_id t)) with
  | Cooldown => [GET_thread (thread_id t)]
  | _ => []
  end.
Proof.
  set (class := classify _).
  assert (Hw1 : exists r w1,
             _bump_thread cfg env (thread_id t) (entered t w) = (Return r, w1) /\
             requests w1 = requests w ++ POST_bump (thread_id t) ::
                           match class with
                           | Cooldown => [GET_thread (thread_id t)]
                           | _ => []
                           end).
  { destruct class eqn:Hclass.
    - destruct (bump_thread_success cfg env (thread_id t) (entered t w) Hclass)
        as (msg & j & w1 & Hb & _ & _ & _ & _ & _ & _ & Hre). eauto.
    - destruct (bump_thread_cooldown cfg env (thread_id t) (entered t w) Hclass)
        as (msg & w1 & Hb & _ & _ & _ & _ & _ & Hre). eauto.
    - destruct (bump_thread_counted_as_failure cfg env (thread_id t)
                  (entered t w))
        as (msg & nxt & w1 & Hb & _ & _ & _ & _ & _ & _ & Hre & _);
        [cbn [requests entered set_log]; fold class; rewrite Hclass;
         reflexivity|]. eauto.
    - destruct (bump_thread_counted_as_failure cfg env (thread_id t)
                  (entered t w))
        as (msg & nxt & w1 & Hb & _ & _ & _ & _ & _ & _ & Hre & _);
        [cbn [requests entered set_log]; fold class; rewrite Hclass;
         reflexivity|]. eauto.
    - destruct (bump_thread_counted_as_failure cfg env (thread_id t)
                  (entered t w))
        as (msg & nxt & w1 & Hb & _ & _ & _ & _ & _ & _ & Hre & _);
        [cbn [requests entered set_log]; fold class; rewrite Hclass;
         reflexivity|]. eauto. }
  destruct Hw1 as (r & w1 & Hb & Hre).
  destruct (process_thread_after_bump cfg env t w r w1 Hb) as (_ & Hre' & _).
  rewrite Hre'. exact Hre.
Qed.

Lemma dispatch_cons cfg env t rest acc w :
  dispatch cfg env (t :: rest) acc w =
  if running w then
    match process_thread cfg env t w with
    | (Return res, w1) => dispatch cfg env rest (acc ++ [res]) w1
    | (Raise e, w1) => (Raise e, w1)
    end
  else (Return acc, w).
Proof.
  simpl. unfold bind, is_running, sleep, ret.
  destruct (running w); simpl; [|reflexivity].
  destruct (process_thread cfg env t w) as [[res|e] w1]; reflexivity.
Qed.

(** X18.  Each thread processed by [process_thread] costs exactly one bump
    request, followed by one information request when and only when the
    reply is a cooldown; and the loop of [run_cycle] bumps the ready
    threads one by one in the order of the ready list, never one twice and
    never one out of turn: the threads bumped are a prefix of the list,
    and when the loop returns it returns one result per bumped thread.
    This holds whatever the remote, Telegram and the storage engine do. *)
Theorem dispatch_follows_ready_order cfg env ready acc w :
  exists n,
    (n <= length ready)%nat /\
    bumps (requests (world_of (dispatch cfg env ready acc w))) =
      bumps (requests w) ++ (thread_id <$> take n ready) /\
    (forall results,
        result_of (dispatch cfg env ready acc w) = Return results ->
        length results = (length acc + n)%nat).
Proof.
  revert acc w. induction ready as [|t rest IH]; intros acc w.
  - exists 0%nat. simpl. unfold ret, world_of, result_of; simpl.
    split; [lia|]. split; [rewrite app_nil_r; reflexivity|].
    intros results H. injection H as <-. lia.
  - rewrite dispatch_cons.
    destruct (running w).
    + pose proof (process_thread_requests cfg env t w) as Hreq.
      destruct (process_thread cfg env t w) as [[res|e] w1] eqn:Hp;
        unfold world_of in Hreq; simpl in Hreq.
      * destruct (IH (acc ++ [res]) w1) as (n & Hn & Hb & Hres).
        exists (S n). split; [simpl; lia|].
        split.
        -- rewrite Hb, Hreq, bumps_app. simpl take. rewrite fmap_cons.
           rewrite <- app_assoc. f_equal.
           destruct (classify _); reflexivity.
        -- intros results H. rewrite (Hres results H), length_app.
           simpl. lia.
      * exists 1%nat. unfold world_of, result_of; simpl.
        split; [lia|]. split; [|discriminate].
        rewrite Hreq, bumps_app. f_equal.
        destruct (classify _); reflexivity.
    + exists 0%nat. unfold ret, world_of, result_of; simpl.
      split; [lia|]. split; [rewrite app_nil_r; reflexivity|].
      intros results H. injection H as <-. lia.
Qed.



(** ** The main loop *)

Lemma loop_body_returns cfg env w :
  exists w1,
    try_except (run_cycle cfg env ;; sleep)
               (fun e => logger ERROR ("Loop error: " +:+ str e) ;; sleep) w
    = (Return tt, w1).
Proof.
  unfold try_except, bind, sleep, ret, logger.
  destruct (run_cycle cfg env w) as [[[]|e] w1]; eexists; reflexivity.
Qed.

Lemma while_running_returns cfg env fuel w :
  exists e w',
    while_running cfg env fuel w = (Return e, w') /\
    (e = Stopped -> running w' = false).
Proof.
  revert w. induction fuel as [|n IH]; intros w.
  - simpl. unfold bind, is_running, ret. destruct (running w) eqn:Hr;
      eexists _, _; (split; [reflexivity|]); [discriminate|auto].
  - destruct (running w) eqn:Hr.
    + destruct (loop_body_returns cfg env w) as [w1 Hbody].
      destruct (IH w1) as (e & w' & Hrun & Hstop).
      exists e, w'. split; [|exact Hstop].
      simpl. erewrite bind_Return by (unfold is_running; reflexivity).
      rewrite Hr. cbn [negb].
      erewrite bind_Return by exact Hbody. exact Hrun.
    + exists Stopped, w. split; [|auto].
      simpl. erewrite bind_Return by (unfold is_running; reflexivity).
      rewrite Hr. reflexivity.
Qed.





(** ** The /status command *)

Lemma traverse_pure {A B} (f : A -> M B) (g : A -> B) (l : list A) w :
  (forall x, x ∈ l -> f x w = (Return (g x), w)) ->
  traverse f l w = (Return (g <$> l), w).
Proof.
  induction l as [|x l IH]; intros H; simpl; [reflexivity|].
  erewrite bind_Return by (apply H; left).
  erewrite bind_Return by (apply IH; intros y Hy; apply H; right; exact Hy).
  reflexivity.
Qed.

(** X22.  Access control of /status: when ADMIN_USER_IDS is not empty and
    the sender is not in it, the handler returns without answering and
    without opening the database: the world is exactly as before. *)
Theorem status_refused_to_strangers env admins user w :
  admins <> [] -> user ∉ admins ->
  status_handler env admins user w = (Return None, w).
Proof.
  intros Hne Hout. unfold status_handler.
  rewrite bool_decide_eq_false_2 by exact Hne.
  rewrite bool_decide_eq_false_2 by exact Hout.
  reflexivity.
Qed.

Lemma status_refused_to_strangers_witness :
  [11; 12] <> [] /\ (13 ∉ [11; 12]) /\
  status_handler locked_env [11; 12] 13 (Sample.world 0)
  = (Return None, Sample.world 0).
Proof.
  assert (H1 : [11; 12] <> @nil Z) by discriminate.
  assert (H2 : 13 ∉ [11; 12]).
  { intros H. apply elem_of_cons in H. destruct H as [H|H]; [discriminate|].
    apply elem_of_cons in H. destruct H as [H|H]; [discriminate|].
    inversion H. }
  split; [exact H1|]. split; [exact H2|].
  exact (status_refused_to_strangers locked_env [11; 12] 13 (Sample.world 0)
           H1 H2).
Defined.

(** X23.  For an admin, or for anybody when ADMIN_USER_IDS is empty, on a
    working storage engine and with no NULL [next_bump_time] among the
    active rows, /status answers with the number of active threads and
    one line per thread whose [is_active] is truthy, in increasing order
    of [thread_id]; the line of a thread is computed from its
    [next_bump_time] and the clock; the stored data are not changed. *)
Theorem status_lists_active_threads env admins user w :
  storage_ok env ->
  admins = [] \/ user ∈ admins ->
  (forall tid r, threads (db w) !! tid = Some r -> truthy (is_active r) = true ->
                 is_Some (next_bump_time r)) ->
  let now := clock env (ticks w) in
  exists lines w',
    status_handler env admins user w = (Return (Some (length lines, lines)), w') /\
    db w' = db w /\
    (forall tid st,
        (tid, st) ∈ lines <->
        exists r n, threads (db w) !! tid = Some r /\
                    truthy (is_active r) = true /\
                    next_bump_time r = Some n /\ st = status_of now n) /\
    StronglySorted Z.lt (fst <$> lines).
Proof.
  intros Hsql Hadmin Hnn now.
  set (active_rows := List.filter (fun t => truthy (is_active (columns t)))
                                  (select_all_threads (db w))).
  set (line := fun t : Z * Row =>
                 (thread_id t,
                  status_of now (default 0 (next_bump_time (columns t))))).
  assert (Hact : forall tid r, (tid, r) ∈ active_rows <->
                   threads (db w) !! tid = Some r /\
                   truthy (is_active r) = true).
  { intros tid r. subst active_rows.
    rewrite list_elem_of_In, filter_In, <- list_elem_of_In.
    rewrite elem_of_select_all_threads. reflexivity. }
  exists (line <$> active_rows). eexists.
  split.
  { unfold status_handler.
    replace (negb (bool_decide (admins = [])) && negb (bool_decide (user ∈ admins)))
      with false.
    2:{ destruct Hadmin as [H|H].
        - rewrite (bool_decide_eq_true_2 _ H). reflexivity.
        - rewrite (bool_decide_eq_true_2 (user ∈ admins) H).
          rewrite andb_false_r. reflexivity. }
    erewrite bind_Return.
    2:{ unfold _init_db, _get_connection, execute, logger, bind. cbn.
        rewrite !Hsql. reflexivity. }
    erewrite bind_Return by (apply get_all_threads_run; assumption).
    cbn [db set_db set_stmts set_log].
    erewrite bind_Return by (unfold time_time; reflexivity).
    cbn [ticks set_stmts set_log]. fold now. fold active_rows.
    erewrite bind_Return.
    2:{ apply (traverse_pure _ line). intros [tid r] Ht.
        apply Hact in Ht. destruct Ht as [Hr Ha].
        destruct (Hnn tid r Hr Ha) as [n Hn].
        subst line. cbn [columns thread_id fst snd]. rewrite Hn.
        reflexivity. }
    unfold ret. rewrite length_fmap. reflexivity. }
  cbn [db set_ticks set_stmts set_log].
  split; [reflexivity|]. split.
  - intros tid st. rewrite list_elem_of_fmap. split.
    + intros ([k r] & Heq & Hin). apply Hact in Hin.
      destruct Hin as [Hr Ha]. destruct (Hnn k r Hr Ha) as [n Hn].
      subst line. cbn [columns thread_id fst snd] in Heq. rewrite Hn in Heq.
      injection Heq as -> ->. exists r, n. auto.
    + intros (r & n & Hr & Ha & Hn & ->). exists (tid, r).
      split; [|apply Hact; auto].
      subst line. cbn [columns thread_id fst snd]. rewrite Hn. reflexivity.
  - rewrite <- list_fmap_compose.
    assert (Hs : StronglySorted (fun a b => thread_id a < thread_id b)
                   (select_all_threads (db w))).
    { assert (Hnd : NoDup (thread_id <$> select_all_threads (db w))).
      { unfold select_all_threads. rewrite sort_by_perm.
        apply NoDup_fst_map_to_list. }
      assert (Hle : StronglySorted (fun a b => thread_id a <= thread_id b)
                      (select_all_threads (db w))).
      { unfold select_all_threads.
        eapply StronglySorted_weaken;
          [|apply sort_by_sorted
              with (le := fun a b => thread_id a <=? thread_id b)].
        - intros a b Hab. apply Z.leb_le. exact Hab.
        - intros a b. rewrite !Z.leb_le. lia.
        - intros a b c. rewrite !Z.leb_le. lia. }
      revert Hnd Hle. generalize (select_all_threads (db w)).
      induction l as [|a l IH]; intros Hnd Hle; [constructor|].
      rewrite fmap_cons, NoDup_cons in Hnd. destruct Hnd as [Ha Hnd].
      apply StronglySorted_inv in Hle. destruct Hle as [Hle Hall].
      constructor; [apply IH; assumption|].
      rewrite Forall_forall in Hall. apply Forall_forall. intros b Hb.
      specialize (Hall b Hb). simpl in Hall.
      assert (thread_id a <> thread_id b).
      { intros Heq. apply Ha. rewrite Heq. apply list_elem_of_fmap.
        exists b. split; [reflexivity|exact Hb]. }
      lia. }
    apply (StronglySorted_fmap _ (fun a b => thread_id a < thread_id b)).
    + intros a b Hab. exact Hab.
    + eapply StronglySorted_sublist; [apply sublist_filter|exact Hs].
Qed.

Lemma status_lists_active_threads_witness :
  let env := Sample.env Sample.ok_reply Sample.no_info in
  let w := Sample.world 0 in
  storage_ok env /\
  exists lines w',
    status_handler env [] 13 w = (Return (Some (length lines, lines)), w') /\
    db w' = db w /\
    StronglySorted Z.lt (fst <$> lines).
Proof.
  assert (Hs : storage_ok (Sample.env Sample.ok_reply Sample.no_info))
    by (intro k; reflexivity).
  split; [exact Hs|].
  assert (Hnn : forall tid r,
             threads (db (Sample.world 0)) !! tid = Some r ->
             truthy (is_active r) = true -> is_Some (next_bump_time r)).
  { intros tid r Hr _.
    change (threads (db (Sample.world 0)))
      with (<[7 := Sample.row 0]> (∅ : gmap Z Row)) in Hr.
    destruct (decide (tid = 7)) as [->|Hne].
    - rewrite lookup_insert_eq in Hr. injection Hr as <-. eexists. reflexivity.
    - rewrite lookup_insert_ne in Hr by congruence.
      rewrite lookup_empty in Hr. discriminate. }
  destruct (status_lists_active_threads
              (Sample.env Sample.ok_reply Sample.no_info) [] 13
              (Sample.world 0) Hs (or_introl eq_refl) Hnn)
    as (lines & w' & Hrun & Hdb & _ & Hsorted).
  exists lines, w'. split; [exact Hrun|]. split; [exact Hdb|exact Hsorted].
Defined.

(** X24.  The waiting time shown by /status: a thread is READY exactly
    when its [next_bump_time] is not after the clock.  Otherwise the
    remaining seconds are shown as whole hours and minutes, rounded down
    to the minute, so a thread due in less than a minute is shown as
    0h 0m and not as READY. *)
Theorem status_rounds_down_to_minutes now nbt :
  (status_of now nbt = READY <-> nbt <= now) /\
  (forall h m,
      status_of now nbt = Wait h m ->
      0 <= h /\ 0 <= m < 60 /\
      h * 3600 + m * 60 <= nbt - now < h * 3600 + m * 60 + 60) /\
  (0 < nbt - now < 60 -> status_of now nbt = Wait 0 0).
Proof.
  unfold status_of. cbv zeta.
  destruct (Z.max 0 (nbt - now) =? 0) eqn:Hz.
  - apply Z.eqb_eq in Hz. split; [|split].
    + split; [lia|reflexivity].
    + discriminate.
    + lia.
  - apply Z.eqb_neq in Hz.
    assert (Hw : Z.max 0 (nbt - now) = nbt - now) by lia.
    rewrite Hw. split; [|split].
    + split; [discriminate|lia].
    + intros h m Heq. injection Heq as <- <-.
      pose proof (Z.div_mod (nbt - now) 3600 ltac:(lia)) as H1.
      pose proof (Z.mod_pos_bound (nbt - now) 3600 ltac:(lia)) as H2.
      pose proof (Z.div_mod ((nbt - now) mod 3600) 60 ltac:(lia)) as H3.
      pose proof (Z.mod_pos_bound ((nbt - now) mod 3600) 60 ltac:(lia)) as H4.
      assert (0 <= (nbt - now) / 3600) by (apply Z.div_pos; lia).
      assert (0 <= (nbt - now) mod 3600 / 60) by (apply Z.div_pos; lia).
      assert ((nbt - now) mod 3600 / 60 < 60)
        by (apply Z.div_lt_upper_bound; lia).
      lia.
    + intros Hlt. rewrite (Z.div_small (nbt - now) 3600) by lia.
      rewrite (Z.mod_small (nbt - now) 3600) by lia.
      rewrite (Z.div_small (nbt - now) 60) by lia. reflexivity.
Qed.

(** ** What the reconciliation keeps *)

Lemma same_bump_data_refl r : same_bump_data r r.
Proof. unfold same_bump_data. auto 10. Qed.

Lemma same_bump_data_set_active now r0 r :
  same_bump_data r0 r -> same_bump_data r0 (set_active now r).
Proof. unfold same_bump_data, set_active. simpl. auto. Qed.

Lemma same_bump_data_set_inactive now r0 r :
  same_bump_data r0 r -> same_bump_data r0 (set_inactive now r).
Proof. unfold same_bump_data, set_inactive. simpl. auto. Qed.

Section ReconciliationKeeps.

Variable env : Env.
Hypothesis Hsql : storage_ok env.

Lemma add_or_reactivate_keeps now s0 config_ids tid w :
  snapshot_kept s0 config_ids (db w) ->
  exists w',
    add_or_reactivate env now (select_all_threads s0) tid w = (Return tt, w') /\
    snapshot_kept s0 config_ids (db w') /\
    requests w' =
    requests w ++
    (if bool_decide (threads s0 !! tid = None) then [GET_thread tid] else []).
Proof.
  intros [Hhist Hrows]. unfold add_or_reactivate.
  destruct (threads s0 !! tid) as [r0|] eqn:E0.
  - rewrite bool_decide_eq_true_2
      by (apply stored_thread_id; rewrite E0; eauto).
    cbn [negb].
    rewrite (find_stored_thread _ _ _ E0). cbn [columns snd].
    rewrite (bool_decide_eq_false_2 (Some r0 = None)) by discriminate.
    rewrite app_nil_r.
    destruct (truthy (is_active r0)) eqn:Hact; cbn [negb].
    + exists w. split; [reflexivity|]. split; [split; assumption|reflexivity].
    + eexists. split.
      { erewrite bind_Return by (apply activate_thread_run; assumption).
        unfold logger. reflexivity. }
      unfold snapshot_kept.
      cbn [db set_db set_log set_stmts set_ticks requests threads with_threads
           bump_history].
      split; [|reflexivity]. split; [exact Hhist|].
      intros k rk Hk. destruct (Hrows k rk Hk) as (r & Hr & Hsame & Hfix).
      destruct (decide (k = tid)) as [->|Hne].
      * rewrite lookup_alter_eq, Hr. eexists. split; [reflexivity|].
        split; [apply same_bump_data_set_active; exact Hsame|].
        intros _ Hact'. congruence.
      * rewrite lookup_alter_ne by congruence. eauto.
  - rewrite bool_decide_eq_false_2
      by (rewrite stored_thread_id, E0; intros [? H]; discriminate H).
    cbn [negb].
    rewrite (bool_decide_eq_true_2 (@None Row = None)) by reflexivity.
    destruct (get_thread_info_run env tid w)
      as (wi & Hinfo & Hdb & _ & _ & _ & _ & Hreq).
    eexists. split.
    { erewrite bind_Return by exact Hinfo.
      erewrite bind_Return by (apply upsert_thread_run; assumption).
      unfold bind, logger, sleep, ret. reflexivity. }
    unfold snapshot_kept.
    cbn [db set_db set_log set_stmts set_ticks requests].
    split; [|exact Hreq].
    rewrite Hdb. unfold upserted.
    destruct (threads (db w) !! tid) as [r|] eqn:E;
      (split; [exact Hhist|]); cbn [threads with_threads];
      intros k rk Hk; assert (k <> tid) by congruence.
    + rewrite lookup_alter_ne by congruence. auto.
    + rewrite lookup_insert_ne by congruence. auto.
Qed.

Lemma deactivate_removed_keeps s0 config_ids t w :
  snapshot_kept s0 config_ids (db w) ->
  exists w',
    deactivate_removed env config_ids t w = (Return tt, w') /\
    snapshot_kept s0 config_ids (db w') /\
    requests w' = requests w.
Proof.
  intros [Hhist Hrows]. unfold deactivate_removed.
  destruct (bool_decide (thread_id t ∈ config_ids)) eqn:Hcfg; cbn [negb andb].
  - exists w. split; [reflexivity|]. split; [split; assumption|reflexivity].
  - destruct (truthy (is_active (columns t))).
    + eexists. split.
      { erewrite bind_Return by (apply deactivate_thread_run; assumption).
        unfold logger. reflexivity. }
      unfold snapshot_kept.
      cbn [db set_db set_log set_stmts set_ticks requests threads with_threads
           bump_history].
      split; [|reflexivity]. split; [exact Hhist|].
      intros k rk Hk. destruct (Hrows k rk Hk) as (r & Hr & Hsame & Hfix).
      destruct (decide (k = thread_id t)) as [->|Hne].
      * rewrite lookup_alter_eq, Hr. eexists. split; [reflexivity|].
        split; [apply same_bump_data_set_inactive; exact Hsame|].
        intros Hin _. apply bool_decide_eq_false_1 in Hcfg. contradiction.
      * rewrite lookup_alter_ne by congruence. eauto.
    + exists w. split; [reflexivity|]. split; [split; assumption|reflexivity].
Qed.

Lemma first_loop_keeps now s0 config_ids ids :
  forall w,
    snapshot_kept s0 config_ids (db w) ->
    exists w',
      for_each ids (add_or_reactivate env now (select_all_threads s0)) w
      = (Return tt, w') /\
      snapshot_kept s0 config_ids (db w') /\
      requests w' =
      requests w ++
      (GET_thread <$>
         List.filter (fun tid => bool_decide (threads s0 !! tid = None)) ids).
Proof.
  induction ids as [|tid ids IH]; intros w Hw.
  - exists w. simpl. rewrite app_nil_r. auto.
  - destruct (add_or_reactivate_keeps now s0 config_ids tid w Hw)
      as (w1 & Hrun & Hw1 & Hreq1).
    destruct (IH w1 Hw1) as (w' & Hloop & Hw' & Hreq').
    exists w'. split.
    { simpl. erewrite bind_Return by exact Hrun. exact Hloop. }
    split; [exact Hw'|].
    rewrite Hreq', Hreq1. simpl.
    destruct (bool_decide (threads s0 !! tid = None)).
    + rewrite fmap_cons, <- app_assoc. reflexivity.
    + rewrite app_nil_r. reflexivity.
Qed.

Lemma second_loop_keeps s0 config_ids ts :
  forall w,
    snapshot_kept s0 config_ids (db w) ->
    exists w',
      for_each ts (deactivate_removed env config_ids) w = (Return tt, w') /\
      snapshot_kept s0 config_ids (db w') /\
      requests w' = requests w.
Proof.
  induction ts as [|t ts IH]; intros w Hw.
  - exists w. auto.
  - destruct (deactivate_removed_keeps s0 config_ids t w Hw)
      as (w1 & Hrun & Hw1 & Hreq1).
    destruct (IH w1 Hw1) as (w' & Hloop & Hw' & Hreq').
    exists w'. split.
    { simpl. erewrite bind_Return by exact Hrun. exact Hloop. }
    split; [exact Hw'|congruence].
Qed.

Lemma initialize_threads_from_keeps config_ids w :
  exists w',
    initialize_threads_from env config_ids w = (Return tt, w') /\
    snapshot_kept (db w) config_ids (db w') /\
    requests w' =
    requests w ++
    (GET_thread <$>
       List.filter (fun tid => bool_decide (threads (db w) !! tid = None))
                   config_ids).
Proof.
  unfold initialize_threads_from.
  set (w0 := set_stmts (S (stmts w)) (set_ticks (S (ticks w)) w)).
  assert (H0 : snapshot_kept (db w) config_ids (db w0)).
  { split; [reflexivity|]. intros k r0 Hk. exists r0.
    split; [exact Hk|]. split; [apply same_bump_data_refl|reflexivity]. }
  destruct (first_loop_keeps (clock env (ticks w)) (db w) config_ids
              config_ids w0 H0) as (w1 & Hloop1 & Hw1 & Hreq1).
  destruct (second_loop_keeps (db w) config_ids (select_all_threads (db w))
              w1 Hw1) as (w2 & Hloop2 & Hw2 & Hreq2).
  exists w2. split.
  { erewrite bind_Return by (unfold time_time; reflexivity).
    erewrite bind_Return by (apply get_all_threads_run; assumption).
    fold w0. erewrite bind_Return by exact Hloop1. exact Hloop2. }
  split; [exact Hw2|]. rewrite Hreq2, Hreq1. reflexivity.
Qed.

End ReconciliationKeeps.





(** ** The summary of a cycle *)

Lemma filter_m_pure {A} (p : A -> M bool) (g : A -> bool) (l : list A) w :
  (forall x, x ∈ l -> p x w = (Return (g x), w)) ->
  filter_m p l w = (Return (List.filter g l), w).
Proof.
  induction l as [|x l IH]; intros H; simpl; [reflexivity|].
  erewrite bind_Return by (apply H; left).
  erewrite bind_Return by (apply IH; intros y Hy; apply H; right; exact Hy).
  reflexivity.
Qed.

(** X27.  On a working storage engine, and with no NULL title or
    [next_bump_time] among the bumped and the active threads,
    [_notify_summary] returns whatever Telegram does and leaves the
    stored data alone.  It sends nothing when no thread was bumped and no
    active thread is scheduled after the clock; otherwise it sends one
    message with one line per bumped thread and one per pending thread. *)
Theorem summary_survives_telegram env results w :
  storage_ok env ->
  (forall r, r ∈ results -> res_success (result r) = true ->
             is_Some (res_title r)) ->
  (forall tid r, threads (db w) !! tid = Some r ->
                 truthy (is_active r) = true ->
                 is_Some (next_bump_time r) /\ is_Some (title r)) ->
  let bumped := List.filter (fun r => res_success (result r)) results in
  let pending := List.filter (pending_at (clock env (ticks w)))
                             (select_all_threads (db w)) in
  exists w',
    _notify_summary env results w = (Return tt, w') /\
    db w' = db w /\
    match bumped, pending with
    | [], [] => sent w' = sent w /\ log w' = log w
    | _, _ =>
        exists b p, sent w' = sent w ++ [TgSummary b p] /\
                    length b = length bumped /\ length p = length pending
    end.
Proof.
  intros Hsql Hres Hrows bumped pending.
  set (now := clock env (ticks w)) in *.
  set (w2 := set_ticks (S (ticks w)) (set_stmts (S (stmts w)) w)).
  set (bl := (fun r => substring 0 45 (default "" (res_title r))) <$> bumped).
  set (pl := (fun t : Z * Row =>
                (substring 0 35 (default "" (title (columns t))),
                 Z.max 0 (default 0 (next_bump_time (columns t)) - now)))
               <$> pending).
  assert (Hact : forall t, t ∈ select_all_threads (db w) ->
                   truthy (is_active (columns t)) = true ->
                   is_Some (next_bump_time (columns t)) /\
                   is_Some (title (columns t))).
  { intros [tid r] Hin. apply elem_of_select_all_threads in Hin.
    apply (Hrows tid r Hin). }
  assert (Hrun :
            _notify_summary env results w =
            match bl, pl with
            | [], [] => ret tt
            | _, _ =>
                try_except
                  (send_message env (TgSummary bl pl))
                  (fun e => logger ERROR ("Telegram error: " +:+ str e))
            end w2).
  { unfold _notify_summary. cbv zeta.
    erewrite bind_Return by (apply get_all_threads_run; assumption).
    erewrite bind_Return by (unfold time_time; reflexivity).
    cbn [ticks set_stmts]. fold now. fold w2.
    erewrite bind_Return.
    2:{ apply (filter_m_pure _ (pending_at now)). intros t Hin.
        unfold pending_at.
        destruct (truthy (is_active (columns t))) eqn:Ha; [|reflexivity].
        destruct (Hact t Hin Ha) as [[n Hn] _]. rewrite Hn. reflexivity. }
    fold pending. fold bumped.
    erewrite bind_Return.
    2:{ apply (traverse_pure _
                 (fun r => substring 0 45 (default "" (res_title r)))).
        intros r Hin. subst bumped.
        apply list_elem_of_In, filter_In in Hin. destruct Hin as [Hin Hok].
        apply list_elem_of_In in Hin.
        destruct (Hres r Hin Hok) as [s Hs]. rewrite Hs. reflexivity. }
    erewrite bind_Return.
    2:{ apply (traverse_pure _
                 (fun t : Z * Row =>
                    (substring 0 35 (default "" (title (columns t))),
                     Z.max 0 (default 0 (next_bump_time (columns t)) - now)))).
        intros t Hin. subst pending.
        apply list_elem_of_In, filter_In in Hin. destruct Hin as [Hin Hp].
        apply list_elem_of_In in Hin. unfold pending_at in Hp.
        apply andb_true_iff in Hp. destruct Hp as [Ha _].
        destruct (Hact t Hin Ha) as [_ [s Hs]].
        unfold slice_title. rewrite Hs. reflexivity. }
    fold bl. fold pl. reflexivity. }
  assert (Hlb : length bl = length bumped) by apply length_fmap.
  assert (Hlp : length pl = length pending) by apply length_fmap.
  assert (Hsend : exists w',
             try_except (send_message env (TgSummary bl pl))
                        (fun e => logger ERROR ("Telegram error: " +:+ str e))
                        w2 = (Return tt, w') /\
             db w' = db w /\ sent w' = sent w ++ [TgSummary bl pl]).
  { unfold try_except, send_message, logger.
    destruct (tg_fault env (length (sent w2)));
      (eexists; split; [reflexivity|split; reflexivity]). }
  destruct Hsend as (ws & Hsend & Hdbs & Hsents).
  destruct bumped as [|b0 bs] eqn:Eb; destruct pending as [|p0 ps] eqn:Ep;
    subst bl pl; rewrite Hrun; cbn [fmap list_fmap].
  - exists w2. split; [reflexivity|]. split; [reflexivity|].
    split; reflexivity.
  - exists ws. split; [exact Hsend|]. split; [exact Hdbs|].
    eexists _, _. split; [exact Hsents|]. split; [exact Hlb|exact Hlp].
  - exists ws. split; [exact Hsend|]. split; [exact Hdbs|].
    eexists _, _. split; [exact Hsents|]. split; [exact Hlb|exact Hlp].
  - exists ws. split; [exact Hsend|]. split; [exact Hdbs|].
    eexists _, _. split; [exact Hsents|]. split; [exact Hlb|exact Hlp].
Qed.

Lemma summary_survives_telegram_witness :
  let env := {| clock := fun _ => 1000; entropy := fun _ => 0;
                http_post := fun _ _ => Sample.ok_reply;
                http_get := fun _ _ => Sample.no_info;
                tg_fault := fun _ => Some "Bad Gateway";
                sql_fault := fun _ => None |} in
  let bumped := {| result := {| res_success := true;
                                res_message := "Thread bumped";
                                res_next_time := None;
                                res_is_cooldown := false |};
                   res_title := Some "Selling";
                   res_thread_id := 7 |} in
  storage_ok env /\
  exists w',
    _notify_summary env [bumped] (Sample.world 0) = (Return tt, w') /\
    db w' = db (Sample.world 0) /\
    exists b p, sent w' = [TgSummary b p] /\ length b = 1%nat.
Proof.
  intros env bumped.
  assert (Hs : storage_ok env) by (intro k; reflexivity).
  split; [exact Hs|].
  assert (Hres : forall r, r ∈ [bumped] -> res_success (result r) = true ->
                           is_Some (res_title r)).
  { intros r Hin _. apply list_elem_of_singleton in Hin. subst r.
    eexists. reflexivity. }
  assert (Hrows : forall tid r,
             threads (db (Sample.world 0)) !! tid = Some r ->
             truthy (is_active r) = true ->
             is_Some (next_bump_time r) /\ is_Some (title r)).
  { intros tid r Hr _.
    change (threads (db (Sample.world 0)))
      with (<[7 := Sample.row 0]> (∅ : gmap Z Row)) in Hr.
    destruct (decide (tid = 7)) as [->|Hne].
    - rewrite lookup_insert_eq in Hr. injection Hr as <-.
      split; eexists; reflexivity.
    - rewrite lookup_insert_ne in Hr by congruence.
      rewrite lookup_empty in Hr. discriminate. }
  destruct (summary_survives_telegram env [bumped] (Sample.world 0)
              Hs Hres Hrows) as (w' & Hrun & Hdb & Hsent).
  exists w'. split; [exact Hrun|]. split; [exact Hdb|].
  cbn in Hsent. destruct Hsent as (b & p & Hsent & Hb & _).
  exists b, p. split; [exact Hsent|exact Hb].
Defined.

Lemma status_rounds_down_to_minutes_witness :
  0 < 1030 - 1000 < 60 /\ status_of 1000 1030 = Wait 0 0.
Proof.
  split; [lia|].
  apply (proj2 (proj2 (status_rounds_down_to_minutes 1000 1030))). lia.
Defined.
